(** * GenerateHologramCUDA: host-side control logic of the hologram engine

    A shallow embedding of the host functions of [GenerateHologramCUDA.cu]
    ([GenerateHologram], [Corrections], [startCUDAandSLM], [stopCUDAandSLM],
    [GetAmps]) over a small model of the CUDA runtime: device pointers,
    allocation and release, memory copies, the sticky last error, and the
    sequence of kernel launches.  The device kernels and the constants of
    [GenerateHologramCUDA.h] are defined outside this file and are taken as
    parameters. *)

From Stdlib Require Import ZArith Lia String List Bool Permutation.
From stdpp Require Import base decidable list strings.
Import ListNotations.
Open Scope Z_scope.

(** ** Machine integers *)

(** [int] is a 32-bit two's complement integer; [size_t] is taken 64 bits
    wide.  Conversions are written out where the source converts. *)
Definition to_int (z : Z) : Z := (z + 2 ^ 31) mod 2 ^ 32 - 2 ^ 31.
Definition to_size_t (z : Z) : Z := z mod 2 ^ 64.

Definition sizeof_float : Z := 4.
Definition sizeof_uchar : Z := 1.
Definition sizeof_int : Z := 4.
Definition sizeof_cufftComplex : Z := 8.

(** [n * sizeof(T)] with [n] an [int]: the product is computed in [size_t]. *)
Definition size_mul (n esz : Z) : Z := to_size_t (to_size_t n * esz).

(** [(bool)i] for an [int] [i]. *)
Definition bool_of_int (i : Z) : bool := negb (i =? 0).

(** ** Device pointers *)

(** A device pointer variable is NULL, points to a live allocation (whose
    contents the model keeps with the pointer), or still holds the address of
    an allocation that has been released. *)
Inductive devptr (A : Type) : Type :=
| NullPtr
| Live (contents : list A)
| Stale.
Arguments NullPtr {A}.
Arguments Live {A} contents.
Arguments Stale {A}.

Definition is_null {A} (p : devptr A) : bool :=
  match p with NullPtr => true | _ => false end.

Definition is_live {A} (p : devptr A) : bool :=
  match p with Live _ => true | _ => false end.

(** What a kernel sees through a pointer that it may or may not use. *)
Definition deref {A} (p : devptr A) : option (list A) :=
  match p with Live l => Some l | _ => None end.

(** [cudaDeviceReset] destroys every allocation of the process. *)
Definition invalidate {A} (p : devptr A) : devptr A :=
  match p with Live _ => Stale | q => q end.

(** ** Names of the global variables *)

Inductive fptr : Set :=
| d_x | d_y | d_z | d_I
| d_pSLM_f
| d_weights | d_weights_start | d_amps
| d_pSLMstart_f
| d_spotRe_f | d_spotIm_f
| d_AberrationCorr_f
| d_LUTPolCoeff_f
| d_aLaserFFT | d_LUT_coeff.

Inductive ucptr : Set := d_pSLM_uc | d_LUT_uc.

Inductive ccptr : Set := d_FFTo_cc | d_FFTd_cc | d_SLM_cc.

Inductive ivar : Set :=
| N_LUTPolCoeff
| n_blocks_Phi | memsize_SLMf | memsize_SLMuc | memsize_spotsf
| data_w | N_pixels | N_iterations_last
| maxThreads_device
| memsize_SLMcc.

#[global] Instance fptr_eq_dec : EqDecision fptr.
Proof. solve_decision. Defined.
#[global] Instance ucptr_eq_dec : EqDecision ucptr.
Proof. solve_decision. Defined.
#[global] Instance ccptr_eq_dec : EqDecision ccptr.
Proof. solve_decision. Defined.
#[global] Instance ivar_eq_dec : EqDecision ivar.
Proof. solve_decision. Defined.

(** Assignment to one variable of a family. *)
Definition upd {K V : Type} `{EqDecision K} (k : K) (v : V) (f : K -> V) : K -> V :=
  fun k' => if decide (k' = k) then v else f k'.

(** ** Observable runtime events *)

Inductive pname : Set :=
| PF (p : fptr) | PUC (p : ucptr) | PCC (p : ccptr)
| PSpotIndex
| PLocal (name : string).

Inductive kernel : Set :=
| K_LensesAndPrisms
| K_checkAmplitudes
| K_PropagateToSpotPositions_Fresnel
| K_PropagateToSLM_Fresnel
| K_XYtoIndex
| K_ReplaceAmpsSpots_FFT
| K_ReplaceAmpsSLM_FFT
| K_getPhases.

Inductive event : Type :=
| EvMalloc (p : pname) (bytes : Z)
| EvFree (p : pname)
| EvLaunch (k : kernel) (grid block : Z)
| EvFFT (forward : bool)
| EvPlan2d (nx ny : Z)
| EvPlanDestroy
| EvDeviceReset
| EvInitalizeSLM
| EvSetPower (on : bool)
| EvLoadImg (img : list Z)
| EvShutDownSLM
| EvMessageBox (fn : string).

#[global] Instance pname_eq_dec : EqDecision pname.
Proof. solve_decision. Defined.
#[global] Instance kernel_eq_dec : EqDecision kernel.
Proof. solve_decision. Defined.

(** Error codes of the runtime: only [cudaSuccess = 0] matters to the host
    code, which tests the status for being non-zero. *)
Definition cudaSuccess : Z := 0.
Definition cudaErrorInvalidValue : Z := 1.
Definition cudaErrorMemoryAllocation : Z := 2.
Definition cudaErrorLaunchFailure : Z := 4.
Definition cudaErrorInvalidDevicePointer : Z := 17.

(** ** Parameters of the embedding *)

(** Single-precision arithmetic.  Only the operations the host code performs
    are needed; their results are left uninterpreted. *)
Class FloatOps : Type := {
  float : Type;
  float_of_int : Z -> float;
  fmul : float -> float -> float;
  fdiv : float -> float -> float;
  fsqrt : float -> float;
  M_PI : float;
  (* what freshly allocated, never written memory happens to hold *)
  indeterminate : float;
  indeterminate_int : Z
}.

(** The constants of [GenerateHologramCUDA.h], which is not part of the
    sources at hand. *)
Class Header : Type := {
  BLOCK_SIZE : Z;
  SLM_SIZE : Z
}.

Definition cufftComplex `{FloatOps} : Type := (float * float)%type.

(** The device code.  Each kernel is a function from the buffers and scalars
    it is launched with to the new contents of the buffers it may write;
    pointers that are only used when a correction is switched on are seen
    through [deref].  [checkAmplitudes_block] is the work of one thread block
    of [checkAmplitudes]: launched as a grid of [N_spots] blocks, block [b]
    stores the amplitude of point [b] in [g_amps[b]]. *)
Class Kernels `{FloatOps} : Type := {
  LensesAndPrisms :
    forall (g_x g_y g_z g_I : list float) (g_pSLM_uc : list Z) (N_spots : Z)
           (g_LUT : option (list Z)) (ApplyLUT : bool) (data_w : Z)
           (UseAberrationCorr : bool) (g_AberrationCorr : option (list float))
           (UseLUTPol : bool) (g_LUTPolCoeff : option (list float))
           (N_PolCoeff : Z), list Z;
  checkAmplitudes_block :
    forall (g_x g_y g_z : list float) (g_pSLM_uc : list Z)
           (N_spots N_pixels data_w : Z) (blockIdx : nat), float;
  PropagateToSpotPositions_Fresnel :
    forall (g_x g_y g_z g_pSLM_f g_spotRe_f g_spotIm_f : list float)
           (N_spots N_pixels data_w : Z), list float * list float;
  PropagateToSLM_Fresnel :
    forall (g_x g_y g_z g_I g_spotRe_f g_spotIm_f g_pSLM_f : list float)
           (N_pixels N_spots : Z) (g_weights : list float) (iteration : Z)
           (g_pSLMstart : list float) (RPC : float) (g_amps : list float)
           (getpSLM255 : bool) (g_pSLM255_uc : list Z)
           (g_LUT : option (list Z)) (ApplyLUT : bool)
           (UseAberrationCorr : bool) (g_AberrationCorr : option (list float))
           (UseLUTPol : bool) (g_LUTPolCoeff : option (list float))
           (N_PolCoeff : Z),
      (* g_pSLM_f, g_weights, g_pSLMstart, g_amps, g_pSLM255_uc *)
      list float * list float * list float * list float * list Z;
  XYtoIndex :
    forall (g_x g_y : list float) (g_spot_index : list Z) (N_spots data_w : Z),
      list Z;
  cufftExecC2C :
    forall (nx ny : Z) (idata odata : list cufftComplex) (forward : bool),
      list cufftComplex;
  ReplaceAmpsSpots_FFT :
    forall (g_cSpotAmp_cc g_cSpotAmpNew_cc : list cufftComplex)
           (g_spotIndex : list Z) (N_spots iteration : Z)
           (g_amplitude g_weight : list float) (amp_desired : float),
      (* g_cSpotAmpNew_cc, g_amplitude, g_weight *)
      list cufftComplex * list float * list float;
  ReplaceAmpsSLM_FFT :
    forall (g_aLaser : option (list float)) (g_cAmp : list cufftComplex)
           (g_pSLMstart : list float) (N_pixels : Z) (RPC : float),
      list cufftComplex * list float;
  getPhases :
    forall (g_pSLM_uc : list Z) (g_pSLMstart : list float)
           (g_cAmp : list cufftComplex) (g_LUT_coeff : option (list float))
           (LUT_on : Z) (data_w : Z),
      list Z * list float
}.

(** ** The session state *)

Section Engine.
Context `{FloatOps} `{Header} `{!Kernels}.

(** The global variables of the translation unit, followed by the part of the
    CUDA runtime the host code can observe: the sticky last error, the free
    and total device memory in bytes, and the log of runtime and driver
    calls.  [CUDAmessage], whose text is only shown in the message box, is
    left out. *)
Record globals : Type := {
  fptrs : fptr -> devptr float;
  ucptrs : ucptr -> devptr Z;
  ccptrs : ccptr -> devptr cufftComplex;
  d_spot_index : devptr Z;
  plan : option (Z * Z);
  ints : ivar -> Z;
  ApplyLUT_b : bool;
  EnableSLM_b : bool;
  UseAberrationCorr_b : bool;
  UseLUTPol_b : bool;
  status : Z;
  last_error : Z;
  mem_avail : Z;
  mem_total : Z;
  trace : list event
}.

Definition set_fptrs (v : fptr -> devptr float) (st : globals) : globals :=
  Build_globals v (ucptrs st) (ccptrs st) (d_spot_index st) (plan st) (ints st) (ApplyLUT_b st) (EnableSLM_b st) (UseAberrationCorr_b st) (UseLUTPol_b st) (status st) (last_error st) (mem_avail st) (mem_total st) (trace st).
Definition set_ucptrs (v : ucptr -> devptr Z) (st : globals) : globals :=
  Build_globals (fptrs st) v (ccptrs st) (d_spot_index st) (plan st) (ints st) (ApplyLUT_b st) (EnableSLM_b st) (UseAberrationCorr_b st) (UseLUTPol_b st) (status st) (last_error st) (mem_avail st) (mem_total st) (trace st).
Definition set_ccptrs (v : ccptr -> devptr cufftComplex) (st : globals) : globals :=
  Build_globals (fptrs st) (ucptrs st) v (d_spot_index st) (plan st) (ints st) (ApplyLUT_b st) (EnableSLM_b st) (UseAberrationCorr_b st) (UseLUTPol_b st) (status st) (last_error st) (mem_avail st) (mem_total st) (trace st).
Definition set_d_spot_index (v : devptr Z) (st : globals) : globals :=
  Build_globals (fptrs st) (ucptrs st) (ccptrs st) v (plan st) (ints st) (ApplyLUT_b st) (EnableSLM_b st) (UseAberrationCorr_b st) (UseLUTPol_b st) (status st) (last_error st) (mem_avail st) (mem_total st) (trace st).
Definition set_plan (v : option (Z * Z)) (st : globals) : globals :=
  Build_globals (fptrs st) (ucptrs st) (ccptrs st) (d_spot_index st) v (ints st) (ApplyLUT_b st) (EnableSLM_b st) (UseAberrationCorr_b st) (UseLUTPol_b st) (status st) (last_error st) (mem_avail st) (mem_total st) (trace st).
Definition set_ints (v : ivar -> Z) (st : globals) : globals :=
  Build_globals (fptrs st) (ucptrs st) (ccptrs st) (d_spot_index st) (plan st) v (ApplyLUT_b st) (EnableSLM_b st) (UseAberrationCorr_b st) (UseLUTPol_b st) (status st) (last_error st) (mem_avail st) (mem_total st) (trace st).
Definition set_ApplyLUT_b (v : bool) (st : globals) : globals :=
  Build_globals (fptrs st) (ucptrs st) (ccptrs st) (d_spot_index st) (plan st) (ints st) v (EnableSLM_b st) (UseAberrationCorr_b st) (UseLUTPol_b st) (status st) (last_error st) (mem_avail st) (mem_total st) (trace st).
Definition set_EnableSLM_b (v : bool) (st : globals) : globals :=
  Build_globals (fptrs st) (ucptrs st) (ccptrs st) (d_spot_index st) (plan st) (ints st) (ApplyLUT_b st) v (UseAberrationCorr_b st) (UseLUTPol_b st) (status st) (last_error st) (mem_avail st) (mem_total st) (trace st).
Definition set_UseAberrationCorr_b (v : bool) (st : globals) : globals :=
  Build_globals (fptrs st) (ucptrs st) (ccptrs st) (d_spot_index st) (plan st) (ints st) (ApplyLUT_b st) (EnableSLM_b st) v (UseLUTPol_b st) (status st) (last_error st) (mem_avail st) (mem_total st) (trace st).
Definition set_UseLUTPol_b (v : bool) (st : globals) : globals :=
  Build_globals (fptrs st) (ucptrs st) (ccptrs st) (d_spot_index st) (plan st) (ints st) (ApplyLUT_b st) (EnableSLM_b st) (UseAberrationCorr_b st) v (status st) (last_error st) (mem_avail st) (mem_total st) (trace st).
Definition set_status (v : Z) (st : globals) : globals :=
  Build_globals (fptrs st) (ucptrs st) (ccptrs st) (d_spot_index st) (plan st) (ints st) (ApplyLUT_b st) (EnableSLM_b st) (UseAberrationCorr_b st) (UseLUTPol_b st) v (last_error st) (mem_avail st) (mem_total st) (trace st).
Definition set_last_error (v : Z) (st : globals) : globals :=
  Build_globals (fptrs st) (ucptrs st) (ccptrs st) (d_spot_index st) (plan st) (ints st) (ApplyLUT_b st) (EnableSLM_b st) (UseAberrationCorr_b st) (UseLUTPol_b st) (status st) v (mem_avail st) (mem_total st) (trace st).
Definition set_mem_avail (v : Z) (st : globals) : globals :=
  Build_globals (fptrs st) (ucptrs st) (ccptrs st) (d_spot_index st) (plan st) (ints st) (ApplyLUT_b st) (EnableSLM_b st) (UseAberrationCorr_b st) (UseLUTPol_b st) (status st) (last_error st) v (mem_total st) (trace st).
Definition set_mem_total (v : Z) (st : globals) : globals :=
  Build_globals (fptrs st) (ucptrs st) (ccptrs st) (d_spot_index st) (plan st) (ints st) (ApplyLUT_b st) (EnableSLM_b st) (UseAberrationCorr_b st) (UseLUTPol_b st) (status st) (last_error st) (mem_avail st) v (trace st).
Definition set_trace (v : list event) (st : globals) : globals :=
  Build_globals (fptrs st) (ucptrs st) (ccptrs st) (d_spot_index st) (plan st) (ints st) (ApplyLUT_b st) (EnableSLM_b st) (UseAberrationCorr_b st) (UseLUTPol_b st) (status st) (last_error st) (mem_avail st) (mem_total st) v.

(** Static storage is zero-initialised: every pointer is NULL, every flag
    false.  [capacity] is the device memory the runtime has to give. *)
Definition initial_globals (capacity : Z) : globals := {|
  fptrs := fun _ => NullPtr;
  ucptrs := fun _ => NullPtr;
  ccptrs := fun _ => NullPtr;
  d_spot_index := NullPtr;
  plan := None;
  ints := fun _ => 0;
  ApplyLUT_b := false;
  EnableSLM_b := false;
  UseAberrationCorr_b := false;
  UseLUTPol_b := false;
  status := 0;
  last_error := cudaSuccess;
  mem_avail := capacity;
  mem_total := capacity;
  trace := []
|}.

(** ** Host code as state transformers *)

Definition M (A : Type) : Type := globals -> A * globals.

Definition ret {A} (a : A) : M A := fun st => (a, st).

Definition bind {A B} (m : M A) (k : A -> M B) : M B :=
  fun st => let r := m st in k (fst r) (snd r).

Notation "x <- m ;; k" := (bind m (fun x => k))
  (at level 100, m at next level, k at level 200, right associativity).
Notation "m ;; k" := (bind m (fun _ => k))
  (at level 100, k at level 200, right associativity).

Definition get {A} (proj : globals -> A) : M A := fun st => (proj st, st).
Definition modify (f : globals -> globals) : M unit := fun st => (tt, f st).
Definition when (b : bool) (m : M unit) : M unit := if b then m else ret tt.

Definition set_fptr (p : fptr) (v : devptr float) : M unit :=
  modify (fun st => set_fptrs (upd p v (fptrs st)) st).
Definition set_ucptr (p : ucptr) (v : devptr Z) : M unit :=
  modify (fun st => set_ucptrs (upd p v (ucptrs st)) st).
Definition set_ccptr (p : ccptr) (v : devptr cufftComplex) : M unit :=
  modify (fun st => set_ccptrs (upd p v (ccptrs st)) st).
Definition set_int (x : ivar) (v : Z) : M unit :=
  modify (fun st => set_ints (upd x v (ints st)) st).

Definition log (e : event) : M unit :=
  modify (fun st => set_trace (trace st ++ [e]) st).

(** A failing runtime call records its code as the last error. *)
Definition raise (code : Z) : M Z :=
  modify (set_last_error code) ;; ret code.

(** [cudaGetLastError] returns the last error and resets it. *)
Definition cudaGetLastError : M Z :=
  e <- get last_error ;; modify (set_last_error cudaSuccess) ;; ret e.

(** ** The CUDA runtime *)

Definition elems (esz bytes : Z) : nat := Z.to_nat (bytes / esz).

(** [cudaMalloc(&p, bytes)]: on success the pointer variable holds a fresh
    allocation with indeterminate contents (whatever [p] pointed to before
    stays allocated); on failure the variable is left as it was. *)
Definition cudaMalloc {A} (name : pname) (esz : Z) (fill : A)
    (old : devptr A) (bytes : Z) : M (devptr A) :=
  log (EvMalloc name bytes) ;;
  avail <- get mem_avail ;;
  if bytes <=? avail then
    modify (set_mem_avail (avail - bytes)) ;;
    ret (Live (replicate (elems esz bytes) fill))
  else
    raise cudaErrorMemoryAllocation ;; ret old.

(** [cudaFree(p)]: NULL is accepted and nothing happens; a live allocation is
    released (the variable keeps the address); an address that is no longer
    allocated is an error. *)
Definition cudaFree {A} (name : pname) (esz : Z) (p : devptr A) : M (devptr A) :=
  log (EvFree name) ;;
  match p with
  | NullPtr => ret NullPtr
  | Live l =>
      avail <- get mem_avail ;;
      modify (set_mem_avail (avail + esz * Z.of_nat (length l))) ;;
      ret Stale
  | Stale => raise cudaErrorInvalidDevicePointer ;; ret Stale
  end.

(** [cudaMemcpy].  A copy of zero bytes succeeds whatever the pointers are.
    Otherwise the device side must be a live allocation large enough; the
    host side must be a non-NULL array large enough (C leaves a copy past
    the end of a host array undefined: the model reports it as a failed
    copy). *)
Definition cudaMemcpy_H2D {A} (esz : Z) (dst : devptr A)
    (src : option (list A)) (bytes : Z) : M (Z * devptr A) :=
  let n := elems esz bytes in
  if bytes =? 0 then ret (cudaSuccess, dst)
  else match dst, src with
       | Live d, Some s =>
           if (n <=? length d)%nat && (n <=? length s)%nat
           then ret (cudaSuccess, Live (take n s ++ drop n d))
           else e <- raise cudaErrorInvalidValue ;; ret (e, dst)
       | _, _ => e <- raise cudaErrorInvalidValue ;; ret (e, dst)
       end.

Definition cudaMemcpy_D2H {A} (esz : Z) (dst : list A) (src : devptr A)
    (bytes : Z) : M (Z * list A) :=
  let n := elems esz bytes in
  if bytes =? 0 then ret (cudaSuccess, dst)
  else match src with
       | Live s =>
           if (n <=? length s)%nat && (n <=? length dst)%nat
           then ret (cudaSuccess, take n s ++ drop n dst)
           else e <- raise cudaErrorInvalidValue ;; ret (e, dst)
       | _ => e <- raise cudaErrorInvalidValue ;; ret (e, dst)
       end.

Definition cudaMemcpy_D2D {A} (esz : Z) (dst src : devptr A)
    (bytes : Z) : M (Z * devptr A) :=
  let n := elems esz bytes in
  if bytes =? 0 then ret (cudaSuccess, dst)
  else match dst, src with
       | Live d, Live s =>
           if (n <=? length d)%nat && (n <=? length s)%nat
           then ret (cudaSuccess, Live (take n s ++ drop n d))
           else e <- raise cudaErrorInvalidValue ;; ret (e, dst)
       | _, _ => e <- raise cudaErrorInvalidValue ;; ret (e, dst)
       end.

(** [cudaMemset(p, 0, bytes)]; [zero] is the value whose bytes are all 0. *)
Definition cudaMemset0 {A} (esz : Z) (zero : A) (dst : devptr A)
    (bytes : Z) : M (devptr A) :=
  let n := elems esz bytes in
  if bytes =? 0 then ret dst
  else match dst with
       | Live d =>
           if (n <=? length d)%nat
           then ret (Live (replicate n zero ++ drop n d))
           else raise cudaErrorInvalidValue ;; ret dst
       | _ => raise cudaErrorInvalidValue ;; ret dst
       end.

(** Runtime calls on the global pointer variables. *)
Definition malloc_f (p : fptr) (bytes : Z) : M unit :=
  old <- get (fun st => fptrs st p) ;;
  new <- cudaMalloc (PF p) sizeof_float indeterminate old bytes ;;
  set_fptr p new.
Definition malloc_uc (p : ucptr) (bytes : Z) : M unit :=
  old <- get (fun st => ucptrs st p) ;;
  new <- cudaMalloc (PUC p) sizeof_uchar indeterminate_int old bytes ;;
  set_ucptr p new.
Definition malloc_cc (p : ccptr) (bytes : Z) : M unit :=
  old <- get (fun st => ccptrs st p) ;;
  new <- cudaMalloc (PCC p) sizeof_cufftComplex (indeterminate, indeterminate) old bytes ;;
  set_ccptr p new.
Definition malloc_spot_index (bytes : Z) : M unit :=
  old <- get d_spot_index ;;
  new <- cudaMalloc PSpotIndex sizeof_int indeterminate_int old bytes ;;
  modify (set_d_spot_index new).

Definition free_f (p : fptr) : M unit :=
  old <- get (fun st => fptrs st p) ;;
  new <- cudaFree (PF p) sizeof_float old ;;
  set_fptr p new.
Definition free_uc (p : ucptr) : M unit :=
  old <- get (fun st => ucptrs st p) ;;
  new <- cudaFree (PUC p) sizeof_uchar old ;;
  set_ucptr p new.
Definition free_cc (p : ccptr) : M unit :=
  old <- get (fun st => ccptrs st p) ;;
  new <- cudaFree (PCC p) sizeof_cufftComplex old ;;
  set_ccptr p new.

Definition upload_f (p : fptr) (h : option (list float)) (bytes : Z) : M Z :=
  d <- get (fun st => fptrs st p) ;;
  r <- cudaMemcpy_H2D sizeof_float d h bytes ;;
  set_fptr p (snd r) ;; ret (fst r).
Definition upload_uc (p : ucptr) (h : option (list Z)) (bytes : Z) : M Z :=
  d <- get (fun st => ucptrs st p) ;;
  r <- cudaMemcpy_H2D sizeof_uchar d h bytes ;;
  set_ucptr p (snd r) ;; ret (fst r).
Definition download_f (h : list float) (p : fptr) (bytes : Z) : M (list float) :=
  d <- get (fun st => fptrs st p) ;;
  r <- cudaMemcpy_D2H sizeof_float h d bytes ;;
  ret (snd r).
Definition download_uc (h : list Z) (p : ucptr) (bytes : Z) : M (list Z) :=
  d <- get (fun st => ucptrs st p) ;;
  r <- cudaMemcpy_D2H sizeof_uchar h d bytes ;;
  ret (snd r).
Definition copy_f (dst src : fptr) (bytes : Z) : M unit :=
  d <- get (fun st => fptrs st dst) ;;
  s <- get (fun st => fptrs st src) ;;
  r <- cudaMemcpy_D2D sizeof_float d s bytes ;;
  set_fptr dst (snd r).

(** The error epilogue every exported function ends with. *)
Definition handle_errors (fn : string) : M Z :=
  e <- cudaGetLastError ;;
  modify (set_status e) ;;
  when (negb (e =? 0)) (log (EvMessageBox fn)) ;;
  ret e.

(** ** Kernel launches *)

(** A launch is logged; it takes effect when the buffers the kernel works on
    are live, and is a launch failure otherwise. *)
Definition launch_failure : M unit := raise cudaErrorLaunchFailure ;; ret tt.

Definition launch_LensesAndPrisms (N_spots : Z) : M unit :=
  nb <- get (fun st => ints st n_blocks_Phi) ;;
  log (EvLaunch K_LensesAndPrisms nb BLOCK_SIZE) ;;
  fun st =>
    match fptrs st d_x, fptrs st d_y, fptrs st d_z, fptrs st d_I,
          ucptrs st d_pSLM_uc with
    | Live gx, Live gy, Live gz, Live gI, Live gp =>
        set_ucptr d_pSLM_uc
          (Live (LensesAndPrisms gx gy gz gI gp N_spots
                   (deref (ucptrs st d_LUT_uc)) (ApplyLUT_b st)
                   (ints st data_w)
                   (UseAberrationCorr_b st) (deref (fptrs st d_AberrationCorr_f))
                   (UseLUTPol_b st) (deref (fptrs st d_LUTPolCoeff_f))
                   (ints st N_LUTPolCoeff))) st
    | _, _, _, _, _ => launch_failure st
    end.

(** The amplitude evaluator on one batch of points: what a grid of
    [N_spots] blocks of [checkAmplitudes] computes. *)
Definition evaluateAmplitudes (xs ys zs : list float) (pattern : list Z)
    (N_spots N_pixels' data_w' : Z) : list float :=
  map (checkAmplitudes_block xs ys zs pattern N_spots N_pixels' data_w')
      (seq 0 (Z.to_nat N_spots)).

(** [checkAmplitudes<<<N_spots, 512>>>(g_x + off, g_y + off, g_z + off,
    g_pSLM_uc, g_amps + off, N_spots, N_pixels, data_w)]. *)
Definition launch_checkAmplitudes (g_x g_y g_z : devptr float)
    (g_pSLM_uc : devptr Z) (g_amps : devptr float) (off : nat)
    (N_spots N_pixels' data_w' : Z) : M (devptr float) :=
  log (EvLaunch K_checkAmplitudes N_spots 512) ;;
  let n := Z.to_nat N_spots in
  match g_x, g_y, g_z, g_pSLM_uc, g_amps with
  | Live gx, Live gy, Live gz, Live gp, Live ga =>
      if (off + n <=? length gx)%nat && (off + n <=? length gy)%nat &&
         (off + n <=? length gz)%nat && (off + n <=? length ga)%nat
      then
        ret (Live (take off ga ++
                   evaluateAmplitudes (take n (drop off gx)) (take n (drop off gy))
                     (take n (drop off gz)) gp N_spots N_pixels' data_w' ++
                   drop (off + n) ga))
      else launch_failure ;; ret g_amps
  | _, _, _, _, _ => launch_failure ;; ret g_amps
  end.

Definition launch_PropagateToSpotPositions_Fresnel (N_spots : Z) : M unit :=
  log (EvLaunch K_PropagateToSpotPositions_Fresnel N_spots 512) ;;
  fun st =>
    match fptrs st d_x, fptrs st d_y, fptrs st d_z, fptrs st d_pSLM_f,
          fptrs st d_spotRe_f, fptrs st d_spotIm_f with
    | Live gx, Live gy, Live gz, Live gp, Live gre, Live gim =>
        let r := PropagateToSpotPositions_Fresnel gx gy gz gp gre gim N_spots
                   (ints st N_pixels) (ints st data_w) in
        (set_fptr d_spotRe_f (Live (fst r)) ;;
         set_fptr d_spotIm_f (Live (snd r))) st
    | _, _, _, _, _, _ => launch_failure st
    end.

Definition launch_PropagateToSLM_Fresnel (N_spots l : Z) (alpha_RPC : float)
    (last : bool) : M unit :=
  log (EvLaunch K_PropagateToSLM_Fresnel 512 512) ;;
  fun st =>
    match fptrs st d_x, fptrs st d_y, fptrs st d_z, fptrs st d_I,
          fptrs st d_spotRe_f, fptrs st d_spotIm_f, fptrs st d_pSLM_f,
          fptrs st d_weights, fptrs st d_pSLMstart_f, fptrs st d_amps,
          ucptrs st d_pSLM_uc with
    | Live gx, Live gy, Live gz, Live gI, Live gre, Live gim, Live gp,
      Live gw, Live gs, Live ga, Live guc =>
        let '(p', w', s', a', uc') :=
          PropagateToSLM_Fresnel gx gy gz gI gre gim gp (ints st N_pixels)
            N_spots gw l gs alpha_RPC ga last guc
            (deref (ucptrs st d_LUT_uc)) (ApplyLUT_b st)
            (UseAberrationCorr_b st) (deref (fptrs st d_AberrationCorr_f))
            (UseLUTPol_b st) (deref (fptrs st d_LUTPolCoeff_f))
            (ints st N_LUTPolCoeff) in
        (set_fptr d_pSLM_f (Live p') ;;
         set_fptr d_weights (Live w') ;;
         set_fptr d_pSLMstart_f (Live s') ;;
         set_fptr d_amps (Live a') ;;
         set_ucptr d_pSLM_uc (Live uc')) st
    | _, _, _, _, _, _, _, _, _, _, _ => launch_failure st
    end.

Definition launch_XYtoIndex (N_spots : Z) : M unit :=
  log (EvLaunch K_XYtoIndex 1 N_spots) ;;
  fun st =>
    match fptrs st d_x, fptrs st d_y, d_spot_index st with
    | Live gx, Live gy, Live gi =>
        modify (set_d_spot_index
                  (Live (XYtoIndex gx gy gi N_spots (ints st data_w)))) st
    | _, _, _ => launch_failure st
    end.

(** [cufftExecC2C(plan, idata, odata, direction)].  cuFFT reports failure
    through its own return value, which the host code drops. *)
Definition exec_fft (idata odata : ccptr) (forward : bool) : M unit :=
  log (EvFFT forward) ;;
  fun st =>
    match plan st, ccptrs st idata, ccptrs st odata with
    | Some (nx, ny), Live i, Live o =>
        set_ccptr odata (Live (cufftExecC2C nx ny i o forward)) st
    | _, _, _ => (tt, st)
    end.

Definition launch_ReplaceAmpsSpots_FFT (N_spots l : Z) (amp_desired : float)
    : M unit :=
  log (EvLaunch K_ReplaceAmpsSpots_FFT 1 N_spots) ;;
  fun st =>
    match ccptrs st d_FFTo_cc, ccptrs st d_FFTd_cc, d_spot_index st,
          fptrs st d_amps, fptrs st d_weights with
    | Live go, Live gd, Live gi, Live ga, Live gw =>
        let '(d', a', w') :=
          ReplaceAmpsSpots_FFT go gd gi N_spots l ga gw amp_desired in
        (set_ccptr d_FFTd_cc (Live d') ;;
         set_fptr d_amps (Live a') ;;
         set_fptr d_weights (Live w')) st
    | _, _, _, _, _ => launch_failure st
    end.

Definition launch_ReplaceAmpsSLM_FFT (alpha_RPC : float) : M unit :=
  nb <- get (fun st => ints st n_blocks_Phi) ;;
  log (EvLaunch K_ReplaceAmpsSLM_FFT nb BLOCK_SIZE) ;;
  fun st =>
    match ccptrs st d_SLM_cc, fptrs st d_pSLMstart_f with
    | Live gc, Live gs =>
        let r := ReplaceAmpsSLM_FFT (deref (fptrs st d_aLaserFFT)) gc gs
                   (ints st N_pixels) alpha_RPC in
        (set_ccptr d_SLM_cc (Live (fst r)) ;;
         set_fptr d_pSLMstart_f (Live (snd r))) st
    | _, _ => launch_failure st
    end.

Definition launch_getPhases : M unit :=
  nb <- get (fun st => ints st n_blocks_Phi) ;;
  log (EvLaunch K_getPhases nb BLOCK_SIZE) ;;
  fun st =>
    match ucptrs st d_pSLM_uc, fptrs st d_pSLMstart_f, ccptrs st d_SLM_cc with
    | Live guc, Live gs, Live gc =>
        let r := getPhases guc gs gc (deref (fptrs st d_LUT_coeff)) 0
                   (ints st data_w) in
        (set_ucptr d_pSLM_uc (Live (fst r)) ;;
         set_fptr d_pSLMstart_f (Live (snd r))) st
    | _, _, _ => launch_failure st
    end.

(** ** [GenerateHologram] *)

(** [for (int l = 0; l < n; l++) body(l)], the counter starting at [l]. *)
Fixpoint for_loop (count : nat) (l : Z) (body : Z -> M unit) : M unit :=
  match count with
  | O => ret tt
  | S count' => body l ;; for_loop count' (l + 1) body
  end.

(** [for (int i = 0; i < n; ++i) h[i] = w], the index starting at [i]. *)
Fixpoint store_loop (count : nat) (i : nat) (w : float) (h : list float)
    : list float :=
  match count with
  | O => h
  | S count' => store_loop count' (S i) w (<[i:=w]> h)
  end.

(** Lines 120-125: the spot count is capped at [BLOCK_SIZE]; otherwise a
    count below 3 selects method 0.  Returns the new values of the locals
    [N_spots] and [method]. *)
Definition clamp_spots (N_spots method : Z) : Z * Z :=
  if N_spots >? BLOCK_SIZE then (BLOCK_SIZE, method)
  else if N_spots <? 3 then (N_spots, 0)
  else (N_spots, method).

(** Lines 127-131: the spot coordinates and intensities go to the device. *)
Definition upload_spots (x_spots y_spots z_spots I_spots : list float)
    (N_spots : Z) : M unit :=
  set_int memsize_spotsf (to_int (size_mul N_spots sizeof_float)) ;;
  sz <- get (fun st => to_size_t (ints st memsize_spotsf)) ;;
  upload_f d_x (Some x_spots) sz ;;
  upload_f d_y (Some y_spots) sz ;;
  upload_f d_z (Some z_spots) sz ;;
  upload_f d_I (Some I_spots) sz ;;
  ret tt.

(** Case 0: lenses and prisms, then the achieved amplitudes. *)
Definition LensesAndPrisms_method (h_pSLM_uc : list Z) (h_weights : list float)
    (N_spots : Z) : M (list Z * list float) :=
  launch_LensesAndPrisms N_spots ;;
  a <- (fun st =>
          launch_checkAmplitudes (fptrs st d_x) (fptrs st d_y) (fptrs st d_z)
            (ucptrs st d_pSLM_uc) (fptrs st d_amps) 0 N_spots
            (ints st N_pixels) (ints st data_w) st) ;;
  set_fptr d_amps a ;;
  szuc <- get (fun st => to_size_t (ints st memsize_SLMuc)) ;;
  h_pSLM_uc' <- download_uc h_pSLM_uc d_pSLM_uc szuc ;;
  h_weights' <- download_f h_weights d_amps (size_mul N_spots sizeof_float) ;;
  ret (h_pSLM_uc', h_weights').

(** Case 1, lines 150-151: the working weights and the reference phase. *)
Definition Fresnel_seed : M unit :=
  szs <- get (fun st => to_size_t (ints st memsize_spotsf)) ;;
  copy_f d_weights d_weights_start szs ;;
  szf <- get (fun st => to_size_t (ints st memsize_SLMf)) ;;
  copy_f d_pSLMstart_f d_pSLM_f szf.

Definition Fresnel_iteration (N_spots N_iterations : Z) (alpha_RPC : float)
    (l : Z) : M unit :=
  launch_PropagateToSpotPositions_Fresnel N_spots ;;
  launch_PropagateToSLM_Fresnel N_spots l alpha_RPC (l =? N_iterations - 1).

(** Lines 154-172: the iterations and the read-back. *)
Definition Fresnel_run (h_pSLM_uc : list Z) (h_weights : list float)
    (N_spots N_iterations : Z) (alpha_RPC : float) : M (list Z * list float) :=
  for_loop (Z.to_nat N_iterations) 0
    (Fresnel_iteration N_spots N_iterations alpha_RPC) ;;
  szuc <- get (fun st => to_size_t (ints st memsize_SLMuc)) ;;
  h_pSLM_uc' <- download_uc h_pSLM_uc d_pSLM_uc szuc ;;
  h_weights' <- download_f h_weights d_amps
                  (size_mul (to_int (N_spots * N_iterations)) sizeof_float) ;;
  ret (h_pSLM_uc', h_weights').

Definition Fresnel_method (h_pSLM_uc : list Z) (h_weights : list float)
    (N_spots N_iterations : Z) (alpha_RPC : float) : M (list Z * list float) :=
  Fresnel_seed ;;
  Fresnel_run h_pSLM_uc h_weights N_spots N_iterations alpha_RPC.

(** Case 2, lines 183-195: uniform weights, cleared target field, spot
    indices.  Returns [amp_desired] and the caller's array as overwritten. *)
Definition Fourier_seed (h_weights : list float) (N_spots : Z)
    : M (float * list float) :=
  np <- get (fun st => ints st N_pixels) ;;
  let amp_desired :=
    fmul (float_of_int np)
         (fsqrt (fdiv (float_of_int 1) (float_of_int N_spots))) in
  let weight := fdiv (float_of_int 1) (float_of_int N_spots) in
  let h_weights' := store_loop (Z.to_nat N_spots) 0 weight h_weights in
  upload_f d_weights (Some h_weights') (size_mul N_spots sizeof_float) ;;
  szcc <- get (fun st => to_size_t (ints st memsize_SLMcc)) ;;
  d <- get (fun st => ccptrs st d_FFTd_cc) ;;
  d' <- cudaMemset0 sizeof_cufftComplex (float_of_int 0, float_of_int 0) d szcc ;;
  set_ccptr d_FFTd_cc d' ;;
  launch_XYtoIndex N_spots ;;
  ret (amp_desired, h_weights').

Definition Fourier_iteration (N_spots : Z) (amp_desired alpha_RPC : float)
    (l : Z) : M unit :=
  exec_fft d_SLM_cc d_FFTo_cc true ;;
  launch_ReplaceAmpsSpots_FFT N_spots l amp_desired ;;
  exec_fft d_FFTd_cc d_SLM_cc false ;;
  launch_ReplaceAmpsSLM_FFT alpha_RPC.

(** Lines 196-218. *)
Definition Fourier_run (h_pSLM_uc : list Z) (h_weights : list float)
    (N_spots N_iterations : Z) (amp_desired alpha_RPC : float)
    : M (list Z * list float) :=
  for_loop (Z.to_nat N_iterations) 0
    (Fourier_iteration N_spots amp_desired alpha_RPC) ;;
  launch_getPhases ;;
  h_weights' <- download_f h_weights d_amps
                  (size_mul (to_int (N_spots * N_iterations)) sizeof_float) ;;
  szuc <- get (fun st => to_size_t (ints st memsize_SLMuc)) ;;
  h_pSLM_uc' <- download_uc h_pSLM_uc d_pSLM_uc szuc ;;
  ret (h_pSLM_uc', h_weights').

Definition Fourier_method (h_pSLM_uc : list Z) (h_weights : list float)
    (N_spots N_iterations : Z) (alpha_RPC : float) : M (list Z * list float) :=
  s <- Fourier_seed h_weights N_spots ;;
  Fourier_run h_pSLM_uc (snd s) N_spots N_iterations (fst s) alpha_RPC.

(** The result of a call: the returned status and the two host arrays the
    function writes to.  The parameter [h_test] is never used and is left
    out. *)
Record hologram : Type := {
  holo_status : Z;
  holo_pSLM_uc : list Z;
  holo_weights : list float
}.

(** Lines 223-238: the frame goes to the modulator when it is enabled, and
    the pending error is reported. *)
Definition finish_hologram (out : list Z * list float) : M hologram :=
  slm <- get EnableSLM_b ;;
  when slm (log (EvLoadImg (fst out))) ;;
  e <- handle_errors "GenerateHologram" ;;
  ret {| holo_status := e; holo_pSLM_uc := fst out; holo_weights := snd out |}.

Definition GenerateHologram (h_pSLM_uc : list Z)
    (x_spots y_spots z_spots I_spots : list float) (N_spots N_iterations : Z)
    (h_weights : list float) (alpha : float) (method : Z) : M hologram :=
  let alpha_RPC := fmul (fmul alpha (float_of_int 2)) M_PI in
  let N_spots' := fst (clamp_spots N_spots method) in
  let method' := snd (clamp_spots N_spots method) in
  upload_spots x_spots y_spots z_spots I_spots N_spots' ;;
  out <- (if method' =? 0 then
            LensesAndPrisms_method h_pSLM_uc h_weights N_spots'
          else if method' =? 1 then
            Fresnel_method h_pSLM_uc h_weights N_spots' N_iterations alpha_RPC
          else if method' =? 2 then
            Fourier_method h_pSLM_uc h_weights N_spots' N_iterations alpha_RPC
          else ret (h_pSLM_uc, h_weights)) ;;
  finish_hologram out.

(** ** [Corrections] *)

Definition Ncoeff : list Z := [20; 35; 56; 84; 120].

(** Lines 250-257: the flags, and the coefficient count of the order. *)
Definition Corrections_flags (UseAberrationCorr ApplyLUT UseLUTPol PolOrder : Z)
    : M unit :=
  modify (set_UseAberrationCorr_b (bool_of_int UseAberrationCorr)) ;;
  modify (set_ApplyLUT_b (bool_of_int ApplyLUT)) ;;
  modify (set_UseLUTPol_b (bool_of_int UseLUTPol)) ;;
  if (3 <=? PolOrder) && (PolOrder <=? 7)
  then set_int N_LUTPolCoeff (nth (Z.to_nat (PolOrder - 3)) Ncoeff 0)
  else modify (set_UseLUTPol_b false).

(** Lines 259-269: the aberration map. *)
Definition Corrections_aberration (h_AberrationCorr : option (list float))
    : M unit :=
  use <- get UseAberrationCorr_b ;;
  p <- get (fun st => fptrs st d_AberrationCorr_f) ;;
  if use then
    sz <- get (fun st => to_size_t (ints st memsize_SLMf)) ;;
    when (is_null p) (malloc_f d_AberrationCorr_f sz) ;;
    e <- upload_f d_AberrationCorr_f h_AberrationCorr sz ;;
    modify (set_UseAberrationCorr_b (e =? 0))
  else
    when (negb (is_null p))
      (free_f d_AberrationCorr_f ;; set_fptr d_AberrationCorr_f NullPtr).

(** Lines 270-280: the polynomial coefficient table. *)
Definition Corrections_polynomial (h_LUTPolCoeff : option (list float))
    : M unit :=
  use <- get UseLUTPol_b ;;
  p <- get (fun st => fptrs st d_LUTPolCoeff_f) ;;
  if use then
    when (is_null p) (malloc_f d_LUTPolCoeff_f (size_mul 120 sizeof_float)) ;;
    n <- get (fun st => ints st N_LUTPolCoeff) ;;
    e <- upload_f d_LUTPolCoeff_f h_LUTPolCoeff (size_mul n sizeof_float) ;;
    modify (set_UseLUTPol_b (e =? 0))
  else
    when (negb (is_null p))
      (free_f d_LUTPolCoeff_f ;; set_fptr d_LUTPolCoeff_f NullPtr).

Definition Corrections (UseAberrationCorr : Z)
    (h_AberrationCorr : option (list float)) (ApplyLUT UseLUTPol PolOrder : Z)
    (h_LUTPolCoeff : option (list float)) : M Z :=
  Corrections_flags UseAberrationCorr ApplyLUT UseLUTPol PolOrder ;;
  Corrections_aberration h_AberrationCorr ;;
  Corrections_polynomial h_LUTPolCoeff ;;
  handle_errors "Corrections".

(** ** [startCUDAandSLM] and [stopCUDAandSLM] *)

Definition MaxIterations : Z := 1000.
Definition MaxSpots : Z := BLOCK_SIZE.

(** The device properties and the modulator driver are outside the program:
    [maxThreadsPerBlock] is what the device reports, [InitalizeSLM_result]
    and [LUT] what the driver returns and stores in the 256-byte table.
    Selecting the device is taken to succeed, and the parameters [test],
    [LUTFile], [TrueFrames] only travel to the driver. *)
Definition startCUDAandSLM (EnableSLM : Z) (maxThreadsPerBlock : Z)
    (InitalizeSLM_result : Z) (LUT : list Z) : M Z :=
  set_int maxThreads_device maxThreadsPerBlock ;;
  set_int data_w SLM_SIZE ;;
  set_int N_pixels (to_int (SLM_SIZE * SLM_SIZE)) ;;
  set_int N_iterations_last 10 ;;
  set_int memsize_spotsf (to_int (size_mul BLOCK_SIZE sizeof_float)) ;;
  np <- get (fun st => ints st N_pixels) ;;
  set_int memsize_SLMf (to_int (size_mul np sizeof_float)) ;;
  set_int memsize_SLMuc (to_int (size_mul np sizeof_uchar)) ;;
  set_int memsize_SLMcc (to_int (size_mul np sizeof_cufftComplex)) ;;
  set_int n_blocks_Phi
    (to_int (Z.quot np BLOCK_SIZE + (if Z.rem np BLOCK_SIZE =? 0 then 0 else 1))) ;;
  let h_weights :=
    store_loop (Z.to_nat BLOCK_SIZE) 0 (float_of_int 1)
               (replicate (Z.to_nat 10000) indeterminate) in
  spotsf <- get (fun st => to_size_t (ints st memsize_spotsf)) ;;
  SLMf <- get (fun st => to_size_t (ints st memsize_SLMf)) ;;
  SLMuc <- get (fun st => to_size_t (ints st memsize_SLMuc)) ;;
  SLMcc <- get (fun st => to_size_t (ints st memsize_SLMcc)) ;;
  malloc_f d_x spotsf ;;
  malloc_f d_y spotsf ;;
  malloc_f d_z spotsf ;;
  malloc_f d_I spotsf ;;
  malloc_f d_weights (size_mul (to_int (BLOCK_SIZE * (MaxIterations + 1))) sizeof_float) ;;
  malloc_f d_amps (size_mul (to_int (BLOCK_SIZE * MaxIterations)) sizeof_float) ;;
  malloc_f d_spotRe_f spotsf ;;
  malloc_f d_spotIm_f spotsf ;;
  malloc_f d_pSLM_f SLMf ;;
  malloc_f d_pSLMstart_f SLMf ;;
  malloc_uc d_pSLM_uc SLMuc ;;
  p <- get (fun st => fptrs st d_pSLM_f) ;;
  p' <- cudaMemset0 sizeof_float (float_of_int 0) p (size_mul np sizeof_float) ;;
  set_fptr d_pSLM_f p' ;;
  malloc_spot_index (size_mul BLOCK_SIZE sizeof_int) ;;
  malloc_cc d_FFTd_cc SLMcc ;;
  malloc_cc d_FFTo_cc SLMcc ;;
  malloc_cc d_SLM_cc SLMcc ;;
  dw <- get (fun st => ints st data_w) ;;
  log (EvPlan2d dw dw) ;;
  modify (set_plan (Some (dw, dw))) ;;
  malloc_f d_weights_start (size_mul MaxSpots sizeof_float) ;;
  upload_f d_weights_start (Some h_weights) (size_mul MaxSpots sizeof_float) ;;
  modify (set_EnableSLM_b (bool_of_int EnableSLM)) ;;
  slm <- get EnableSLM_b ;;
  (if slm then
     log EvInitalizeSLM ;;
     modify (set_ApplyLUT_b (bool_of_int InitalizeSLM_result)) ;;
     malloc_uc d_LUT_uc 256 ;;
     upload_uc d_LUT_uc (Some LUT) 256 ;;
     log (EvSetPower true)
   else
     modify (set_ApplyLUT_b false)) ;;
  handle_errors "startCUDAandSLM".

(** [cudaDeviceReset]: every allocation of the process is destroyed. *)
Definition cudaDeviceReset : M unit :=
  log EvDeviceReset ;;
  modify (fun st =>
    set_fptrs (fun p => invalidate (fptrs st p))
      (set_ucptrs (fun p => invalidate (ucptrs st p))
         (set_ccptrs (fun p => invalidate (ccptrs st p))
            (set_d_spot_index (invalidate (d_spot_index st))
               (set_plan None
                  (set_mem_avail (mem_total st) st)))))).

(** Lines 377-391: the buffers released one by one, and the FFT plan. *)
Definition release_buffers : M unit :=
  free_f d_x ;;
  free_f d_y ;;
  free_f d_z ;;
  free_f d_I ;;
  free_f d_weights ;;
  free_f d_amps ;;
  free_f d_pSLM_f ;;
  free_f d_pSLMstart_f ;;
  free_uc d_pSLM_uc ;;
  free_cc d_FFTd_cc ;;
  free_cc d_FFTo_cc ;;
  free_cc d_SLM_cc ;;
  log EvPlanDestroy ;;
  modify (set_plan None).

(** Lines 393-409: the correction tables whose flag is on. *)
Definition release_LUT : M unit :=
  lut <- get ApplyLUT_b ;;
  when lut (free_uc d_LUT_uc ;; set_ucptr d_LUT_uc NullPtr).

Definition release_aberration : M unit :=
  ab <- get UseAberrationCorr_b ;;
  when ab (free_f d_AberrationCorr_f ;; set_fptr d_AberrationCorr_f NullPtr).

Definition release_polynomial : M unit :=
  pol <- get UseLUTPol_b ;;
  when pol (free_f d_LUTPolCoeff_f ;; set_fptr d_LUTPolCoeff_f NullPtr).

Definition release_corrections : M unit :=
  release_LUT ;; release_aberration ;; release_polynomial.

Definition stopCUDAandSLM : M Z :=
  release_buffers ;;
  release_corrections ;;
  e <- handle_errors "stopCUDAandSLM" ;;
  cudaDeviceReset ;;
  slm <- get EnableSLM_b ;;
  when slm (log EvShutDownSLM) ;;
  ret e.

(** ** [GetAmps] *)

(** Lines 448-457.  [fuel] bounds the number of passes of the [while] loop;
    [None] means it was too small. *)
Fixpoint GetAmps_loop (fuel : nat) (N_spots_rem offset N_pixels' data_w' : Z)
    (d_xall d_yall d_zall d_amps_all : devptr float)
    : M (option (devptr float)) :=
  if N_spots_rem >? 0 then
    match fuel with
    | O => ret None
    | S fuel' =>
        let N_spots := if N_spots_rem >? 512 then 512 else N_spots_rem in
        set_int memsize_spotsf (to_int (size_mul N_spots sizeof_float)) ;;
        pat <- get (fun st => ucptrs st d_pSLM_uc) ;;
        a <- launch_checkAmplitudes d_xall d_yall d_zall pat d_amps_all
               (Z.to_nat offset) N_spots N_pixels' data_w' ;;
        GetAmps_loop fuel' (to_int (N_spots_rem - 512)) (to_int (offset + 512))
          N_pixels' data_w' d_xall d_yall d_zall a
    end
  else ret (Some d_amps_all).

(** The parameter [h_pSLM_uc] is declared [float *], but [memsize_SLMuc]
    bytes are copied from it into the byte pattern on the device: the model
    takes the bytes it points to.  The parameter [data_w] hides the global of
    the same name, and so does the local [N_pixels]. *)
Definition GetAmps (x_spots y_spots z_spots : list float) (h_pSLM_uc : list Z)
    (N_spots_all : Z) (data_w' : Z) (h_amps : list float)
    : M (option (Z * list float)) :=
  let sz := size_mul N_spots_all sizeof_float in
  d_xall <- cudaMalloc (PLocal "d_xall") sizeof_float indeterminate Stale sz ;;
  d_yall <- cudaMalloc (PLocal "d_yall") sizeof_float indeterminate Stale sz ;;
  d_zall <- cudaMalloc (PLocal "d_zall") sizeof_float indeterminate Stale sz ;;
  d_amps_all <- cudaMalloc (PLocal "d_amps_all") sizeof_float indeterminate Stale sz ;;
  rx <- cudaMemcpy_H2D sizeof_float d_xall (Some x_spots) sz ;;
  ry <- cudaMemcpy_H2D sizeof_float d_yall (Some y_spots) sz ;;
  rz <- cudaMemcpy_H2D sizeof_float d_zall (Some z_spots) sz ;;
  let N_pixels' := to_int (data_w' * data_w') in
  szuc <- get (fun st => to_size_t (ints st memsize_SLMuc)) ;;
  upload_uc d_pSLM_uc (Some h_pSLM_uc) szuc ;;
  r <- GetAmps_loop (Z.to_nat N_spots_all) N_spots_all 0 N_pixels' data_w'
         (snd rx) (snd ry) (snd rz) d_amps_all ;;
  match r with
  | None => ret None
  | Some d_amps_all' =>
      h <- cudaMemcpy_D2H sizeof_float h_amps d_amps_all' sz ;;
      cudaFree (PLocal "d_xall") sizeof_float (snd rx) ;;
      cudaFree (PLocal "d_yall") sizeof_float (snd ry) ;;
      cudaFree (PLocal "d_zall") sizeof_float (snd rz) ;;
      cudaFree (PLocal "d_amps_all") sizeof_float d_amps_all' ;;
      e <- handle_errors "GetAmps" ;;
      ret (Some (e, snd h))
  end.

End Engine.

Notation "x <- m ;; k" := (bind m (fun x => k))
  (at level 100, m at next level, k at level 200, right associativity).
Notation "m ;; k" := (bind m (fun _ => k))
  (at level 100, k at level 200, right associativity).

(** ** A small executable instance

    Used to run the model on concrete inputs: numbers are fixed-point with
    three decimals, the header gives a capacity of 4 spots on a 2 x 2 grid,
    and the kernels are simple arithmetic on their arguments. *)
Module Sample.

Definition milli : FloatOps := {|
  float := Z;
  float_of_int := fun z => z * 1000;
  fmul := fun a b => Z.quot (a * b) 1000;
  fdiv := fun a b => Z.quot (a * 1000) b;
  fsqrt := fun a => Z.sqrt (a * 1000);
  M_PI := 3142;
  indeterminate := -1;
  indeterminate_int := -1
|}.

Definition header : Header := {| BLOCK_SIZE := 4; SLM_SIZE := 2 |}.

Definition sum (l : list Z) : Z := fold_right Z.add 0 l.

Definition LensesAndPrisms_sample (gx gy gz gI : list Z) (gp : list Z) (N : Z)
    (lut : option (list Z)) (use_lut : bool) (w : Z) (use_ab : bool)
    (ab : option (list Z)) (use_pol : bool) (pol : option (list Z)) (n : Z)
    : list Z :=
  map (fun _ => (sum (take (Z.to_nat N) gx) + sum (take (Z.to_nat N) gI)) mod 256) gp.

Definition checkAmplitudes_block_sample (xs ys zs : list Z) (pat : list Z)
    (N np w : Z) (b : nat) : Z :=
  nth b xs 0 + 2 * nth b ys 0 + 3 * nth b zs 0 + sum pat.

Definition PropagateToSpotPositions_Fresnel_sample (gx gy gz gp gre gim : list Z)
    (N np w : Z) : list Z * list Z :=
  (map (Z.add (sum gp)) gre, map (Z.add (sum gx)) gim).

Definition PropagateToSLM_Fresnel_sample (gx gy gz gI gre gim gp : list Z)
    (np N : Z) (gw : list Z) (l : Z) (gs : list Z) (rpc : Z) (ga : list Z)
    (last : bool) (guc : list Z) (lut : option (list Z)) (use_lut use_ab : bool)
    (ab : option (list Z)) (use_pol : bool) (pol : option (list Z)) (n : Z)
    : list Z * list Z * list Z * list Z * list Z :=
  (map (Z.add 1) gp, <[0%nat := sum (take (Z.to_nat N) gre)]> gw, gs,
   <[Z.to_nat (l * N) := l]> ga,
   if last then map (fun v => v mod 256) (take (length guc) gp) else guc).

Definition XYtoIndex_sample (gx gy : list Z) (gi : list Z) (N w : Z) : list Z :=
  take (Z.to_nat N) (map (fun v => v mod (w * w)) gx) ++ drop (Z.to_nat N) gi.

Definition cufftExecC2C_sample (nx ny : Z) (i o : list (Z * Z)) (forward : bool)
    : list (Z * Z) :=
  if forward then i else map (fun c => (snd c, fst c)) i.

Definition ReplaceAmpsSpots_FFT_sample (go gd : list (Z * Z)) (gi : list Z)
    (N l : Z) (ga gw : list Z) (amp : Z) : list (Z * Z) * list Z * list Z :=
  (gd, <[Z.to_nat (l * N) := amp]> ga, <[0%nat := amp]> gw).

Definition ReplaceAmpsSLM_FFT_sample (gl : option (list Z)) (gc : list (Z * Z))
    (gs : list Z) (np rpc : Z) : list (Z * Z) * list Z :=
  (gc, gs).

Definition getPhases_sample (guc : list Z) (gs : list Z) (gc : list (Z * Z))
    (coeff : option (list Z)) (lut_on w : Z) : list Z * list Z :=
  (map (fun c => fst c mod 256) (take (length guc) gc), gs).

Definition kernels : @Kernels milli :=
  @Build_Kernels milli
    LensesAndPrisms_sample
    checkAmplitudes_block_sample
    PropagateToSpotPositions_Fresnel_sample
    PropagateToSLM_Fresnel_sample
    XYtoIndex_sample
    cufftExecC2C_sample
    ReplaceAmpsSpots_FFT_sample
    ReplaceAmpsSLM_FFT_sample
    getPhases_sample.

#[local] Existing Instance milli.
#[local] Existing Instance header.
#[local] Existing Instance kernels.

(** A running session: start-up on a device with memory to spare, without
    the modulator. *)
Definition session : globals :=
  snd (startCUDAandSLM 0 1024 0 [] (initial_globals 1000000)).

(** The same with the modulator enabled, on hardware that applies the table
    itself ([InitalizeSLM] returns 0). *)
Definition session_slm : globals :=
  snd (startCUDAandSLM 1 1024 0 (replicate 256 7) (initial_globals 1000000)).

End Sample.

(** ** What the specification says of the polynomial order

    The coefficient table of the specification: orders 3 to 7 have 20, 35,
    56, 84 and 120 coefficients; no other order is accepted. *)
Definition polynomial_coefficients (order : Z) : option Z :=
  if order =? 3 then Some 20
  else if order =? 4 then Some 35
  else if order =? 5 then Some 56
  else if order =? 6 then Some 84
  else if order =? 7 then Some 120
  else None.

(** ** Reading the log *)

(** What a call added to the log. *)
Definition new_events {A : Type} (before after : list A) : list A :=
  drop (length before) after.

(** The allocations and releases of one pointer variable. *)
Definition about (p : pname) (e : event) : bool :=
  match e with
  | EvMalloc q _ => bool_decide (q = p)
  | EvFree q => bool_decide (q = p)
  | _ => false
  end.

(** The launches of one kernel. *)
Definition launches_of (k : kernel) (e : event) : bool :=
  match e with
  | EvLaunch k' _ _ => bool_decide (k' = k)
  | _ => false
  end.

(** How many launches of kernel [k] a piece of the log holds. *)
Definition count (k : kernel) (evs : list event) : nat :=
  length (List.filter (launches_of k) evs).

Definition one_if (k k' : kernel) : nat :=
  if bool_decide (k' = k) then 1%nat else 0%nat.

(** The launches of a whole call, by the method that runs. *)
Definition launches_of_method (method N_iterations : Z) (k : kernel) : nat :=
  if method =? 0 then
    one_if k K_LensesAndPrisms + one_if k K_checkAmplitudes
  else if method =? 1 then
    Z.to_nat N_iterations *
    (one_if k K_PropagateToSpotPositions_Fresnel +
     one_if k K_PropagateToSLM_Fresnel)
  else if method =? 2 then
    one_if k K_XYtoIndex +
    Z.to_nat N_iterations *
    (one_if k K_ReplaceAmpsSpots_FFT + one_if k K_ReplaceAmpsSLM_FFT) +
    one_if k K_getPhases
  else 0.

(** [emits m k n]: running [m] appends to the log, and what it appends holds
    [n] launches of kernel [k]. *)
Definition emits `{FloatOps} {A : Type} (m : M A) (k : kernel) (n : nat) : Prop :=
  forall st, exists evs,
    trace (snd (m st)) = trace st ++ evs /\ count k evs = n.

(** ** Frames *)

(** [preserves m proj]: running [m] leaves the observation [proj] of the
    state as it was. *)
Definition preserves `{FloatOps} {A B : Type} (m : M A) (proj : globals -> B)
    : Prop :=
  forall st, proj (snd (m st)) = proj st.

(** An observation that does not look at the runtime's own bookkeeping. *)
Definition host_view `{FloatOps} {B : Type} (proj : globals -> B) : Prop :=
  (forall v st, proj (set_trace v st) = proj st) /\
  (forall v st, proj (set_mem_avail v st) = proj st) /\
  (forall v st, proj (set_last_error v st) = proj st).

(** ** What the specification says of the amplitude query

    Following the specification's words: the points are taken in batches of
    at most 512, one after the other, and the results of the batches are
    put one behind the other.  [fuel] bounds the number of batches. *)
Fixpoint amplitudes_in_batches `{Kernels} (fuel : nat) (xs ys zs : list float)
    (pattern : list Z) (N_pixels' data_w' : Z) : list float :=
  match fuel with
  | O => []
  | S fuel' =>
      match xs with
      | [] => []
      | _ :: _ =>
          evaluateAmplitudes (take 512 xs) (take 512 ys) (take 512 zs) pattern
            (Z.of_nat (length (take 512 xs))) N_pixels' data_w' ++
          amplitudes_in_batches fuel' (drop 512 xs) (drop 512 ys) (drop 512 zs)
            pattern N_pixels' data_w'
      end
  end.

(** The launches that go with it: one grid per batch, of the size of the
    batch. *)
Fixpoint batch_launches (fuel : nat) (remaining : nat) : list event :=
  match fuel with
  | O => []
  | S fuel' =>
      match remaining with
      | O => []
      | S _ =>
          EvLaunch K_checkAmplitudes (Z.of_nat (Nat.min 512 remaining)) 512 ::
          batch_launches fuel' (remaining - 512)
      end
  end.

(** * Definitions for the properties of the whole session *)

(** ** Relations between the state before and after a piece of host code *)

(** [steps m R]: whatever state [m] starts from, the state it ends in is
    related to it by [R]. *)
Definition steps `{FloatOps} {A : Type} (m : M A) (R : relation globals) : Prop :=
  forall st, R st (snd (m st)).

(** The observation [proj] is the same after as before. *)
Definition same `{FloatOps} {B : Type} (proj : globals -> B) : relation globals :=
  fun st st' => proj st' = proj st.

(** A pending runtime error is still pending. *)
Definition keeps_error `{FloatOps} : relation globals :=
  fun st st' => last_error st <> 0 -> last_error st' <> 0.

(** The log only grows, and by events that [allowed] accepts. *)
Definition logs_only `{FloatOps} (allowed : event -> bool) : relation globals :=
  fun st st' =>
    exists evs, trace st' = trace st ++ evs /\ forallb allowed evs = true.

(** ** The memory a session takes *)

(** The bytes [startCUDAandSLM] asks the device for: the sizes of its
    allocations added up ([BLOCK_SIZE] floats six times over, the weights
    and amplitudes of all iterations, the index and start weights; two float
    fields, one byte field and three complex fields of [SLM_SIZE] squared
    pixels), and the 256-byte table when the modulator is enabled. *)
Definition startup_bytes `{Header} (slm : bool) : Z :=
  8036 * BLOCK_SIZE + 33 * (SLM_SIZE * SLM_SIZE) + (if slm then 256 else 0).

(** Calls into the driver of the modulator. *)
Definition driver_call (e : event) : bool :=
  match e with
  | EvInitalizeSLM | EvSetPower _ | EvLoadImg _ | EvShutDownSLM => true
  | _ => false
  end.

(** [spends b]: the code either leaves a runtime error pending, or it leaves
    the error state alone and takes [b] bytes of device memory, without
    overdrawing it. *)
Definition spends `{FloatOps} (b : Z) : relation globals :=
  fun st st' =>
    last_error st' <> 0 \/
    (last_error st' = last_error st /\
     mem_avail st' = mem_avail st - b /\
     (0 <= mem_avail st -> 0 <= mem_avail st')).

(** [fails_below m b]: started with an error pending, or with less than [b]
    bytes of device memory, [m] returns a status that is not [cudaSuccess]. *)
Definition fails_below `{FloatOps} (m : M Z) (b : Z) : Prop :=
  forall st,
    last_error st <> 0 \/ 0 <= mem_avail st < b -> fst (m st) <> 0.

(** ** What [cudaFree] does to a pointer *)

(** The pointer variable after [cudaFree]: NULL stays NULL, any other
    address is no longer allocated. *)
Definition released {A : Type} (p : devptr A) : devptr A :=
  match p with NullPtr => NullPtr | _ => Stale end.

(** The last error after [cudaFree(p)], [e] being the last error before. *)
Definition release_error {A : Type} (p : devptr A) (e : Z) : Z :=
  match p with Stale => cudaErrorInvalidDevicePointer | _ => e end.

(** The bytes [cudaFree(p)] gives back. *)
Definition released_bytes {A : Type} (esz : Z) (p : devptr A) : Z :=
  match p with Live l => esz * Z.of_nat (length l) | _ => 0 end.


(** ** What a hologram computation may log *)

(** Kernel launches, transforms, the frame for the modulator and the message
    box: the events that are neither an allocation nor a release nor part of
    starting or stopping a session. *)
Definition hologram_event (e : event) : bool :=
  match e with
  | EvLaunch _ _ _ | EvFFT _ | EvLoadImg _ | EvMessageBox _ => true
  | _ => false
  end.

(** Work on the device: a kernel launch or a transform. *)
Definition device_work (e : event) : bool :=
  match e with
  | EvLaunch _ _ _ | EvFFT _ => true
  | _ => false
  end.

(** ** The memory of the correction tables *)

(** The bytes of device memory the aberration map and the polynomial table
    hold. *)
Definition table_bytes `{FloatOps} (st : globals) : Z :=
  released_bytes sizeof_float (fptrs st d_AberrationCorr_f) +
  released_bytes sizeof_float (fptrs st d_LUTPolCoeff_f).

(** [conserves_at p]: the free memory and the bytes behind the pointer [p]
    add up to what they were, no other float pointer has changed, and the
    integer variables are the same except for the coefficient count. *)
Definition conserves_at `{FloatOps} (p : fptr) : relation globals :=
  fun st st' =>
    mem_avail st' + released_bytes sizeof_float (fptrs st' p) =
      mem_avail st + released_bytes sizeof_float (fptrs st p) /\
    (forall q, q <> p -> fptrs st' q = fptrs st q) /\
    (forall x, x <> N_LUTPolCoeff -> ints st' x = ints st x).

(** ** What an amplitude query leaves alone *)

(** The part of the session [GetAmps] has no business with: every global
    buffer but the byte pattern, the FFT plan, the flags and the capacity of
    the device. *)
Definition session_of_query `{FloatOps} (st : globals) :=
  (fptrs st, ccptrs st, d_spot_index st, ucptrs st d_LUT_uc, plan st,
   (ApplyLUT_b st, EnableSLM_b st, UseAberrationCorr_b st, UseLUTPol_b st),
   mem_total st).

(** What [GetAmps] may log: allocation and release of its own four arrays,
    launches of [checkAmplitudes], and the message box. *)
Definition query_event (e : event) : bool :=
  match e with
  | EvMalloc (PLocal _) _ | EvFree (PLocal _)
  | EvLaunch K_checkAmplitudes _ _ | EvMessageBox _ => true
  | _ => false
  end.

(** Anything but work on the device. *)
Definition quiet_event (e : event) : bool := negb (device_work e).

(** ** The kernel [testfunc]

    Lines 240-244.  [blockIdx.x * blockDim.x + threadIdx.x] is computed in
    [unsigned int] and stored in the [int] [idx]; the thread then stores
    [idx], converted to [float], in [testdata[idx]].  A store outside the
    array is a fault of the launch ([None]). *)
Definition to_uint (z : Z) : Z := z mod 2 ^ 32.

Definition testfunc `{FloatOps} (blockDim blockIdx threadIdx : Z)
    (testdata : list float) : option (list float) :=
  let idx := to_int (to_uint (to_uint (blockIdx * blockDim) + threadIdx)) in
  if (0 <=? idx) && (idx <? Z.of_nat (length testdata))
  then Some (<[Z.to_nat idx := float_of_int idx]> testdata)
  else None.

(** The threads of a launch [<<<gridDim, blockDim>>>], as pairs of
    [blockIdx.x] and [threadIdx.x]. *)
Definition grid_threads (gridDim blockDim : nat) : list (Z * Z) :=
  flat_map (fun b => map (fun t => (Z.of_nat b, Z.of_nat t)) (seq 0 blockDim))
           (seq 0 gridDim).

(** The threads run one after the other, in the order of [schedule]. *)
Fixpoint run_testfunc `{FloatOps} (blockDim : Z) (schedule : list (Z * Z))
    (testdata : list float) : option (list float) :=
  match schedule with
  | [] => Some testdata
  | (b, t) :: rest =>
      match testfunc blockDim b t testdata with
      | Some testdata' => run_testfunc blockDim rest testdata'
      | None => None
      end
  end.

(** A thread whose index is inside an array of [bound] entries. *)
Definition thread_ok (b : Z) (bound : nat) (bt : Z * Z) : Prop :=
  0 <= fst bt /\ 0 <= snd bt /\ fst bt * b + snd bt < Z.of_nat bound.


(** * Properties *)

Arguments to_int : simpl never.
Arguments to_size_t : simpl never.
Arguments size_mul : simpl never.
Arguments elems : simpl never.
Arguments upd : simpl never.

Lemma upd_same {K V : Type} `{EqDecision K} (k : K) (v : V) (f : K -> V) :
  upd k v f k = v.
Proof. unfold upd. destruct (decide (k = k)); congruence. Qed.

Lemma upd_other {K V : Type} `{EqDecision K} (k k' : K) (v : V) (f : K -> V) :
  k' <> k -> upd k v f k' = f k'.
Proof. unfold upd. intros Hne. destruct (decide (k' = k)); congruence. Qed.

Lemma to_int_small (z : Z) : - 2 ^ 31 <= z < 2 ^ 31 -> to_int z = z.
Proof. intros Hz. unfold to_int. rewrite Z.mod_small; lia. Qed.

Lemma to_size_t_small (z : Z) : 0 <= z < 2 ^ 64 -> to_size_t z = z.
Proof. intros Hz. unfold to_size_t. apply Z.mod_small. exact Hz. Qed.

Lemma size_mul_small (n esz : Z) :
  0 <= n -> 0 <= esz -> n * esz < 2 ^ 64 -> 0 < esz -> size_mul n esz = n * esz.
Proof.
  intros Hn He Hlt Hpos. unfold size_mul.
  rewrite (to_size_t_small n) by nia.
  apply to_size_t_small. nia.
Qed.

Lemma to_size_t_nonzero (z : Z) : 0 < z < 2 ^ 64 -> (to_size_t z =? 0) = false.
Proof. intros Hz. rewrite to_size_t_small by lia. apply Z.eqb_neq. lia. Qed.

(** Reads of the variable families after assignments. *)
Ltac upd_simpl :=
  repeat first [ rewrite upd_same | rewrite upd_other by discriminate ].

(** Symbolic execution of straight-line host code: reduce, resolve the reads,
    and split on whatever the control flow inspects. *)
Ltac exec_step :=
  match goal with
  | |- context [match ?x with _ => _ end] => destruct x eqn:?
  end.
Ltac exec := cbn in *; upd_simpl; repeat (exec_step; cbn in *; upd_simpl).

Lemma count_app (k : kernel) (l1 l2 : list event) :
  count k (l1 ++ l2) = (count k l1 + count k l2)%nat.
Proof. unfold count. rewrite List.filter_app, length_app. reflexivity. Qed.

Section Properties.
Context `{FloatOps} `{Header} `{!Kernels}.

(** *** The correction call *)

Lemma handle_errors_frame (fn : string) (st : globals) :
  let st' := snd (handle_errors fn st) in
  fptrs st' = fptrs st /\ ints st' = ints st /\
  UseAberrationCorr_b st' = UseAberrationCorr_b st /\
  UseLUTPol_b st' = UseLUTPol_b st /\ ApplyLUT_b st' = ApplyLUT_b st /\
  fst (handle_errors fn st) = last_error st.
Proof.
  unfold handle_errors, cudaGetLastError, bind, get, modify, when, ret, log.
  cbn. destruct (negb (last_error st =? 0)); cbn; auto 10.
Qed.

Lemma Corrections_flags_pol (ua al ul order : Z) (st : globals) :
  let st' := snd (Corrections_flags ua al ul order st) in
  UseLUTPol_b st' = bool_of_int ul && ((3 <=? order) && (order <=? 7)) /\
  ints st' N_LUTPolCoeff =
    (if (3 <=? order) && (order <=? 7)
     then nth (Z.to_nat (order - 3)) Ncoeff 0 else ints st N_LUTPolCoeff).
Proof.
  unfold Corrections_flags, bind, modify, set_int, ret. cbn.
  destruct ((3 <=? order) && (order <=? 7)); cbn.
  - rewrite upd_same, andb_true_r. auto.
  - rewrite andb_false_r. auto.
Qed.

Lemma Corrections_aberration_frame (h : option (list float)) (st : globals) :
  let st' := snd (Corrections_aberration h st) in
  UseLUTPol_b st' = UseLUTPol_b st /\
  ints st' = ints st /\
  fptrs st' d_LUTPolCoeff_f = fptrs st d_LUTPolCoeff_f.
Proof.
  unfold Corrections_aberration, bind, get, modify, when, ret, malloc_f,
    free_f, upload_f, set_fptr, cudaMalloc, cudaFree, cudaMemcpy_H2D, raise,
    log, bind, get, modify, ret.
  exec; auto.
Qed.

Lemma Corrections_polynomial_frame (h : option (list float)) (st : globals) :
  let st' := snd (Corrections_polynomial h st) in
  ints st' = ints st /\
  UseAberrationCorr_b st' = UseAberrationCorr_b st /\
  fptrs st' d_AberrationCorr_f = fptrs st d_AberrationCorr_f /\
  (UseLUTPol_b st = false -> UseLUTPol_b st' = false).
Proof.
  unfold Corrections_polynomial, bind, get, modify, when, ret, malloc_f,
    free_f, upload_f, set_fptr, cudaMalloc, cudaFree, cudaMemcpy_H2D, raise,
    log, bind, get, modify, ret.
  exec; auto; repeat split; congruence.
Qed.

Lemma Corrections_flags_out_of_range (ua al ul order : Z) (st : globals) :
  (3 <=? order) && (order <=? 7) = false ->
  Corrections_flags ua al ul order st = Corrections_flags ua al 0 order st.
Proof.
  intros Hr. unfold Corrections_flags, bind, modify, ret. rewrite Hr.
  reflexivity.
Qed.

Lemma polynomial_coefficients_range (order : Z) :
  polynomial_coefficients order =
    if (3 <=? order) && (order <=? 7)
    then Some (nth (Z.to_nat (order - 3)) Ncoeff 0) else None.
Proof.
  unfold polynomial_coefficients.
  destruct (order =? 3) eqn:E3; [apply Z.eqb_eq in E3; subst; reflexivity|].
  destruct (order =? 4) eqn:E4; [apply Z.eqb_eq in E4; subst; reflexivity|].
  destruct (order =? 5) eqn:E5; [apply Z.eqb_eq in E5; subst; reflexivity|].
  destruct (order =? 6) eqn:E6; [apply Z.eqb_eq in E6; subst; reflexivity|].
  destruct (order =? 7) eqn:E7; [apply Z.eqb_eq in E7; subst; reflexivity|].
  apply Z.eqb_neq in E3, E4, E5, E6, E7.
  destruct ((3 <=? order) && (order <=? 7)) eqn:Hr; [|reflexivity].
  apply andb_true_iff in Hr. destruct Hr as [Hlo Hhi].
  apply Z.leb_le in Hlo, Hhi. lia.
Qed.

(** C6.  The coefficient count after [Corrections] is the one the table of
    the specification gives for an order from 3 to 7; for any other order the
    polynomial correction is off on return whatever the caller asked, the
    count is left as it was, and the call returns what the same call without
    the request returns (the rejected order raises no error of its own). *)
Theorem Corrections_polynomial_order (ua : Z) (ha : option (list float))
    (al ul order : Z) (hc : option (list float)) (st : globals) :
  let st' := snd (Corrections ua ha al ul order hc st) in
  match polynomial_coefficients order with
  | Some n => ints st' N_LUTPolCoeff = n
  | None =>
      UseLUTPol_b st' = false /\
      ints st' N_LUTPolCoeff = ints st N_LUTPolCoeff /\
      Corrections ua ha al ul order hc st = Corrections ua ha al 0 order hc st
  end.
Proof.
  intros st'.
  assert (Hints : ints st' N_LUTPolCoeff =
                  ints (snd (Corrections_flags ua al ul order st)) N_LUTPolCoeff).
  { subst st'. unfold Corrections, bind.
    destruct (handle_errors_frame "Corrections"
                (snd (Corrections_polynomial hc
                   (snd (Corrections_aberration ha
                      (snd (Corrections_flags ua al ul order st)))))))
      as (_ & -> & _).
    destruct (Corrections_polynomial_frame hc
                (snd (Corrections_aberration ha
                   (snd (Corrections_flags ua al ul order st)))))
      as (-> & _).
    destruct (Corrections_aberration_frame ha
                (snd (Corrections_flags ua al ul order st)))
      as (_ & -> & _).
    reflexivity. }
  destruct (Corrections_flags_pol ua al ul order st) as [Hflag Hcount].
  rewrite polynomial_coefficients_range.
  destruct ((3 <=? order) && (order <=? 7)) eqn:Hr.
  - rewrite Hints. exact Hcount.
  - split; [|split].
    + subst st'. unfold Corrections, bind.
      destruct (handle_errors_frame "Corrections"
                  (snd (Corrections_polynomial hc
                     (snd (Corrections_aberration ha
                        (snd (Corrections_flags ua al ul order st)))))))
        as (_ & _ & _ & -> & _).
      apply Corrections_polynomial_frame.
      destruct (Corrections_aberration_frame ha
                  (snd (Corrections_flags ua al ul order st)))
        as (-> & _).
      rewrite Hflag. apply andb_false_r.
    + rewrite Hints. exact Hcount.
    + unfold Corrections, bind.
      rewrite (Corrections_flags_out_of_range ua al ul order st Hr).
      reflexivity.
Qed.

Lemma Corrections_aberration_resident (h : option (list float)) (st : globals) :
  (to_size_t (ints st memsize_SLMf) =? 0) = false ->
  let st' := snd (Corrections_aberration h st) in
  UseAberrationCorr_b st' = true -> fptrs st' d_AberrationCorr_f <> NullPtr.
Proof.
  intros Hsz.
  unfold Corrections_aberration, bind, get, modify, when, ret, malloc_f,
    free_f, upload_f, set_fptr, cudaMalloc, cudaFree, cudaMemcpy_H2D, raise,
    log, bind, get, modify, ret.
  cbn. destruct (UseAberrationCorr_b st) eqn:Euse.
  - destruct (is_null (fptrs st d_AberrationCorr_f)) eqn:En.
    + exec; rewrite ?Hsz in *; try discriminate; try congruence.
    + cbn. rewrite Hsz.
      destruct (fptrs st d_AberrationCorr_f) eqn:Ep; try discriminate;
        exec; try discriminate; try congruence.
  - exec; try discriminate; try congruence.
Qed.

Lemma Corrections_polynomial_resident (h : option (list float)) (st : globals) :
  (UseLUTPol_b st = true ->
   (size_mul (ints st N_LUTPolCoeff) sizeof_float =? 0) = false) ->
  let st' := snd (Corrections_polynomial h st) in
  UseLUTPol_b st' = true -> fptrs st' d_LUTPolCoeff_f <> NullPtr.
Proof.
  intros Hsz.
  unfold Corrections_polynomial, bind, get, modify, when, ret, malloc_f,
    free_f, upload_f, set_fptr, cudaMalloc, cudaFree, cudaMemcpy_H2D, raise,
    log, bind, get, modify, ret.
  cbn. destruct (UseLUTPol_b st) eqn:Euse.
  - specialize (Hsz eq_refl).
    destruct (is_null (fptrs st d_LUTPolCoeff_f)) eqn:En.
    + exec; rewrite ?Hsz in *; try discriminate; try congruence.
    + cbn. rewrite Hsz.
      destruct (fptrs st d_LUTPolCoeff_f) eqn:Ep; try discriminate;
        exec; try discriminate; try congruence.
  - exec; try discriminate; try congruence.
Qed.

Lemma Corrections_aberration_failed_upload (st : globals) :
  UseAberrationCorr_b st = true ->
  (to_size_t (ints st memsize_SLMf) =? 0) = false ->
  is_live (fptrs st d_AberrationCorr_f) = true \/
  (fptrs st d_AberrationCorr_f = NullPtr /\
   to_size_t (ints st memsize_SLMf) <= mem_avail st) ->
  let st' := snd (Corrections_aberration None st) in
  UseAberrationCorr_b st' = false /\
  is_live (fptrs st' d_AberrationCorr_f) = true.
Proof.
  intros Huse Hsz Hptr.
  unfold Corrections_aberration, bind, get, modify, when, ret, malloc_f,
    free_f, upload_f, set_fptr, cudaMalloc, cudaFree, cudaMemcpy_H2D, raise,
    log, bind, get, modify, ret.
  cbn. rewrite Huse.
  destruct Hptr as [Hlive | [Hnull Hmem]].
  - destruct (fptrs st d_AberrationCorr_f) eqn:Ep; try discriminate.
    cbn. rewrite Hsz, Ep. cbn. upd_simpl. auto.
  - rewrite Hnull. cbn.
    apply Z.leb_le in Hmem. rewrite Hmem. cbn. upd_simpl. rewrite Hsz.
    cbn. upd_simpl. auto.
Qed.

Lemma Ncoeff_size_nonzero (order : Z) :
  (3 <=? order) && (order <=? 7) = true ->
  (size_mul (nth (Z.to_nat (order - 3)) Ncoeff 0) sizeof_float =? 0) = false.
Proof.
  intros Hr. apply andb_true_iff in Hr. destruct Hr as [Hlo Hhi].
  apply Z.leb_le in Hlo, Hhi.
  assert (Hc : order = 3 \/ order = 4 \/ order = 5 \/ order = 6 \/ order = 7)
    by lia.
  destruct Hc as [-> | [-> | [-> | [-> | ->]]]]; reflexivity.
Qed.

(** C10.  On return from [Corrections] in a started session (the size of the
    phase field is positive), an aberration flag that is on comes with a
    non-NULL map pointer, and a polynomial flag that is on comes with a
    non-NULL table pointer.  The converse fails: when the upload of the map
    fails (here for a NULL host array) the flag is cleared, while the buffer,
    resident before or allocated by this call, stays allocated. *)
Theorem Corrections_enabled_implies_resident (ua : Z)
    (ha : option (list float)) (al ul order : Z) (hc : option (list float))
    (st : globals) :
  0 < ints st memsize_SLMf < 2 ^ 31 ->
  let st' := snd (Corrections ua ha al ul order hc st) in
  (UseAberrationCorr_b st' = true -> fptrs st' d_AberrationCorr_f <> NullPtr) /\
  (UseLUTPol_b st' = true -> fptrs st' d_LUTPolCoeff_f <> NullPtr) /\
  (bool_of_int ua = true -> ha = None ->
   is_live (fptrs st d_AberrationCorr_f) = true \/
   (fptrs st d_AberrationCorr_f = NullPtr /\
    ints st memsize_SLMf <= mem_avail st) ->
   UseAberrationCorr_b st' = false /\
   is_live (fptrs st' d_AberrationCorr_f) = true).
Proof.
  intros Hsz st'.
  set (st1 := snd (Corrections_flags ua al ul order st)).
  set (st2 := snd (Corrections_aberration ha st1)).
  set (st3 := snd (Corrections_polynomial hc st2)).
  assert (Est' : st' = snd (handle_errors "Corrections" st3)) by reflexivity.
  destruct (handle_errors_frame "Corrections" st3)
    as (Hf4 & _ & Hab4 & Hpol4 & _).
  destruct (Corrections_polynomial_frame hc st2) as (Hi3 & Hab3 & Hp3 & _).
  destruct (Corrections_aberration_frame ha st1) as (Hpol2 & Hi2 & _).
  destruct (Corrections_flags_pol ua al ul order st) as [Hflag Hcount].
  fold st1 in Hflag, Hcount. fold st2 in Hpol2, Hi2. fold st3 in Hi3, Hab3, Hp3.
  rewrite <- Est' in Hf4, Hab4, Hpol4.
  assert (Hst1 : ints st1 memsize_SLMf = ints st memsize_SLMf /\
                 fptrs st1 = fptrs st /\ mem_avail st1 = mem_avail st /\
                 UseAberrationCorr_b st1 = bool_of_int ua).
  { subst st1. unfold Corrections_flags, bind, modify, set_int, ret. cbn.
    destruct ((3 <=? order) && (order <=? 7)); cbn; upd_simpl; auto. }
  destruct Hst1 as (Hsz1 & Hf1 & Hm1 & Hua1).
  assert (Hnz : (to_size_t (ints st1 memsize_SLMf) =? 0) = false).
  { rewrite Hsz1. apply to_size_t_nonzero.
    change (2 ^ 64) with 18446744073709551616. change (2 ^ 31) with 2147483648 in Hsz.
    lia. }
  split; [|split].
  - rewrite Hab4, Hab3, Hf4, Hp3.
    apply (Corrections_aberration_resident ha st1 Hnz).
  - rewrite Hpol4, Hf4.
    apply (Corrections_polynomial_resident hc st2).
    rewrite Hpol2, Hi2, Hflag, Hcount.
    intros Hon. apply andb_true_iff in Hon. destruct Hon as [_ Hr].
    rewrite Hr. apply Ncoeff_size_nonzero. exact Hr.
  - intros Hua -> Hptr.
    rewrite Hab4, Hab3, Hf4, Hp3.
    apply (Corrections_aberration_failed_upload st1).
    + rewrite Hua1. exact Hua.
    + exact Hnz.
    + rewrite Hf1, Hsz1, Hm1.
      rewrite to_size_t_small
        by (change (2 ^ 64) with 18446744073709551616;
            change (2 ^ 31) with 2147483648 in Hsz; lia).
      exact Hptr.
Qed.

Lemma new_events_app {A : Type} (l evs : list A) : new_events l (l ++ evs) = evs.
Proof. unfold new_events. apply drop_app_length. Qed.

Lemma Corrections_flags_trace (ua al ul order : Z) (st : globals) :
  let st' := snd (Corrections_flags ua al ul order st) in
  trace st' = trace st /\ fptrs st' = fptrs st /\
  mem_avail st' = mem_avail st /\
  UseAberrationCorr_b st' = bool_of_int ua /\
  ints st' memsize_SLMf = ints st memsize_SLMf.
Proof.
  unfold Corrections_flags, bind, modify, set_int, ret.
  exec; auto.
Qed.

Lemma Corrections_aberration_trace (h : option (list float)) (st : globals) :
  let st' := snd (Corrections_aberration h st) in
  trace st' =
    trace st ++
    (if UseAberrationCorr_b st
     then if is_null (fptrs st d_AberrationCorr_f)
          then [EvMalloc (PF d_AberrationCorr_f)
                  (to_size_t (ints st memsize_SLMf))]
          else []
     else if is_null (fptrs st d_AberrationCorr_f)
          then []
          else [EvFree (PF d_AberrationCorr_f)]).
Proof.
  unfold Corrections_aberration, bind, get, modify, when, ret, malloc_f,
    free_f, upload_f, set_fptr, cudaMalloc, cudaFree, cudaMemcpy_H2D, raise,
    log, bind, get, modify, ret.
  cbn. destruct (UseAberrationCorr_b st);
    destruct (fptrs st d_AberrationCorr_f) eqn:Ep;
    exec; rewrite ?app_nil_r; try reflexivity; try discriminate.
Qed.

Lemma Corrections_polynomial_trace (h : option (list float)) (st : globals) :
  let st' := snd (Corrections_polynomial h st) in
  exists evs, trace st' = trace st ++ evs /\
              List.filter (about (PF d_AberrationCorr_f)) evs = [].
Proof.
  unfold Corrections_polynomial, bind, get, modify, when, ret, malloc_f,
    free_f, upload_f, set_fptr, cudaMalloc, cudaFree, cudaMemcpy_H2D, raise,
    log, bind, get, modify, ret.
  cbn. destruct (UseLUTPol_b st);
    destruct (fptrs st d_LUTPolCoeff_f) eqn:Ep;
    exec;
    first [ by (exists []; rewrite app_nil_r)
          | by (eexists [_]; split; [reflexivity|vm_compute; reflexivity]) ].
Qed.

Lemma handle_errors_trace (fn : string) (st : globals) :
  exists evs, trace (snd (handle_errors fn st)) = trace st ++ evs /\
              List.filter (about (PF d_AberrationCorr_f)) evs = [].
Proof.
  unfold handle_errors, cudaGetLastError, bind, get, modify, when, ret, log.
  cbn. destruct (negb (last_error st =? 0)); cbn.
  - eexists [_]. split; [reflexivity|reflexivity].
  - exists []. rewrite app_nil_r. auto.
Qed.

Lemma Corrections_aberration_upload (h : list float) (st : globals) :
  UseAberrationCorr_b st = true ->
  (to_size_t (ints st memsize_SLMf) =? 0) = false ->
  let n := elems sizeof_float (to_size_t (ints st memsize_SLMf)) in
  (n <= length h)%nat ->
  match fptrs st d_AberrationCorr_f with
  | Live d => (n <= length d)%nat
  | NullPtr => to_size_t (ints st memsize_SLMf) <= mem_avail st
  | Stale => False
  end ->
  let st' := snd (Corrections_aberration (Some h) st) in
  UseAberrationCorr_b st' = true /\
  exists rest, fptrs st' d_AberrationCorr_f = Live (take n h ++ rest).
Proof.
  intros Huse Hsz n Hh Hp.
  unfold Corrections_aberration, bind, get, modify, when, ret, malloc_f,
    free_f, upload_f, set_fptr, cudaMalloc, cudaFree, cudaMemcpy_H2D, raise,
    log, bind, get, modify, ret.
  cbn. rewrite Huse.
  apply Nat.leb_le in Hh. fold n.
  destruct (fptrs st d_AberrationCorr_f) eqn:Ep; cbn.
  - apply Z.leb_le in Hp. rewrite Hp. cbn. upd_simpl. rewrite Hsz. cbn.
    fold n. rewrite length_replicate, Nat.leb_refl, Hh. cbn. upd_simpl.
    split; [reflexivity|]. eexists. reflexivity.
  - rewrite Hsz, Ep. cbn. apply Nat.leb_le in Hp. fold n. rewrite Hp, Hh. cbn.
    upd_simpl. split; [reflexivity|]. eexists. reflexivity.
  - contradiction.
Qed.

Lemma Corrections_aberration_disable (h : option (list float)) (st : globals) :
  UseAberrationCorr_b st = false ->
  fptrs (snd (Corrections_aberration h st)) d_AberrationCorr_f = NullPtr.
Proof.
  intros Huse.
  unfold Corrections_aberration, bind, get, modify, when, ret, malloc_f,
    free_f, upload_f, set_fptr, cudaMalloc, cudaFree, cudaMemcpy_H2D, raise,
    log, bind, get, modify, ret.
  cbn. rewrite Huse.
  destruct (fptrs st d_AberrationCorr_f) eqn:Ep; exec; auto.
Qed.

Lemma filter_about_app (p : pname) (l1 l2 : list event) :
  List.filter (about p) (l1 ++ l2) =
  List.filter (about p) l1 ++ List.filter (about p) l2.
Proof. apply List.filter_app. Qed.

(** C7.  A call of [Corrections] that switches the aberration map on
    allocates the device buffer exactly when the pointer is NULL (one
    [cudaMalloc] of the size of the phase field, none when a buffer is
    already there) and then uploads the host map: when the copy can take
    place the buffer holds the host data and the flag is on.  A call that
    switches it off releases the buffer exactly when the pointer is not NULL
    (one [cudaFree]), and the pointer is NULL on return. *)
Theorem Corrections_aberration_map (ua : Z) (ha : option (list float))
    (al ul order : Z) (hc : option (list float)) (st : globals) :
  let st' := snd (Corrections ua ha al ul order hc st) in
  let evs := List.filter (about (PF d_AberrationCorr_f))
               (new_events (trace st) (trace st')) in
  let sz := to_size_t (ints st memsize_SLMf) in
  let n := elems sizeof_float sz in
  if bool_of_int ua then
    evs = (if is_null (fptrs st d_AberrationCorr_f)
           then [EvMalloc (PF d_AberrationCorr_f) sz] else []) /\
    (forall h : list float,
       ha = Some h -> sz <> 0 -> (n <= length h)%nat ->
       match fptrs st d_AberrationCorr_f with
       | Live d => (n <= length d)%nat
       | NullPtr => sz <= mem_avail st
       | Stale => False
       end ->
       UseAberrationCorr_b st' = true /\
       exists rest, fptrs st' d_AberrationCorr_f = Live (take n h ++ rest))
  else
    evs = (if is_null (fptrs st d_AberrationCorr_f)
           then [] else [EvFree (PF d_AberrationCorr_f)]) /\
    fptrs st' d_AberrationCorr_f = NullPtr.
Proof.
  intros st' evs sz n.
  set (st1 := snd (Corrections_flags ua al ul order st)).
  set (st2 := snd (Corrections_aberration ha st1)).
  set (st3 := snd (Corrections_polynomial hc st2)).
  assert (Est' : st' = snd (handle_errors "Corrections" st3)) by reflexivity.
  destruct (Corrections_flags_trace ua al ul order st)
    as (Ht1 & Hf1 & Hm1 & Hua1 & Hsz1).
  fold st1 in Ht1, Hf1, Hm1, Hua1, Hsz1.
  pose proof (Corrections_aberration_trace ha st1) as Ht2.
  cbv zeta in Ht2. fold st2 in Ht2. rewrite Ht1, Hf1, Hua1, Hsz1 in Ht2.
  destruct (Corrections_polynomial_trace hc st2) as (e3 & Ht3 & Hn3).
  fold st3 in Ht3.
  destruct (handle_errors_trace "Corrections" st3) as (e4 & Ht4 & Hn4).
  rewrite <- Est' in Ht4.
  destruct (handle_errors_frame "Corrections" st3)
    as (Hf4 & _ & Hab4 & _).
  rewrite <- Est' in Hf4, Hab4.
  destruct (Corrections_polynomial_frame hc st2) as (_ & Hab3 & Hp3 & _).
  fold st3 in Hab3, Hp3.
  assert (Hevs : evs =
            List.filter (about (PF d_AberrationCorr_f))
              (if bool_of_int ua
               then if is_null (fptrs st d_AberrationCorr_f)
                    then [EvMalloc (PF d_AberrationCorr_f) sz] else []
               else if is_null (fptrs st d_AberrationCorr_f)
                    then [] else [EvFree (PF d_AberrationCorr_f)])).
  { subst evs. rewrite Ht4, Ht3, Ht2, <- !app_assoc, new_events_app.
    rewrite !filter_about_app, Hn3, Hn4, !app_nil_r. reflexivity. }
  destruct (bool_of_int ua) eqn:Eua.
  - split.
    + rewrite Hevs. destruct (is_null (fptrs st d_AberrationCorr_f)); reflexivity.
    + intros h -> Hnz Hh Hp.
      rewrite Hab4, Hab3, Hf4, Hp3.
      assert (Hnz1 : (to_size_t (ints st1 memsize_SLMf) =? 0) = false)
        by (rewrite Hsz1; apply Z.eqb_neq; exact Hnz).
      assert (Hh1 : (elems sizeof_float (to_size_t (ints st1 memsize_SLMf))
                     <= length h)%nat) by (rewrite Hsz1; exact Hh).
      pose proof (Corrections_aberration_upload h st1 Hua1 Hnz1 Hh1) as Hup.
      rewrite Hf1, Hsz1, Hm1 in Hup. exact (Hup Hp).
  - split.
    + rewrite Hevs. destruct (is_null (fptrs st d_AberrationCorr_f)); reflexivity.
    + rewrite Hf4, Hp3. apply Corrections_aberration_disable. exact Hua1.
Qed.

(** *** The generation call: spot capacity and method selection *)

Lemma bind_congr {A B : Type} (m m' : M A) (k : A -> M B) (st : globals) :
  m st = m' st -> bind m k st = bind m' k st.
Proof. unfold bind. intros ->. reflexivity. Qed.

Lemma clamp_spots_over (N_spots method : Z) :
  N_spots > BLOCK_SIZE -> clamp_spots N_spots method = (BLOCK_SIZE, method).
Proof.
  intros Hgt. unfold clamp_spots.
  destruct (N_spots >? BLOCK_SIZE) eqn:E; [reflexivity|].
  rewrite Z.gtb_ltb in E. apply Z.ltb_ge in E. lia.
Qed.

Lemma clamp_spots_few (N_spots method : Z) :
  N_spots <= BLOCK_SIZE -> N_spots < 3 -> clamp_spots N_spots method = (N_spots, 0).
Proof.
  intros Hle Hlt. unfold clamp_spots.
  destruct (N_spots >? BLOCK_SIZE) eqn:E.
  - rewrite Z.gtb_ltb in E. apply Z.ltb_lt in E. lia.
  - destruct (N_spots <? 3) eqn:E3; [reflexivity|].
    apply Z.ltb_ge in E3. lia.
Qed.

Lemma clamp_spots_within (N_spots method : Z) :
  3 <= N_spots <= BLOCK_SIZE -> clamp_spots N_spots method = (N_spots, method).
Proof.
  intros [Hlo Hhi]. unfold clamp_spots.
  destruct (N_spots >? BLOCK_SIZE) eqn:E.
  - rewrite Z.gtb_ltb in E. apply Z.ltb_lt in E. lia.
  - destruct (N_spots <? 3) eqn:E3; [|reflexivity].
    apply Z.ltb_lt in E3. lia.
Qed.

Lemma cudaMemcpy_H2D_take {A : Type} (esz : Z) (d : devptr A) (s : list A)
    (bytes : Z) (k : nat) :
  (elems esz bytes <= k)%nat ->
  cudaMemcpy_H2D esz d (Some (take k s)) bytes =
  cudaMemcpy_H2D esz d (Some s) bytes.
Proof.
  intros Hk. unfold cudaMemcpy_H2D.
  destruct (bytes =? 0); [reflexivity|].
  destruct d as [|d|]; try reflexivity.
  rewrite length_take, take_take.
  replace (elems esz bytes `min` k)%nat with (elems esz bytes) by lia.
  replace (elems esz bytes <=? k `min` length s)%nat
    with (elems esz bytes <=? length s)%nat; [reflexivity|].
  destruct (Nat.leb_spec (elems esz bytes) (length s));
    destruct (Nat.leb_spec (elems esz bytes) (k `min` length s)%nat);
    try reflexivity; lia.
Qed.

Lemma upload_f_take (p : fptr) (s : list float) (bytes : Z) (k : nat)
    (st : globals) :
  (elems sizeof_float bytes <= k)%nat ->
  upload_f p (Some (take k s)) bytes st = upload_f p (Some s) bytes st.
Proof.
  intros Hk. unfold upload_f, bind, get. cbn.
  rewrite (cudaMemcpy_H2D_take sizeof_float _ s bytes k Hk). reflexivity.
Qed.

Lemma upload_spots_take (xs ys zs Is : list float) (N_spots : Z) (k : nat)
    (st : globals) :
  (elems sizeof_float (to_size_t (to_int (size_mul N_spots sizeof_float))) <= k)%nat ->
  upload_spots (take k xs) (take k ys) (take k zs) (take k Is) N_spots st =
  upload_spots xs ys zs Is N_spots st.
Proof.
  intros Hk. unfold upload_spots, bind, get, set_int, modify, ret.
  cbn -[upload_f]. upd_simpl.
  rewrite (upload_f_take d_x xs _ k _ Hk).
  rewrite (upload_f_take d_y ys _ k _ Hk).
  rewrite (upload_f_take d_z zs _ k _ Hk).
  rewrite (upload_f_take d_I Is _ k _ Hk).
  reflexivity.
Qed.

Lemma elems_capacity (n : Z) :
  0 <= n < 2 ^ 29 ->
  elems sizeof_float (to_size_t (to_int (size_mul n sizeof_float))) = Z.to_nat n.
Proof.
  intros Hn. change (2 ^ 29) with 536870912 in Hn.
  rewrite size_mul_small; unfold sizeof_float;
    try (change (2 ^ 64) with 18446744073709551616); try lia.
  rewrite to_int_small
    by (change (2 ^ 31) with 2147483648; lia).
  rewrite to_size_t_small
    by (change (2 ^ 64) with 18446744073709551616; lia).
  unfold elems. f_equal. apply Z.div_mul. lia.
Qed.

(** C1, as the code has it.  A spot count above [BLOCK_SIZE] is cut to
    [BLOCK_SIZE] and the requested method is kept: the call computes what it
    computes from the first [BLOCK_SIZE] entries of the spot arrays alone.
    The method is set to 0 when the count is at most [BLOCK_SIZE] and below
    3: the call is then the call with method 0.  A count from 3 to
    [BLOCK_SIZE] changes neither. *)
Theorem GenerateHologram_capacity_and_method (pat : list Z)
    (xs ys zs Is : list float) (N_spots N_iterations : Z) (ws : list float)
    (alpha : float) (method : Z) (st : globals) :
  0 <= BLOCK_SIZE < 2 ^ 29 ->
  let C := Z.to_nat BLOCK_SIZE in
  (N_spots > BLOCK_SIZE ->
   clamp_spots N_spots method = (BLOCK_SIZE, method) /\
   GenerateHologram pat xs ys zs Is N_spots N_iterations ws alpha method st =
   GenerateHologram pat (take C xs) (take C ys) (take C zs) (take C Is)
     N_spots N_iterations ws alpha method st) /\
  (N_spots <= BLOCK_SIZE -> N_spots < 3 ->
   clamp_spots N_spots method = (N_spots, 0) /\
   GenerateHologram pat xs ys zs Is N_spots N_iterations ws alpha method st =
   GenerateHologram pat xs ys zs Is N_spots N_iterations ws alpha 0 st) /\
  (3 <= N_spots <= BLOCK_SIZE ->
   clamp_spots N_spots method = (N_spots, method)).
Proof.
  intros Hcap C. split; [|split].
  - intros Hgt. pose proof (clamp_spots_over N_spots method Hgt) as Hc.
    split; [exact Hc|].
    unfold GenerateHologram. rewrite Hc. cbn [fst snd].
    symmetry. apply bind_congr. apply upload_spots_take.
    rewrite elems_capacity by exact Hcap. subst C. lia.
  - intros Hle Hlt.
    pose proof (clamp_spots_few N_spots method Hle Hlt) as Hc.
    split; [exact Hc|].
    unfold GenerateHologram.
    rewrite Hc, (clamp_spots_few N_spots 0 Hle Hlt). reflexivity.
  - apply clamp_spots_within.
Qed.


(** *** Counting kernel launches *)

Lemma emits_eq {A : Type} (m : M A) (k : kernel) (n n' : nat) :
  emits m k n -> n = n' -> emits m k n'.
Proof. intros Hm <-. exact Hm. Qed.

Lemma emits_ret {A : Type} (a : A) (k : kernel) : emits (ret a) k 0.
Proof. intros st. exists []. cbn. rewrite app_nil_r. auto. Qed.

Lemma emits_get {A : Type} (proj : globals -> A) (k : kernel) :
  emits (get proj) k 0.
Proof. intros st. exists []. cbn. rewrite app_nil_r. auto. Qed.

Lemma emits_modify (f : globals -> globals) (k : kernel) :
  (forall st, trace (f st) = trace st) -> emits (modify f) k 0.
Proof. intros Hf st. exists []. cbn. rewrite app_nil_r, Hf. auto. Qed.

Lemma emits_bind {A B : Type} (m : M A) (f : A -> M B) (k : kernel)
    (n1 n2 : nat) :
  emits m k n1 -> (forall a, emits (f a) k n2) ->
  emits (bind m f) k (n1 + n2).
Proof.
  intros Hm Hf st. unfold bind.
  destruct (Hm st) as (e1 & Ht1 & Hc1).
  destruct (Hf (fst (m st)) (snd (m st))) as (e2 & Ht2 & Hc2).
  exists (e1 ++ e2). rewrite Ht2, Ht1, <- app_assoc, count_app, Hc1, Hc2. auto.
Qed.

Lemma emits_log (e : event) (k : kernel) :
  emits (log e) k (if launches_of k e then 1 else 0).
Proof.
  intros st. exists [e]. split; [reflexivity|].
  unfold count. cbn. destruct (launches_of k e); reflexivity.
Qed.

Lemma emits_log_launch (k' : kernel) (grid block : Z) (k : kernel) :
  emits (log (EvLaunch k' grid block)) k (one_if k k').
Proof.
  eapply emits_eq; [apply emits_log|]. unfold one_if. cbn.
  destruct (bool_decide _); reflexivity.
Qed.

Lemma emits_log_other (e : event) (k : kernel) :
  launches_of k e = false -> emits (log e) k 0.
Proof. intros He. eapply emits_eq; [apply emits_log|]. now rewrite He. Qed.

Lemma emits_when (b : bool) (m : M unit) (k : kernel) :
  emits m k 0 -> emits (when b m) k 0.
Proof. intros Hm. destruct b; [exact Hm|apply emits_ret]. Qed.

Lemma emits_state_frame {A : Type} (m : M A) (k : kernel) :
  (forall st, trace (snd (m st)) = trace st) -> emits m k 0.
Proof. intros Hm st. exists []. rewrite app_nil_r, Hm. auto. Qed.

End Properties.

(** Proof search for launch counts: follow the structure of the code. *)
Ltac emits_step :=
  lazymatch goal with
  | |- emits (ret _) _ _ => apply emits_ret
  | |- emits (get _) _ _ => apply emits_get
  | |- emits (modify _) _ _ => apply emits_modify; intros; reflexivity
  | |- emits (when _ _) _ _ => apply emits_when
  | |- emits (log (EvLaunch _ _ _)) _ _ => apply emits_log_launch
  | |- emits (log _) _ _ => apply emits_log_other; reflexivity
  | |- emits (bind _ _) _ _ => eapply emits_bind; [|intros; cbv beta]
  | |- emits (if ?b then _ else _) _ _ => destruct b
  | |- emits (match ?x with _ => _ end) _ _ => destruct x
  end.
Create HintDb emits.
Ltac emits_leaf := solve [auto with emits].
Ltac emits_run :=
  eapply emits_eq; [repeat first [emits_step | emits_leaf]|try reflexivity].

Ltac eval_one_if :=
  repeat match goal with
         | |- context [one_if ?a ?b] =>
             let v := eval vm_compute in (one_if a b) in
             change (one_if a b) with v
         end.

Section LaunchCounts.
Context `{FloatOps} `{Header} `{!Kernels}.

Lemma emits_set_fptr (p : fptr) (v : devptr float) (k : kernel) :
  emits (set_fptr p v) k 0.
Proof. unfold set_fptr. emits_run. Qed.
#[local] Hint Resolve emits_set_fptr : emits.

Lemma emits_set_ucptr (p : ucptr) (v : devptr Z) (k : kernel) :
  emits (set_ucptr p v) k 0.
Proof. unfold set_ucptr. emits_run. Qed.
#[local] Hint Resolve emits_set_ucptr : emits.

Lemma emits_set_ccptr (p : ccptr) (v : devptr cufftComplex) (k : kernel) :
  emits (set_ccptr p v) k 0.
Proof. unfold set_ccptr. emits_run. Qed.
#[local] Hint Resolve emits_set_ccptr : emits.

Lemma emits_set_int (x : ivar) (v : Z) (k : kernel) : emits (set_int x v) k 0.
Proof. unfold set_int. emits_run. Qed.
#[local] Hint Resolve emits_set_int : emits.

Lemma emits_raise (code : Z) (k : kernel) : emits (raise code) k 0.
Proof. unfold raise. emits_run. Qed.
#[local] Hint Resolve emits_raise : emits.

Lemma emits_launch_failure (k : kernel) : emits launch_failure k 0.
Proof. unfold launch_failure. emits_run. Qed.
#[local] Hint Resolve emits_launch_failure : emits.

Lemma emits_cudaMemcpy_H2D {A : Type} (esz : Z) (d : devptr A)
    (s : option (list A)) (bytes : Z) (k : kernel) :
  emits (cudaMemcpy_H2D esz d s bytes) k 0.
Proof.
  unfold cudaMemcpy_H2D.
  destruct (bytes =? 0); [apply emits_ret|].
  destruct d; try destruct s; try destruct (_ && _);
    first [apply emits_ret | emits_run].
Qed.
#[local] Hint Resolve emits_cudaMemcpy_H2D : emits.

Lemma emits_cudaMemcpy_D2H {A : Type} (esz : Z) (d : list A)
    (s : devptr A) (bytes : Z) (k : kernel) :
  emits (cudaMemcpy_D2H esz d s bytes) k 0.
Proof.
  unfold cudaMemcpy_D2H.
  destruct (bytes =? 0); [apply emits_ret|].
  destruct s; try destruct (_ && _);
    first [apply emits_ret | emits_run].
Qed.
#[local] Hint Resolve emits_cudaMemcpy_D2H : emits.

Lemma emits_cudaMemcpy_D2D {A : Type} (esz : Z) (d s : devptr A)
    (bytes : Z) (k : kernel) :
  emits (cudaMemcpy_D2D esz d s bytes) k 0.
Proof.
  unfold cudaMemcpy_D2D.
  destruct (bytes =? 0); [apply emits_ret|].
  destruct d; try destruct s; try destruct (_ && _);
    first [apply emits_ret | emits_run].
Qed.
#[local] Hint Resolve emits_cudaMemcpy_D2D : emits.

Lemma emits_cudaMemset0 {A : Type} (esz : Z) (zero : A) (d : devptr A)
    (bytes : Z) (k : kernel) :
  emits (cudaMemset0 esz zero d bytes) k 0.
Proof.
  unfold cudaMemset0.
  destruct (bytes =? 0); [apply emits_ret|].
  destruct d; try destruct (_ <=? _)%nat;
    first [apply emits_ret | emits_run].
Qed.
#[local] Hint Resolve emits_cudaMemset0 : emits.

Lemma emits_upload_f (p : fptr) (h : option (list float)) (bytes : Z)
    (k : kernel) : emits (upload_f p h bytes) k 0.
Proof.
  unfold upload_f. emits_run.
Qed.
#[local] Hint Resolve emits_upload_f : emits.

Lemma emits_download_f (h : list float) (p : fptr) (bytes : Z) (k : kernel) :
  emits (download_f h p bytes) k 0.
Proof. unfold download_f. emits_run. Qed.
#[local] Hint Resolve emits_download_f : emits.

Lemma emits_download_uc (h : list Z) (p : ucptr) (bytes : Z) (k : kernel) :
  emits (download_uc h p bytes) k 0.
Proof. unfold download_uc. emits_run. Qed.
#[local] Hint Resolve emits_download_uc : emits.

Lemma emits_copy_f (dst src : fptr) (bytes : Z) (k : kernel) :
  emits (copy_f dst src bytes) k 0.
Proof.
  unfold copy_f. emits_run.
Qed.
#[local] Hint Resolve emits_copy_f : emits.

Lemma emits_handle_errors (fn : string) (k : kernel) :
  emits (handle_errors fn) k 0.
Proof. unfold handle_errors, cudaGetLastError. emits_run. Qed.
#[local] Hint Resolve emits_handle_errors : emits.

Lemma emits_upload_spots (xs ys zs Is : list float) (N_spots : Z) (k : kernel) :
  emits (upload_spots xs ys zs Is N_spots) k 0.
Proof.
  unfold upload_spots. emits_run.
Qed.
#[local] Hint Resolve emits_upload_spots : emits.

Ltac emits_raw := apply emits_state_frame; intros ?st; exec; reflexivity.

Lemma emits_launch_LensesAndPrisms (N_spots : Z) (k : kernel) :
  emits (launch_LensesAndPrisms N_spots) k (one_if k K_LensesAndPrisms).
Proof.
  unfold launch_LensesAndPrisms.
  eapply emits_eq; [repeat first [emits_step | emits_leaf]; emits_raw|].
  cbn. lia.
Qed.
#[local] Hint Resolve emits_launch_LensesAndPrisms : emits.

Lemma emits_launch_checkAmplitudes (gx gy gz : devptr float) (gp : devptr Z)
    (ga : devptr float) (off : nat) (N np w : Z) (k : kernel) :
  emits (launch_checkAmplitudes gx gy gz gp ga off N np w) k
        (one_if k K_checkAmplitudes).
Proof.
  unfold launch_checkAmplitudes.
  eapply emits_eq; [repeat first [emits_step | emits_leaf]|].
  cbn. lia.
Qed.
#[local] Hint Resolve emits_launch_checkAmplitudes : emits.

Lemma emits_launch_PropagateToSpotPositions_Fresnel (N_spots : Z) (k : kernel) :
  emits (launch_PropagateToSpotPositions_Fresnel N_spots) k
        (one_if k K_PropagateToSpotPositions_Fresnel).
Proof.
  unfold launch_PropagateToSpotPositions_Fresnel.
  eapply emits_eq; [repeat first [emits_step | emits_leaf]; emits_raw|].
  cbn. lia.
Qed.
#[local] Hint Resolve emits_launch_PropagateToSpotPositions_Fresnel : emits.

Lemma emits_launch_PropagateToSLM_Fresnel (N_spots l : Z) (rpc : float)
    (last : bool) (k : kernel) :
  emits (launch_PropagateToSLM_Fresnel N_spots l rpc last) k
        (one_if k K_PropagateToSLM_Fresnel).
Proof.
  unfold launch_PropagateToSLM_Fresnel.
  eapply emits_eq; [repeat first [emits_step | emits_leaf]; emits_raw|].
  cbn. lia.
Qed.
#[local] Hint Resolve emits_launch_PropagateToSLM_Fresnel : emits.

Lemma emits_launch_XYtoIndex (N_spots : Z) (k : kernel) :
  emits (launch_XYtoIndex N_spots) k (one_if k K_XYtoIndex).
Proof.
  unfold launch_XYtoIndex.
  eapply emits_eq; [repeat first [emits_step | emits_leaf]; emits_raw|].
  cbn. lia.
Qed.
#[local] Hint Resolve emits_launch_XYtoIndex : emits.

Lemma emits_exec_fft (i o : ccptr) (forward : bool) (k : kernel) :
  emits (exec_fft i o forward) k 0.
Proof.
  unfold exec_fft.
  eapply emits_eq; [repeat first [emits_step | emits_leaf]; emits_raw|].
  reflexivity.
Qed.
#[local] Hint Resolve emits_exec_fft : emits.

Lemma emits_launch_ReplaceAmpsSpots_FFT (N_spots l : Z) (amp : float)
    (k : kernel) :
  emits (launch_ReplaceAmpsSpots_FFT N_spots l amp) k
        (one_if k K_ReplaceAmpsSpots_FFT).
Proof.
  unfold launch_ReplaceAmpsSpots_FFT.
  eapply emits_eq; [repeat first [emits_step | emits_leaf]; emits_raw|].
  cbn. lia.
Qed.
#[local] Hint Resolve emits_launch_ReplaceAmpsSpots_FFT : emits.

Lemma emits_launch_ReplaceAmpsSLM_FFT (rpc : float) (k : kernel) :
  emits (launch_ReplaceAmpsSLM_FFT rpc) k (one_if k K_ReplaceAmpsSLM_FFT).
Proof.
  unfold launch_ReplaceAmpsSLM_FFT.
  eapply emits_eq; [repeat first [emits_step | emits_leaf]; emits_raw|].
  cbn. lia.
Qed.
#[local] Hint Resolve emits_launch_ReplaceAmpsSLM_FFT : emits.

Lemma emits_launch_getPhases (k : kernel) :
  emits launch_getPhases k (one_if k K_getPhases).
Proof.
  unfold launch_getPhases.
  eapply emits_eq; [repeat first [emits_step | emits_leaf]; emits_raw|].
  cbn. lia.
Qed.
#[local] Hint Resolve emits_launch_getPhases : emits.

Lemma emits_for_loop (count : nat) (l : Z) (body : Z -> M unit) (k : kernel)
    (c : nat) :
  (forall i, emits (body i) k c) -> emits (for_loop count l body) k (count * c).
Proof.
  intros Hbody. revert l.
  induction count as [|count IH]; intros l; cbn [for_loop].
  - apply emits_ret.
  - change (S count * c)%nat with (c + count * c)%nat.
    apply emits_bind; [apply Hbody|]. intros _. apply IH.
Qed.
#[local] Hint Resolve emits_for_loop : emits.

Lemma emits_fun {A : Type} (m : globals -> M A) (k : kernel) (n : nat) :
  (forall st0, emits (m st0) k n) -> emits (fun st => m st st) k n.
Proof. intros Hm st. exact (Hm st st). Qed.

Lemma emits_LensesAndPrisms_method (pat : list Z) (ws : list float)
    (N_spots : Z) (k : kernel) :
  emits (LensesAndPrisms_method pat ws N_spots) k
        (one_if k K_LensesAndPrisms + one_if k K_checkAmplitudes).
Proof.
  unfold LensesAndPrisms_method.
  eapply emits_eq.
  - eapply emits_bind; [emits_leaf|]. intros _.
    eapply emits_bind.
    + apply (emits_fun (fun st0 =>
               launch_checkAmplitudes (fptrs st0 d_x) (fptrs st0 d_y)
                 (fptrs st0 d_z) (ucptrs st0 d_pSLM_uc) (fptrs st0 d_amps) 0
                 N_spots (ints st0 N_pixels) (ints st0 data_w))).
      intros st0. emits_leaf.
    + intros a. repeat first [emits_step | emits_leaf].
  - lia.
Qed.

Lemma emits_Fresnel_method (pat : list Z) (ws : list float)
    (N_spots N_iterations : Z) (rpc : float) (k : kernel) :
  emits (Fresnel_method pat ws N_spots N_iterations rpc) k
        (Z.to_nat N_iterations *
         (one_if k K_PropagateToSpotPositions_Fresnel +
          one_if k K_PropagateToSLM_Fresnel)).
Proof.
  unfold Fresnel_method, Fresnel_seed, Fresnel_run.
  eapply emits_eq;
    [repeat first [emits_step | emits_leaf
                  | apply emits_for_loop; intros; unfold Fresnel_iteration]|].
  lia.
Qed.

Lemma emits_Fourier_method (pat : list Z) (ws : list float)
    (N_spots N_iterations : Z) (rpc : float) (k : kernel) :
  emits (Fourier_method pat ws N_spots N_iterations rpc) k
        (one_if k K_XYtoIndex +
         Z.to_nat N_iterations *
         (one_if k K_ReplaceAmpsSpots_FFT + one_if k K_ReplaceAmpsSLM_FFT) +
         one_if k K_getPhases).
Proof.
  unfold Fourier_method, Fourier_seed, Fourier_run.
  eapply emits_eq;
    [repeat first [emits_step | emits_leaf
                  | apply emits_for_loop; intros; unfold Fourier_iteration]|].
  lia.
Qed.

Lemma emits_GenerateHologram (pat : list Z) (xs ys zs Is : list float)
    (N_spots N_iterations : Z) (ws : list float) (alpha : float)
    (method : Z) (k : kernel) :
  emits (GenerateHologram pat xs ys zs Is N_spots N_iterations ws alpha method)
        k
        (launches_of_method (snd (clamp_spots N_spots method)) N_iterations k).
Proof.
  unfold GenerateHologram, launches_of_method.
  set (method' := snd (clamp_spots N_spots method)).
  set (N_spots' := fst (clamp_spots N_spots method)).
  eapply emits_eq.
  - eapply emits_bind; [apply emits_upload_spots|]. intros _.
    eapply emits_bind.
    + instantiate (1 := launches_of_method method' N_iterations k).
      unfold launches_of_method.
      destruct (method' =? 0); [apply emits_LensesAndPrisms_method|].
      destruct (method' =? 1); [apply emits_Fresnel_method|].
      destruct (method' =? 2); [apply emits_Fourier_method|].
      apply emits_ret.
    + intros out. unfold finish_hologram.
      repeat first [emits_step | emits_leaf].
  - unfold launches_of_method. lia.
Qed.

Lemma emits_new_events {A : Type} (m : M A) (k : kernel) (n : nat)
    (st : globals) :
  emits m k n -> count k (new_events (trace st) (trace (snd (m st)))) = n.
Proof.
  intros Hm. destruct (Hm st) as (evs & -> & Hn).
  rewrite new_events_app. exact Hn.
Qed.

(** C4, as the code has it.  The spot count is cut to [BLOCK_SIZE]; the
    iteration count is not cut: when the Fresnel method runs, the call
    launches each of its two kernels [N_iterations] times, and when the
    Fourier method runs it launches each of its two loop kernels
    [N_iterations] times, whatever [MaxIterations] is. *)
Theorem GenerateHologram_iteration_count (pat : list Z)
    (xs ys zs Is : list float) (N_spots N_iterations : Z) (ws : list float)
    (alpha : float) (method : Z) (st : globals) :
  let r := GenerateHologram pat xs ys zs Is N_spots N_iterations ws alpha
             method st in
  let evs := new_events (trace st) (trace (snd r)) in
  let method' := snd (clamp_spots N_spots method) in
  fst (clamp_spots N_spots method) = Z.min N_spots BLOCK_SIZE /\
  (method' = 1 ->
   count K_PropagateToSpotPositions_Fresnel evs = Z.to_nat N_iterations /\
   count K_PropagateToSLM_Fresnel evs = Z.to_nat N_iterations) /\
  (method' = 2 ->
   count K_ReplaceAmpsSpots_FFT evs = Z.to_nat N_iterations /\
   count K_ReplaceAmpsSLM_FFT evs = Z.to_nat N_iterations).
Proof.
  intros r evs method'.
  assert (Hcount : forall k,
            count k evs = launches_of_method method' N_iterations k).
  { intros k. subst evs r. apply emits_new_events, emits_GenerateHologram. }
  split; [|split].
  - unfold clamp_spots.
    destruct (N_spots >? BLOCK_SIZE) eqn:E.
    + rewrite Z.gtb_ltb in E. apply Z.ltb_lt in E. cbn. lia.
    + rewrite Z.gtb_ltb in E. apply Z.ltb_ge in E.
      destruct (N_spots <? 3); cbn; lia.
  - intros Hm. rewrite !Hcount, Hm. unfold launches_of_method.
    cbn [Z.eqb Pos.eqb]. eval_one_if. split; lia.
  - intros Hm. rewrite !Hcount, Hm. unfold launches_of_method.
    cbn [Z.eqb Pos.eqb]. eval_one_if. split; lia.
Qed.

End LaunchCounts.

(** *** Frame rules *)

Section Frames.
Context `{FloatOps} `{Header} `{!Kernels}.

Lemma preserves_ret {A B : Type} (a : A) (proj : globals -> B) :
  preserves (ret a) proj.
Proof. intros st. reflexivity. Qed.

Lemma preserves_get {A B : Type} (f : globals -> A) (proj : globals -> B) :
  preserves (get f) proj.
Proof. intros st. reflexivity. Qed.

Lemma preserves_modify {B : Type} (f : globals -> globals)
    (proj : globals -> B) :
  (forall st, proj (f st) = proj st) -> preserves (modify f) proj.
Proof. intros Hf st. apply Hf. Qed.

Lemma preserves_bind {A B C : Type} (m : M A) (k : A -> M B)
    (proj : globals -> C) :
  preserves m proj -> (forall a, preserves (k a) proj) ->
  preserves (bind m k) proj.
Proof.
  intros Hm Hk st. unfold bind. cbv zeta. rewrite Hk. apply Hm.
Qed.

Lemma preserves_when {B : Type} (b : bool) (m : M unit) (proj : globals -> B) :
  preserves m proj -> preserves (when b m) proj.
Proof. intros Hm. destruct b; [exact Hm|apply preserves_ret]. Qed.

Lemma preserves_log {B : Type} (e : event) (proj : globals -> B) :
  (forall v st, proj (set_trace v st) = proj st) -> preserves (log e) proj.
Proof. intros Ht st. apply Ht. Qed.

Lemma preserves_raise {B : Type} (code : Z) (proj : globals -> B) :
  host_view proj -> preserves (raise code) proj.
Proof. intros (_ & _ & He) st. apply He. Qed.

Lemma preserves_cudaGetLastError {B : Type} (proj : globals -> B) :
  host_view proj -> preserves cudaGetLastError proj.
Proof. intros (_ & _ & He) st. apply He. Qed.

Lemma preserves_fun {A B : Type} (m : globals -> M A) (proj : globals -> B) :
  (forall st0, preserves (m st0) proj) -> preserves (fun st => m st st) proj.
Proof. intros Hm st. exact (Hm st st). Qed.

End Frames.

Create HintDb frames.

Ltac host_view_tac := repeat split; intros; reflexivity.

Ltac pres_step :=
  lazymatch goal with
  | |- preserves (ret _) _ => apply preserves_ret
  | |- preserves (get _) _ => apply preserves_get
  | |- preserves (when _ _) _ => apply preserves_when
  | |- preserves (log _) _ => apply preserves_log; intros; reflexivity
  | |- preserves (raise _) _ => apply preserves_raise; host_view_tac
  | |- preserves cudaGetLastError _ =>
      apply preserves_cudaGetLastError; host_view_tac
  | |- preserves (modify _) _ =>
      apply preserves_modify; intros; cbn; upd_simpl; reflexivity
  | |- preserves (bind _ _) _ => apply preserves_bind; [|intros; cbv beta]
  | |- preserves (if ?b then _ else _) _ => destruct b
  | |- preserves (match ?x with _ => _ end) _ => destruct x
  end.
Ltac pres_leaf := solve [auto with frames].
Ltac pres_run := repeat first [pres_step | pres_leaf].

Section RuntimeFrames.
Context `{FloatOps} `{Header} `{!Kernels}.

Lemma preserves_cudaMalloc {A B : Type} (name : pname) (esz : Z) (fill : A)
    (old : devptr A) (bytes : Z) (proj : globals -> B) :
  host_view proj -> preserves (cudaMalloc name esz fill old bytes) proj.
Proof.
  intros (Ht & Hm & He) st. unfold cudaMalloc, bind, get, modify, log, raise, ret.
  cbn. destruct (bytes <=? mem_avail st); cbn;
    rewrite ?Hm, ?He, ?Ht; reflexivity.
Qed.

Lemma preserves_cudaFree {A B : Type} (name : pname) (esz : Z)
    (p : devptr A) (proj : globals -> B) :
  host_view proj -> preserves (cudaFree name esz p) proj.
Proof.
  intros (Ht & Hm & He) st. unfold cudaFree, bind, get, modify, log, raise, ret.
  destruct p; cbn; rewrite ?Hm, ?He, ?Ht; reflexivity.
Qed.

Lemma preserves_cudaMemcpy_H2D {A B : Type} (esz : Z) (d : devptr A)
    (s : option (list A)) (bytes : Z) (proj : globals -> B) :
  host_view proj -> preserves (cudaMemcpy_H2D esz d s bytes) proj.
Proof.
  intros (Ht & Hm & He) st. unfold cudaMemcpy_H2D, bind, modify, raise, ret.
  destruct (bytes =? 0); [reflexivity|].
  destruct d; try destruct s; try destruct (_ && _); cbn;
    rewrite ?He; reflexivity.
Qed.

Lemma preserves_cudaMemcpy_D2H {A B : Type} (esz : Z) (d : list A)
    (s : devptr A) (bytes : Z) (proj : globals -> B) :
  host_view proj -> preserves (cudaMemcpy_D2H esz d s bytes) proj.
Proof.
  intros (Ht & Hm & He) st. unfold cudaMemcpy_D2H, bind, modify, raise, ret.
  destruct (bytes =? 0); [reflexivity|].
  destruct s; try destruct (_ && _); cbn; rewrite ?He; reflexivity.
Qed.

Lemma preserves_cudaMemcpy_D2D {A B : Type} (esz : Z) (d s : devptr A)
    (bytes : Z) (proj : globals -> B) :
  host_view proj -> preserves (cudaMemcpy_D2D esz d s bytes) proj.
Proof.
  intros (Ht & Hm & He) st. unfold cudaMemcpy_D2D, bind, modify, raise, ret.
  destruct (bytes =? 0); [reflexivity|].
  destruct d; try destruct s; try destruct (_ && _); cbn;
    rewrite ?He; reflexivity.
Qed.

Lemma preserves_cudaMemset0 {A B : Type} (esz : Z) (zero : A) (d : devptr A)
    (bytes : Z) (proj : globals -> B) :
  host_view proj -> preserves (cudaMemset0 esz zero d bytes) proj.
Proof.
  intros (Ht & Hm & He) st. unfold cudaMemset0, bind, modify, raise, ret.
  destruct (bytes =? 0); [reflexivity|].
  destruct d; try destruct (_ <=? _)%nat; cbn; rewrite ?He; reflexivity.
Qed.

Lemma preserves_launch_failure {B : Type} (proj : globals -> B) :
  host_view proj -> preserves launch_failure proj.
Proof.
  intros Hv. unfold launch_failure.
  apply preserves_bind; [apply preserves_raise; exact Hv|].
  intros _. apply preserves_ret.
Qed.

End RuntimeFrames.

Ltac ignores_tac := intros; cbn; upd_simpl; reflexivity.

Section PointerFrames.
Context `{FloatOps} `{Header} `{!Kernels}.

Lemma preserves_set_fptr {B : Type} (p : fptr) (v : devptr float)
    (proj : globals -> B) :
  (forall v st, proj (set_fptrs (upd p v (fptrs st)) st) = proj st) ->
  preserves (set_fptr p v) proj.
Proof. intros Hp st. apply Hp. Qed.

Lemma preserves_set_ucptr {B : Type} (p : ucptr) (v : devptr Z)
    (proj : globals -> B) :
  (forall v st, proj (set_ucptrs (upd p v (ucptrs st)) st) = proj st) ->
  preserves (set_ucptr p v) proj.
Proof. intros Hp st. apply Hp. Qed.

Lemma preserves_set_ccptr {B : Type} (p : ccptr) (v : devptr cufftComplex)
    (proj : globals -> B) :
  (forall v st, proj (set_ccptrs (upd p v (ccptrs st)) st) = proj st) ->
  preserves (set_ccptr p v) proj.
Proof. intros Hp st. apply Hp. Qed.

Lemma preserves_set_int {B : Type} (x : ivar) (v : Z) (proj : globals -> B) :
  (forall v st, proj (set_ints (upd x v (ints st)) st) = proj st) ->
  preserves (set_int x v) proj.
Proof. intros Hp st. apply Hp. Qed.

Lemma preserves_free_f {B : Type} (p : fptr) (proj : globals -> B) :
  host_view proj ->
  (forall v st, proj (set_fptrs (upd p v (fptrs st)) st) = proj st) ->
  preserves (free_f p) proj.
Proof.
  intros Hv Hp. unfold free_f.
  apply preserves_bind; [apply preserves_get|]. intros old.
  apply preserves_bind; [apply preserves_cudaFree; exact Hv|]. intros new.
  apply preserves_set_fptr. exact Hp.
Qed.

Lemma preserves_free_uc {B : Type} (p : ucptr) (proj : globals -> B) :
  host_view proj ->
  (forall v st, proj (set_ucptrs (upd p v (ucptrs st)) st) = proj st) ->
  preserves (free_uc p) proj.
Proof.
  intros Hv Hp. unfold free_uc.
  apply preserves_bind; [apply preserves_get|]. intros old.
  apply preserves_bind; [apply preserves_cudaFree; exact Hv|]. intros new.
  apply preserves_set_ucptr. exact Hp.
Qed.

Lemma preserves_free_cc {B : Type} (p : ccptr) (proj : globals -> B) :
  host_view proj ->
  (forall v st, proj (set_ccptrs (upd p v (ccptrs st)) st) = proj st) ->
  preserves (free_cc p) proj.
Proof.
  intros Hv Hp. unfold free_cc.
  apply preserves_bind; [apply preserves_get|]. intros old.
  apply preserves_bind; [apply preserves_cudaFree; exact Hv|]. intros new.
  apply preserves_set_ccptr. exact Hp.
Qed.

Lemma preserves_upload_f {B : Type} (p : fptr) (h : option (list float))
    (bytes : Z) (proj : globals -> B) :
  host_view proj ->
  (forall v st, proj (set_fptrs (upd p v (fptrs st)) st) = proj st) ->
  preserves (upload_f p h bytes) proj.
Proof.
  intros Hv Hp. unfold upload_f.
  apply preserves_bind; [apply preserves_get|]. intros d.
  apply preserves_bind; [apply preserves_cudaMemcpy_H2D; exact Hv|]. intros r.
  apply preserves_bind; [apply preserves_set_fptr; exact Hp|]. intros _.
  apply preserves_ret.
Qed.

Lemma preserves_upload_uc {B : Type} (p : ucptr) (h : option (list Z))
    (bytes : Z) (proj : globals -> B) :
  host_view proj ->
  (forall v st, proj (set_ucptrs (upd p v (ucptrs st)) st) = proj st) ->
  preserves (upload_uc p h bytes) proj.
Proof.
  intros Hv Hp. unfold upload_uc.
  apply preserves_bind; [apply preserves_get|]. intros d.
  apply preserves_bind; [apply preserves_cudaMemcpy_H2D; exact Hv|]. intros r.
  apply preserves_bind; [apply preserves_set_ucptr; exact Hp|]. intros _.
  apply preserves_ret.
Qed.

Lemma preserves_download_f {B : Type} (h : list float) (p : fptr) (bytes : Z)
    (proj : globals -> B) :
  host_view proj -> preserves (download_f h p bytes) proj.
Proof.
  intros Hv. unfold download_f.
  apply preserves_bind; [apply preserves_get|]. intros d.
  apply preserves_bind; [apply preserves_cudaMemcpy_D2H; exact Hv|]. intros r.
  apply preserves_ret.
Qed.

Lemma preserves_download_uc {B : Type} (h : list Z) (p : ucptr) (bytes : Z)
    (proj : globals -> B) :
  host_view proj -> preserves (download_uc h p bytes) proj.
Proof.
  intros Hv. unfold download_uc.
  apply preserves_bind; [apply preserves_get|]. intros d.
  apply preserves_bind; [apply preserves_cudaMemcpy_D2H; exact Hv|]. intros r.
  apply preserves_ret.
Qed.

Lemma preserves_copy_f {B : Type} (dst src : fptr) (bytes : Z)
    (proj : globals -> B) :
  host_view proj ->
  (forall v st, proj (set_fptrs (upd dst v (fptrs st)) st) = proj st) ->
  preserves (copy_f dst src bytes) proj.
Proof.
  intros Hv Hp. unfold copy_f.
  apply preserves_bind; [apply preserves_get|]. intros d.
  apply preserves_bind; [apply preserves_get|]. intros s.
  apply preserves_bind; [apply preserves_cudaMemcpy_D2D; exact Hv|]. intros r.
  apply preserves_set_fptr. exact Hp.
Qed.

Lemma preserves_handle_errors {B : Type} (fn : string) (proj : globals -> B) :
  host_view proj ->
  (forall v st, proj (set_status v st) = proj st) ->
  preserves (handle_errors fn) proj.
Proof.
  intros Hv Hs. unfold handle_errors.
  apply preserves_bind; [apply preserves_cudaGetLastError; exact Hv|]. intros e.
  apply preserves_bind; [apply preserves_modify; intros; apply Hs|]. intros _.
  apply preserves_bind;
    [apply preserves_when, preserves_log; apply Hv|]. intros _.
  apply preserves_ret.
Qed.

End PointerFrames.

Ltac pres_ptr_step :=
  lazymatch goal with
  | |- preserves (set_fptr _ _) _ => apply preserves_set_fptr; ignores_tac
  | |- preserves (set_ucptr _ _) _ => apply preserves_set_ucptr; ignores_tac
  | |- preserves (set_ccptr _ _) _ => apply preserves_set_ccptr; ignores_tac
  | |- preserves (set_int _ _) _ => apply preserves_set_int; ignores_tac
  | |- preserves (free_f _) _ =>
      apply preserves_free_f; [host_view_tac|ignores_tac]
  | |- preserves (free_uc _) _ =>
      apply preserves_free_uc; [host_view_tac|ignores_tac]
  | |- preserves (free_cc _) _ =>
      apply preserves_free_cc; [host_view_tac|ignores_tac]
  | |- preserves (upload_f _ _ _) _ =>
      apply preserves_upload_f; [host_view_tac|ignores_tac]
  | |- preserves (upload_uc _ _ _) _ =>
      apply preserves_upload_uc; [host_view_tac|ignores_tac]
  | |- preserves (download_f _ _ _) _ =>
      apply preserves_download_f; host_view_tac
  | |- preserves (download_uc _ _ _) _ =>
      apply preserves_download_uc; host_view_tac
  | |- preserves (copy_f _ _ _) _ =>
      apply preserves_copy_f; [host_view_tac|ignores_tac]
  | |- preserves (handle_errors _) _ =>
      apply preserves_handle_errors; [host_view_tac|ignores_tac]
  | |- preserves (cudaMalloc _ _ _ _ _) _ =>
      apply preserves_cudaMalloc; host_view_tac
  | |- preserves (cudaFree _ _ _) _ =>
      apply preserves_cudaFree; host_view_tac
  | |- preserves (cudaMemcpy_H2D _ _ _ _) _ =>
      apply preserves_cudaMemcpy_H2D; host_view_tac
  | |- preserves (cudaMemcpy_D2H _ _ _ _) _ =>
      apply preserves_cudaMemcpy_D2H; host_view_tac
  | |- preserves (cudaMemcpy_D2D _ _ _ _) _ =>
      apply preserves_cudaMemcpy_D2D; host_view_tac
  | |- preserves (cudaMemset0 _ _ _ _) _ =>
      apply preserves_cudaMemset0; host_view_tac
  | |- preserves launch_failure _ =>
      apply preserves_launch_failure; host_view_tac
  end.
Ltac frame := repeat first [pres_ptr_step | pres_step | pres_leaf].

(** *** Session shutdown *)

Section Shutdown.
Context `{FloatOps} `{Header} `{!Kernels}.

Lemma is_live_invalidate {A : Type} (p : devptr A) :
  is_live (invalidate p) = false.
Proof. destruct p; reflexivity. Qed.

Lemma invalidate_null {A : Type} (p : devptr A) :
  p = NullPtr -> invalidate p = NullPtr.
Proof. intros ->. reflexivity. Qed.

Lemma release_buffers_flags :
  preserves release_buffers
    (fun st => (ApplyLUT_b st, UseAberrationCorr_b st, UseLUTPol_b st)).
Proof. unfold release_buffers. frame. Qed.

Lemma release_LUT_null (st : globals) :
  ApplyLUT_b st = true -> ucptrs (snd (release_LUT st)) d_LUT_uc = NullPtr.
Proof.
  intros Hb. unfold release_LUT, bind, get, when. cbn. rewrite Hb.
  unfold set_ucptr, modify. cbn. upd_simpl. reflexivity.
Qed.

Lemma release_aberration_null (st : globals) :
  UseAberrationCorr_b st = true ->
  fptrs (snd (release_aberration st)) d_AberrationCorr_f = NullPtr.
Proof.
  intros Hb. unfold release_aberration, bind, get, when. cbn. rewrite Hb.
  unfold set_fptr, modify. cbn. upd_simpl. reflexivity.
Qed.

Lemma release_polynomial_null (st : globals) :
  UseLUTPol_b st = true ->
  fptrs (snd (release_polynomial st)) d_LUTPolCoeff_f = NullPtr.
Proof.
  intros Hb. unfold release_polynomial, bind, get, when. cbn. rewrite Hb.
  unfold set_fptr, modify. cbn. upd_simpl. reflexivity.
Qed.

Lemma release_LUT_frame :
  preserves release_LUT
    (fun st => (UseAberrationCorr_b st, UseLUTPol_b st)).
Proof. unfold release_LUT. frame. Qed.

Lemma release_aberration_frame :
  preserves release_aberration
    (fun st => (UseLUTPol_b st, ucptrs st d_LUT_uc)).
Proof. unfold release_aberration. frame. Qed.

Lemma release_polynomial_frame :
  preserves release_polynomial
    (fun st => (ucptrs st d_LUT_uc, fptrs st d_AberrationCorr_f)).
Proof. unfold release_polynomial. frame. Qed.

Lemma cudaDeviceReset_state (st : globals) :
  let st' := snd (cudaDeviceReset st) in
  (forall p, fptrs st' p = invalidate (fptrs st p)) /\
  (forall p, ucptrs st' p = invalidate (ucptrs st p)) /\
  (forall p, ccptrs st' p = invalidate (ccptrs st p)) /\
  d_spot_index st' = invalidate (d_spot_index st) /\
  plan st' = None /\ mem_avail st' = mem_total st'.
Proof. cbn. auto 10. Qed.

Lemma bind_state {A B : Type} (m : M A) (k : A -> M B) (st : globals) :
  bind m k st = k (fst (m st)) (snd (m st)).
Proof. reflexivity. Qed.

Lemma bind_eval {A B : Type} (m : M A) (k : A -> M B) (st st' : globals)
    (a : A) :
  m st = (a, st') -> bind m k st = k a st'.
Proof. unfold bind. intros ->. reflexivity. Qed.

Lemma bind_get {A B : Type} (f : globals -> A) (k : A -> M B) (st : globals) :
  bind (get f) k st = k (f st) st.
Proof. reflexivity. Qed.

Lemma bind_modify {B : Type} (f : globals -> globals) (k : unit -> M B)
    (st : globals) :
  bind (modify f) k st = k tt (f st).
Proof. reflexivity. Qed.

Lemma shutdown_tail_frame (e : Z) :
  preserves (slm <- get EnableSLM_b ;; when slm (log EvShutDownSLM) ;; ret e)
    (fun st => (fptrs st, ucptrs st, ccptrs st, d_spot_index st, plan st,
                mem_avail st, mem_total st)).
Proof. frame. Qed.

Lemma handle_errors_pointers (fn : string) :
  preserves (handle_errors fn) (fun st => (fptrs st, ucptrs st)).
Proof. frame. Qed.

(** C3, as the code has it.  When [stopCUDAandSLM] returns no device buffer
    is allocated any more, the FFT plan is gone and all device memory is
    free again (what the function does not release one by one goes with the
    device reset at its end).  The pointer to the look-up table, to the
    aberration map and to the polynomial table is NULL on return when the
    flag of that correction was on at the call. *)
Theorem stopCUDAandSLM_releases (st : globals) :
  let st' := snd (stopCUDAandSLM st) in
  (forall p, is_live (fptrs st' p) = false) /\
  (forall p, is_live (ucptrs st' p) = false) /\
  (forall p, is_live (ccptrs st' p) = false) /\
  is_live (d_spot_index st') = false /\
  plan st' = None /\
  mem_avail st' = mem_total st' /\
  (ApplyLUT_b st = true -> ucptrs st' d_LUT_uc = NullPtr) /\
  (UseAberrationCorr_b st = true -> fptrs st' d_AberrationCorr_f = NullPtr) /\
  (UseLUTPol_b st = true -> fptrs st' d_LUTPolCoeff_f = NullPtr).
Proof.
  intros st'.
  pose (st1 := snd (release_buffers st)).
  pose (sa := snd (release_LUT st1)).
  pose (sb := snd (release_aberration sa)).
  pose (st2 := snd (release_polynomial sb)).
  pose (r3 := handle_errors "stopCUDAandSLM" st2).
  pose (st4 := snd (cudaDeviceReset (snd r3))).
  assert (Est' : st' =
            snd ((slm <- get EnableSLM_b ;; when slm (log EvShutDownSLM) ;;
                  ret (fst r3)) st4)).
  { subst st' st4 r3 st2 sb sa st1.
    unfold stopCUDAandSLM, release_corrections.
    repeat (rewrite bind_state; cbv beta). reflexivity. }
  assert (Htail : (fptrs st', ucptrs st', ccptrs st', d_spot_index st',
                   plan st', mem_avail st', mem_total st') =
                  (fptrs st4, ucptrs st4, ccptrs st4, d_spot_index st4,
                   plan st4, mem_avail st4, mem_total st4)).
  { rewrite Est'. exact (shutdown_tail_frame (fst r3) st4). }
  assert (Hreset : (forall p, fptrs st4 p = invalidate (fptrs (snd r3) p)) /\
                   (forall p, ucptrs st4 p = invalidate (ucptrs (snd r3) p)) /\
                   (forall p, ccptrs st4 p = invalidate (ccptrs (snd r3) p)) /\
                   d_spot_index st4 = invalidate (d_spot_index (snd r3)) /\
                   plan st4 = None /\ mem_avail st4 = mem_total st4)
    by exact (cudaDeviceReset_state (snd r3)).
  assert (H3 : (fptrs (snd r3), ucptrs (snd r3)) = (fptrs st2, ucptrs st2))
    by exact (handle_errors_pointers "stopCUDAandSLM" st2).
  assert (Hflags : (ApplyLUT_b st1, UseAberrationCorr_b st1, UseLUTPol_b st1) =
                   (ApplyLUT_b st, UseAberrationCorr_b st, UseLUTPol_b st))
    by exact (release_buffers_flags st).
  assert (Ha : (UseAberrationCorr_b sa, UseLUTPol_b sa) =
               (UseAberrationCorr_b st1, UseLUTPol_b st1))
    by exact (release_LUT_frame st1).
  assert (Hb : (UseLUTPol_b sb, ucptrs sb d_LUT_uc) =
               (UseLUTPol_b sa, ucptrs sa d_LUT_uc))
    by exact (release_aberration_frame sa).
  assert (Hc : (ucptrs st2 d_LUT_uc, fptrs st2 d_AberrationCorr_f) =
               (ucptrs sb d_LUT_uc, fptrs sb d_AberrationCorr_f))
    by exact (release_polynomial_frame sb).
  assert (Hlut : ApplyLUT_b st1 = true -> ucptrs sa d_LUT_uc = NullPtr)
    by exact (release_LUT_null st1).
  assert (Hab : UseAberrationCorr_b sa = true ->
                fptrs sb d_AberrationCorr_f = NullPtr)
    by exact (release_aberration_null sa).
  assert (Hpol : UseLUTPol_b sb = true -> fptrs st2 d_LUTPolCoeff_f = NullPtr)
    by exact (release_polynomial_null sb).
  clearbody st' st4 r3 st2 sb sa st1. clear Est'.
  injection Htail as Hf Hu Hcc Hi Hp Hm Hmt.
  destruct Hreset as (Rf & Ru & Rc & Ri & Rp & Rm).
  injection H3 as H3f H3u.
  injection Hflags as Hlut1 Hab1 Hpol1.
  injection Ha as Hab_a Hpol_a.
  injection Hb as Hpol_b Hlut_b.
  injection Hc as Hlut_c Hab_c.
  repeat split.
  - intros p. rewrite Hf, Rf. apply is_live_invalidate.
  - intros p. rewrite Hu, Ru. apply is_live_invalidate.
  - intros p. rewrite Hcc, Rc. apply is_live_invalidate.
  - rewrite Hi, Ri. apply is_live_invalidate.
  - rewrite Hp. exact Rp.
  - rewrite Hm, Hmt, Rm. reflexivity.
  - intros Hon. rewrite Hu, Ru. apply invalidate_null.
    rewrite H3u, Hlut_c, Hlut_b. apply Hlut. congruence.
  - intros Hon. rewrite Hf, Rf. apply invalidate_null.
    rewrite H3f, Hab_c. apply Hab. congruence.
  - intros Hon. rewrite Hf, Rf. apply invalidate_null.
    rewrite H3f. apply Hpol. congruence.
Qed.

End Shutdown.

(** *** Copies that take place *)

Section Copies.
Context `{FloatOps} `{Header} `{!Kernels}.

Lemma elems_zero (esz : Z) : elems esz 0 = 0%nat.
Proof. unfold elems. rewrite Zdiv_0_l. reflexivity. Qed.

Lemma cudaMemcpy_D2D_ok {A : Type} (esz : Z) (d s : list A) (bytes : Z)
    (st : globals) :
  (elems esz bytes <= length d)%nat -> (elems esz bytes <= length s)%nat ->
  cudaMemcpy_D2D esz (Live d) (Live s) bytes st =
  (cudaSuccess,
   Live (take (elems esz bytes) s ++ drop (elems esz bytes) d), st).
Proof.
  intros Hd Hs. unfold cudaMemcpy_D2D.
  destruct (bytes =? 0) eqn:E.
  - apply Z.eqb_eq in E. subst bytes. rewrite elems_zero. reflexivity.
  - apply Nat.leb_le in Hd, Hs. rewrite Hd, Hs. reflexivity.
Qed.

Lemma cudaMemcpy_H2D_ok {A : Type} (esz : Z) (d s : list A) (bytes : Z)
    (st : globals) :
  (elems esz bytes <= length d)%nat -> (elems esz bytes <= length s)%nat ->
  cudaMemcpy_H2D esz (Live d) (Some s) bytes st =
  (cudaSuccess,
   Live (take (elems esz bytes) s ++ drop (elems esz bytes) d), st).
Proof.
  intros Hd Hs. unfold cudaMemcpy_H2D.
  destruct (bytes =? 0) eqn:E.
  - apply Z.eqb_eq in E. subst bytes. rewrite elems_zero. reflexivity.
  - apply Nat.leb_le in Hd, Hs. rewrite Hd, Hs. reflexivity.
Qed.

Lemma cudaMemcpy_D2H_ok {A : Type} (esz : Z) (d s : list A) (bytes : Z)
    (st : globals) :
  (elems esz bytes <= length d)%nat -> (elems esz bytes <= length s)%nat ->
  cudaMemcpy_D2H esz d (Live s) bytes st =
  (cudaSuccess, take (elems esz bytes) s ++ drop (elems esz bytes) d, st).
Proof.
  intros Hd Hs. unfold cudaMemcpy_D2H.
  destruct (bytes =? 0) eqn:E.
  - apply Z.eqb_eq in E. subst bytes. rewrite elems_zero. reflexivity.
  - apply Nat.leb_le in Hd, Hs. rewrite Hs, Hd. reflexivity.
Qed.

Lemma copy_f_ok (dst src : fptr) (d s : list float) (bytes : Z) (st : globals) :
  fptrs st dst = Live d -> fptrs st src = Live s ->
  (elems sizeof_float bytes <= length d)%nat ->
  (elems sizeof_float bytes <= length s)%nat ->
  copy_f dst src bytes st =
  (tt, set_fptrs
         (upd dst (Live (take (elems sizeof_float bytes) s ++
                         drop (elems sizeof_float bytes) d)) (fptrs st)) st).
Proof.
  intros Hdst Hsrc Hd Hs. unfold copy_f, bind, get. cbn.
  rewrite Hdst, Hsrc, (cudaMemcpy_D2D_ok _ _ _ _ _ Hd Hs). reflexivity.
Qed.

Lemma upload_f_ok (p : fptr) (d h : list float) (bytes : Z) (st : globals) :
  fptrs st p = Live d ->
  (elems sizeof_float bytes <= length d)%nat ->
  (elems sizeof_float bytes <= length h)%nat ->
  upload_f p (Some h) bytes st =
  (cudaSuccess,
   set_fptrs
     (upd p (Live (take (elems sizeof_float bytes) h ++
                   drop (elems sizeof_float bytes) d)) (fptrs st)) st).
Proof.
  intros Hp Hd Hh. unfold upload_f, bind, get. cbn.
  rewrite Hp, (cudaMemcpy_H2D_ok _ _ _ _ _ Hd Hh). reflexivity.
Qed.

Lemma download_f_ok (h : list float) (p : fptr) (s : list float) (bytes : Z)
    (st : globals) :
  fptrs st p = Live s ->
  (elems sizeof_float bytes <= length h)%nat ->
  (elems sizeof_float bytes <= length s)%nat ->
  download_f h p bytes st =
  (take (elems sizeof_float bytes) s ++ drop (elems sizeof_float bytes) h, st).
Proof.
  intros Hp Hh Hs. unfold download_f, bind, get. cbn.
  rewrite Hp, (cudaMemcpy_D2H_ok _ _ _ _ _ Hh Hs). reflexivity.
Qed.

Lemma download_uc_ok (h : list Z) (p : ucptr) (s : list Z) (bytes : Z)
    (st : globals) :
  ucptrs st p = Live s ->
  (elems sizeof_uchar bytes <= length h)%nat ->
  (elems sizeof_uchar bytes <= length s)%nat ->
  download_uc h p bytes st =
  (take (elems sizeof_uchar bytes) s ++ drop (elems sizeof_uchar bytes) h, st).
Proof.
  intros Hp Hh Hs. unfold download_uc, bind, get. cbn.
  rewrite Hp, (cudaMemcpy_D2H_ok _ _ _ _ _ Hh Hs). reflexivity.
Qed.

Lemma upload_spots_frame (xs ys zs Is : list float) (N_spots : Z) :
  preserves (upload_spots xs ys zs Is N_spots)
    (fun st => (fptrs st d_weights, fptrs st d_weights_start,
                fptrs st d_pSLM_f, fptrs st d_pSLMstart_f, fptrs st d_amps,
                ucptrs st, ccptrs st, d_spot_index st,
                ints st memsize_SLMf, ints st memsize_SLMuc,
                ints st memsize_SLMcc, ints st N_pixels, ints st data_w)).
Proof. unfold upload_spots. frame. Qed.

Lemma upload_spots_memsize (xs ys zs Is : list float) (N_spots : Z)
    (st : globals) :
  ints (snd (upload_spots xs ys zs Is N_spots st)) memsize_spotsf =
  to_int (size_mul N_spots sizeof_float).
Proof.
  unfold upload_spots. rewrite bind_state. cbv beta.
  match goal with
  | |- ints (snd (?rest ?st1)) _ = _ =>
      assert (Hp : preserves rest (fun st => ints st memsize_spotsf)) by frame;
      rewrite (Hp st1)
  end.
  cbn. upd_simpl. reflexivity.
Qed.

End Copies.

(** *** The Fresnel path: what the iterations start from *)

Section FresnelSeed.
Context `{FloatOps} `{Header} `{!Kernels}.

Lemma Fresnel_seed_state (st : globals) (w ws p q : list float) (n : nat) :
  fptrs st d_weights = Live w -> fptrs st d_weights_start = Live ws ->
  fptrs st d_pSLM_f = Live p -> fptrs st d_pSLMstart_f = Live q ->
  elems sizeof_float (to_size_t (ints st memsize_spotsf)) = n ->
  (n <= length w)%nat -> (n <= length ws)%nat ->
  elems sizeof_float (to_size_t (ints st memsize_SLMf)) = length p ->
  length q = length p ->
  let seeded := snd (Fresnel_seed st) in
  fptrs seeded d_weights = Live (take n ws ++ drop n w) /\
  fptrs seeded d_pSLMstart_f = Live p /\
  fptrs seeded d_pSLM_f = Live p.
Proof.
  intros Hw Hws Hp Hq Hn Hlw Hlws Hm Hlq.
  unfold Fresnel_seed. rewrite bind_get.
  rewrite (bind_eval _ _ _ _ _
             (copy_f_ok d_weights d_weights_start w ws _ st Hw Hws
                ltac:(rewrite Hn; assumption) ltac:(rewrite Hn; assumption))).
  rewrite bind_get. rewrite Hn.
  set (st1 := set_fptrs _ st).
  assert (Hp1 : fptrs st1 d_pSLM_f = Live p)
    by (subst st1; cbn; upd_simpl; exact Hp).
  assert (Hq1 : fptrs st1 d_pSLMstart_f = Live q)
    by (subst st1; cbn; upd_simpl; exact Hq).
  assert (Hm1 : ints st1 memsize_SLMf = ints st memsize_SLMf) by reflexivity.
  rewrite (copy_f_ok d_pSLMstart_f d_pSLM_f q p _ st1 Hq1 Hp1)
    by (rewrite Hm1, Hm; lia).
  rewrite Hm1, Hm. cbn [fst snd].
  subst st1. cbn. upd_simpl.
  rewrite (take_ge p) by lia. rewrite (drop_ge q) by lia. rewrite app_nil_r.
  auto.
Qed.

(** C2, as the code has it.  When the Fresnel method runs, the iterations
    start from a state in which the first [N_spots] working weights are
    those of the session's buffer [d_weights_start] (filled at start-up; the
    caller's [h_weights] is not read) and the reference field is a copy of
    the current phase field. *)
Theorem GenerateHologram_Fresnel_seed (pat : list Z)
    (xs ys zs Is : list float) (N_spots N_iterations : Z) (hw : list float)
    (alpha : float) (method : Z) (st : globals) (w ws p q : list float) :
  snd (clamp_spots N_spots method) = 1 ->
  let N := fst (clamp_spots N_spots method) in
  let n := Z.to_nat N in
  0 <= N < 2 ^ 29 ->
  fptrs st d_weights = Live w -> fptrs st d_weights_start = Live ws ->
  fptrs st d_pSLM_f = Live p -> fptrs st d_pSLMstart_f = Live q ->
  (n <= length w)%nat -> (n <= length ws)%nat ->
  elems sizeof_float (to_size_t (ints st memsize_SLMf)) = length p ->
  length q = length p ->
  let seeded := snd (Fresnel_seed (snd (upload_spots xs ys zs Is N st))) in
  fptrs seeded d_weights = Live (take n ws ++ drop n w) /\
  fptrs seeded d_pSLMstart_f = Live p /\
  fptrs seeded d_pSLM_f = Live p /\
  GenerateHologram pat xs ys zs Is N_spots N_iterations hw alpha method st =
  (out <- Fresnel_run pat hw N N_iterations
            (fmul (fmul alpha (float_of_int 2)) M_PI) ;;
   finish_hologram out) seeded.
Proof.
  intros Hmeth N n HN Hw Hws Hp Hq Hlw Hlws Hm Hlq seeded.
  pose (st1 := snd (upload_spots xs ys zs Is N st)).
  assert (Hfr : (fptrs st1 d_weights, fptrs st1 d_weights_start,
                 fptrs st1 d_pSLM_f, fptrs st1 d_pSLMstart_f, fptrs st1 d_amps,
                 ucptrs st1, ccptrs st1, d_spot_index st1,
                 ints st1 memsize_SLMf, ints st1 memsize_SLMuc,
                 ints st1 memsize_SLMcc, ints st1 N_pixels, ints st1 data_w) =
                (fptrs st d_weights, fptrs st d_weights_start,
                 fptrs st d_pSLM_f, fptrs st d_pSLMstart_f, fptrs st d_amps,
                 ucptrs st, ccptrs st, d_spot_index st,
                 ints st memsize_SLMf, ints st memsize_SLMuc,
                 ints st memsize_SLMcc, ints st N_pixels, ints st data_w))
    by exact (upload_spots_frame xs ys zs Is N st).
  assert (Hsz : ints st1 memsize_spotsf = to_int (size_mul N sizeof_float))
    by exact (upload_spots_memsize xs ys zs Is N st).
  assert (Hseed : seeded = snd (Fresnel_seed st1)) by reflexivity.
  assert (Hcall :
    GenerateHologram pat xs ys zs Is N_spots N_iterations hw alpha method st =
    (out <- Fresnel_run pat hw N N_iterations
              (fmul (fmul alpha (float_of_int 2)) M_PI) ;;
     finish_hologram out) seeded).
  { unfold GenerateHologram. rewrite Hmeth.
    change (1 =? 0) with false. change (1 =? 1) with true. cbv iota.
    unfold Fresnel_method. subst seeded st1.
    repeat (rewrite bind_state; cbv beta). reflexivity. }
  clearbody seeded st1.
  injection Hfr as Hw1 Hws1 Hp1 Hq1 _ _ _ _ Hm1 _ _ _ _.
  assert (Hn1 : elems sizeof_float (to_size_t (ints st1 memsize_spotsf)) = n)
    by (rewrite Hsz; apply elems_capacity; exact HN).
  assert (Hm1' : elems sizeof_float (to_size_t (ints st1 memsize_SLMf)) =
                 length p) by (rewrite Hm1; exact Hm).
  rewrite Hw in Hw1. rewrite Hws in Hws1. rewrite Hp in Hp1. rewrite Hq in Hq1.
  pose proof (Fresnel_seed_state st1 w ws p q n Hw1 Hws1 Hp1 Hq1 Hn1 Hlw Hlws
                Hm1' Hlq) as Hs.
  cbv zeta in Hs. rewrite <- Hseed in Hs.
  destruct Hs as (S1 & S2 & S3). auto.
Qed.

End FresnelSeed.

(** *** The Fourier path: uniform weights *)

Section FourierSeed.
Context `{FloatOps} `{Header} `{!Kernels}.

Lemma store_loop_spec (count i : nat) (w : float) (h : list float) :
  (i + count <= length h)%nat ->
  store_loop count i w h = take i h ++ replicate count w ++ drop (i + count) h.
Proof.
  revert i h. induction count as [|count IH]; intros i h Hlen; cbn [store_loop].
  - cbn. rewrite Nat.add_0_r, take_drop. reflexivity.
  - rewrite IH by (rewrite length_insert; lia).
    rewrite (take_S_r _ i w) by (apply list_lookup_insert_eq; lia).
    rewrite take_insert_ge by lia.
    rewrite drop_insert_lt by lia.
    rewrite <- app_assoc. cbn.
    replace (S (i + count)) with (i + S count)%nat by lia. reflexivity.
Qed.

Lemma store_loop_prefix (n : nat) (w : float) (h : list float) :
  (n <= length h)%nat -> store_loop n 0 w h = replicate n w ++ drop n h.
Proof. intros Hn. rewrite store_loop_spec by lia. reflexivity. Qed.

Lemma launch_XYtoIndex_frame (N_spots : Z) :
  preserves (launch_XYtoIndex N_spots) (fun st => fptrs st).
Proof.
  unfold launch_XYtoIndex. apply preserves_bind; [frame|]. intros _.
  intros st. exec; reflexivity.
Qed.

(** After the upload of the weights nothing in the seeding touches the float
    buffers. *)
Lemma Fourier_seed_tail_frame (N_spots : Z) (r : float * list float) :
  preserves
    (szcc <- get (fun st => to_size_t (ints st memsize_SLMcc)) ;;
     d <- get (fun st => ccptrs st d_FFTd_cc) ;;
     d' <- cudaMemset0 sizeof_cufftComplex (float_of_int 0, float_of_int 0)
             d szcc ;;
     set_ccptr d_FFTd_cc d' ;;
     launch_XYtoIndex N_spots ;;
     ret r)
    (fun st => fptrs st).
Proof.
  repeat first [ apply launch_XYtoIndex_frame | pres_ptr_step | pres_step ].
Qed.

Lemma Fourier_seed_state (hw : list float) (N : Z) (st : globals)
    (w : list float) :
  0 <= N < 2 ^ 29 ->
  fptrs st d_weights = Live w ->
  (Z.to_nat N <= length w)%nat -> (Z.to_nat N <= length hw)%nat ->
  let weight := fdiv (float_of_int 1) (float_of_int N) in
  let r := Fourier_seed hw N st in
  fptrs (snd r) d_weights = Live (replicate (Z.to_nat N) weight ++
                                  drop (Z.to_nat N) w) /\
  snd (fst r) = replicate (Z.to_nat N) weight ++ drop (Z.to_nat N) hw /\
  fst (fst r) = fmul (float_of_int (ints st N_pixels)) (fsqrt weight) /\
  forall hw' : list float,
    (Z.to_nat N <= length hw')%nat ->
    snd (Fourier_seed hw' N st) = snd r.
Proof.
  intros HN Hw Hlw Hlh weight r.
  assert (Hel : elems sizeof_float (size_mul N sizeof_float) = Z.to_nat N).
  { change (2 ^ 29) with 536870912 in HN.
    rewrite size_mul_small; unfold sizeof_float;
      try (change (2 ^ 64) with 18446744073709551616); try lia.
    unfold elems. f_equal. apply Z.div_mul. lia. }
  assert (Hgen : forall h : list float,
            (Z.to_nat N <= length h)%nat ->
            Fourier_seed h N st =
            (szcc <- get (fun st => to_size_t (ints st memsize_SLMcc)) ;;
             d <- get (fun st => ccptrs st d_FFTd_cc) ;;
             d' <- cudaMemset0 sizeof_cufftComplex
                     (float_of_int 0, float_of_int 0) d szcc ;;
             set_ccptr d_FFTd_cc d' ;;
             launch_XYtoIndex N ;;
             ret (fmul (float_of_int (ints st N_pixels)) (fsqrt weight),
                  replicate (Z.to_nat N) weight ++ drop (Z.to_nat N) h))
              (set_fptrs
                 (upd d_weights
                    (Live (replicate (Z.to_nat N) weight ++
                           drop (Z.to_nat N) w)) (fptrs st)) st)).
  { intros h Hh. unfold Fourier_seed. rewrite bind_get. cbv zeta.
    fold weight.
    rewrite (store_loop_prefix (Z.to_nat N) weight h Hh).
    assert (Hup := upload_f_ok d_weights w
                     (replicate (Z.to_nat N) weight ++ drop (Z.to_nat N) h)
                     (size_mul N sizeof_float) st Hw).
    rewrite Hel in Hup.
    specialize (Hup Hlw
                  ltac:(rewrite length_app, length_replicate; lia)).
    rewrite (bind_eval _ _ _ _ _ Hup).
    rewrite take_app_length' by (rewrite length_replicate; reflexivity).
    reflexivity. }
  pose proof (Hgen hw Hlh) as Hr. fold r in Hr.
  set (st1 := set_fptrs _ st) in Hr, Hgen.
  assert (Hfr : forall h : list float,
            (Z.to_nat N <= length h)%nat ->
            fptrs (snd (Fourier_seed h N st)) = fptrs st1).
  { intros h Hh. rewrite (Hgen h Hh). apply (Fourier_seed_tail_frame N _ st1). }
  assert (Hfr_r : fptrs (snd r) = fptrs st1) by exact (Hfr hw Hlh).
  clearbody r. subst r.
  split; [|split; [|split]].
  - rewrite Hfr_r. subst st1. cbn. upd_simpl. reflexivity.
  - repeat (rewrite bind_state; cbv beta). reflexivity.
  - repeat (rewrite bind_state; cbv beta). reflexivity.
  - intros hw' Hh'. rewrite (Hgen hw' Hh').
    repeat (rewrite bind_state; cbv beta). reflexivity.
Qed.

(** C5.  When the Fourier method runs, the iterations start from a state in
    which each of the first [N_spots] working weights is [1/N_spots]; the
    desired amplitude is [N_pixels * sqrt(1/N_spots)].  The values the caller
    has in [h_weights] play no part: the state is the same for any other
    contents, and the array itself has been overwritten with the uniform
    weight before it serves to return the amplitudes. *)
Theorem GenerateHologram_Fourier_seed (pat : list Z)
    (xs ys zs Is : list float) (N_spots N_iterations : Z) (hw : list float)
    (alpha : float) (method : Z) (st : globals) (w : list float) :
  snd (clamp_spots N_spots method) = 2 ->
  let N := fst (clamp_spots N_spots method) in
  let n := Z.to_nat N in
  0 <= N < 2 ^ 29 ->
  fptrs st d_weights = Live w ->
  (n <= length w)%nat -> (n <= length hw)%nat ->
  let weight := fdiv (float_of_int 1) (float_of_int N) in
  let uploaded := snd (upload_spots xs ys zs Is N st) in
  let r := Fourier_seed hw N uploaded in
  fptrs (snd r) d_weights = Live (replicate n weight ++ drop n w) /\
  snd (fst r) = replicate n weight ++ drop n hw /\
  fst (fst r) = fmul (float_of_int (ints st N_pixels)) (fsqrt weight) /\
  (forall hw' : list float,
     (n <= length hw')%nat -> snd (Fourier_seed hw' N uploaded) = snd r) /\
  GenerateHologram pat xs ys zs Is N_spots N_iterations hw alpha method st =
  (out <- Fourier_run pat (snd (fst r)) N N_iterations (fst (fst r))
            (fmul (fmul alpha (float_of_int 2)) M_PI) ;;
   finish_hologram out) (snd r).
Proof.
  intros Hmeth N n HN Hw Hlw Hlh weight uploaded r.
  assert (Hfr : (fptrs uploaded d_weights, fptrs uploaded d_weights_start,
                 fptrs uploaded d_pSLM_f, fptrs uploaded d_pSLMstart_f,
                 fptrs uploaded d_amps,
                 ucptrs uploaded, ccptrs uploaded, d_spot_index uploaded,
                 ints uploaded memsize_SLMf, ints uploaded memsize_SLMuc,
                 ints uploaded memsize_SLMcc, ints uploaded N_pixels,
                 ints uploaded data_w) =
                (fptrs st d_weights, fptrs st d_weights_start,
                 fptrs st d_pSLM_f, fptrs st d_pSLMstart_f, fptrs st d_amps,
                 ucptrs st, ccptrs st, d_spot_index st,
                 ints st memsize_SLMf, ints st memsize_SLMuc,
                 ints st memsize_SLMcc, ints st N_pixels, ints st data_w))
    by exact (upload_spots_frame xs ys zs Is N st).
  assert (Hcall :
    GenerateHologram pat xs ys zs Is N_spots N_iterations hw alpha method st =
    (out <- Fourier_run pat (snd (fst r)) N N_iterations (fst (fst r))
              (fmul (fmul alpha (float_of_int 2)) M_PI) ;;
     finish_hologram out) (snd r)).
  { unfold GenerateHologram. rewrite Hmeth.
    change (2 =? 0) with false. change (2 =? 1) with false.
    change (2 =? 2) with true. cbv iota.
    unfold Fourier_method. subst r uploaded.
    repeat (rewrite bind_state; cbv beta). reflexivity. }
  clearbody uploaded.
  injection Hfr as Hw1 _ _ _ _ _ _ _ _ _ _ Hnp _.
  rewrite Hw in Hw1.
  pose proof (Fourier_seed_state hw N uploaded w HN Hw1 Hlw Hlh) as Hs.
  cbv zeta in Hs. fold weight r in Hs. rewrite Hnp in Hs.
  destruct Hs as (S1 & S2 & S3 & S4).
  auto.
Qed.

End FourierSeed.

(** *** One or two spots: a single pass of lenses and prisms *)

Section FewSpots.
Context `{FloatOps} `{Header} `{!Kernels}.

Lemma length_evaluateAmplitudes (xs ys zs : list float) (pattern : list Z)
    (N np w : Z) :
  length (evaluateAmplitudes xs ys zs pattern N np w) = Z.to_nat N.
Proof. unfold evaluateAmplitudes. rewrite length_map, length_seq. reflexivity. Qed.

Lemma upload_spots_corrections (xs ys zs Is : list float) (N_spots : Z) :
  preserves (upload_spots xs ys zs Is N_spots)
    (fun st => (ucptrs st, ApplyLUT_b st, UseAberrationCorr_b st,
                UseLUTPol_b st, fptrs st d_AberrationCorr_f,
                fptrs st d_LUTPolCoeff_f, ints st N_LUTPolCoeff,
                ints st data_w, ints st N_pixels, fptrs st d_amps)).
Proof. unfold upload_spots. frame. Qed.

Lemma upload_spots_state (xs ys zs Is : list float) (N : Z) (st : globals)
    (gx gy gz gI : list float) :
  0 <= N < 2 ^ 29 ->
  let n := Z.to_nat N in
  fptrs st d_x = Live gx -> fptrs st d_y = Live gy ->
  fptrs st d_z = Live gz -> fptrs st d_I = Live gI ->
  (n <= length gx)%nat -> (n <= length gy)%nat ->
  (n <= length gz)%nat -> (n <= length gI)%nat ->
  (n <= length xs)%nat -> (n <= length ys)%nat ->
  (n <= length zs)%nat -> (n <= length Is)%nat ->
  let st' := snd (upload_spots xs ys zs Is N st) in
  fptrs st' d_x = Live (take n xs ++ drop n gx) /\
  fptrs st' d_y = Live (take n ys ++ drop n gy) /\
  fptrs st' d_z = Live (take n zs ++ drop n gz) /\
  fptrs st' d_I = Live (take n Is ++ drop n gI).
Proof.
  intros HN n Hx Hy Hz HI Lgx Lgy Lgz LgI Lxs Lys Lzs LIs.
  pose proof (elems_capacity N HN) as Hel. fold n in Hel.
  unfold upload_spots.
  unfold set_int. rewrite bind_modify, bind_get.
  set (st0 := set_ints _ st).
  assert (E0 : ints st0 memsize_spotsf = to_int (size_mul N sizeof_float))
    by (subst st0; cbn; upd_simpl; reflexivity).
  rewrite E0.
  assert (Hx0 : fptrs st0 d_x = Live gx) by exact Hx.
  assert (Hup := upload_f_ok d_x gx xs
                  (to_size_t (to_int (size_mul N sizeof_float))) st0 Hx0).
  rewrite Hel in Hup. rewrite (bind_eval _ _ _ _ _ (Hup Lgx Lxs)).
  set (st1 := set_fptrs _ st0).
  assert (Hy1 : fptrs st1 d_y = Live gy)
    by (subst st1 st0; cbn; upd_simpl; exact Hy).
  assert (Hup1 := upload_f_ok d_y gy ys
                  (to_size_t (to_int (size_mul N sizeof_float))) st1 Hy1).
  rewrite Hel in Hup1. rewrite (bind_eval _ _ _ _ _ (Hup1 Lgy Lys)).
  set (st2 := set_fptrs _ st1).
  assert (Hz2 : fptrs st2 d_z = Live gz)
    by (subst st2 st1 st0; cbn; upd_simpl; exact Hz).
  assert (Hup2 := upload_f_ok d_z gz zs
                  (to_size_t (to_int (size_mul N sizeof_float))) st2 Hz2).
  rewrite Hel in Hup2. rewrite (bind_eval _ _ _ _ _ (Hup2 Lgz Lzs)).
  set (st3 := set_fptrs _ st2).
  assert (HI3 : fptrs st3 d_I = Live gI)
    by (subst st3 st2 st1 st0; cbn; upd_simpl; exact HI).
  assert (Hup3 := upload_f_ok d_I gI Is
                  (to_size_t (to_int (size_mul N sizeof_float))) st3 HI3).
  rewrite Hel in Hup3. rewrite (bind_eval _ _ _ _ _ (Hup3 LgI LIs)).
  subst st3 st2 st1 st0. cbn. upd_simpl. auto.
Qed.

Lemma launch_LensesAndPrisms_state (N : Z) (st : globals)
    (gx gy gz gI : list float) (gp : list Z) :
  fptrs st d_x = Live gx -> fptrs st d_y = Live gy ->
  fptrs st d_z = Live gz -> fptrs st d_I = Live gI ->
  ucptrs st d_pSLM_uc = Live gp ->
  let st' := snd (launch_LensesAndPrisms N st) in
  ucptrs st' d_pSLM_uc =
    Live (LensesAndPrisms gx gy gz gI gp N
            (deref (ucptrs st d_LUT_uc)) (ApplyLUT_b st) (ints st data_w)
            (UseAberrationCorr_b st) (deref (fptrs st d_AberrationCorr_f))
            (UseLUTPol_b st) (deref (fptrs st d_LUTPolCoeff_f))
            (ints st N_LUTPolCoeff)) /\
  fptrs st' = fptrs st /\ ints st' = ints st.
Proof.
  intros Hx Hy Hz HI Hp.
  unfold launch_LensesAndPrisms. rewrite bind_get.
  unfold log. rewrite bind_modify. cbn.
  rewrite Hx, Hy, Hz, HI, Hp. cbn. upd_simpl. auto.
Qed.

Lemma launch_checkAmplitudes_state (gx gy gz : list float) (gp : list Z)
    (ga : list float) (N np w : Z) (st : globals) :
  let n := Z.to_nat N in
  (n <= length gx)%nat -> (n <= length gy)%nat -> (n <= length gz)%nat ->
  (n <= length ga)%nat ->
  launch_checkAmplitudes (Live gx) (Live gy) (Live gz) (Live gp) (Live ga)
    0 N np w st =
  (Live (evaluateAmplitudes (take n gx) (take n gy) (take n gz) gp N np w ++
         drop n ga),
   set_trace (trace st ++ [EvLaunch K_checkAmplitudes N 512]) st).
Proof.
  intros n Lx Ly Lz La.
  unfold launch_checkAmplitudes, log. rewrite bind_modify. fold n.
  cbn [Nat.add drop take app].
  apply Nat.leb_le in Lx, Ly, Lz, La. rewrite Lx, Ly, Lz, La. reflexivity.
Qed.

Lemma finish_hologram_weights (out : list Z * list float) (st : globals) :
  holo_weights (fst (finish_hologram out st)) = snd out.
Proof. reflexivity. Qed.

Lemma download_uc_frame (h : list Z) (p : ucptr) (bytes : Z) :
  preserves (download_uc h p bytes) (fun st => (fptrs st, ucptrs st)).
Proof. frame. Qed.

Lemma LensesAndPrisms_method_state (pat : list Z) (hw : list float) (N : Z)
    (st : globals) (gx gy gz gI : list float) (gp : list Z)
    (ga : list float) :
  0 <= N < 2 ^ 29 ->
  let n := Z.to_nat N in
  fptrs st d_x = Live gx -> fptrs st d_y = Live gy ->
  fptrs st d_z = Live gz -> fptrs st d_I = Live gI ->
  ucptrs st d_pSLM_uc = Live gp -> fptrs st d_amps = Live ga ->
  (n <= length gx)%nat -> (n <= length gy)%nat -> (n <= length gz)%nat ->
  (n <= length ga)%nat -> (n <= length hw)%nat ->
  let pattern :=
    LensesAndPrisms gx gy gz gI gp N
      (deref (ucptrs st d_LUT_uc)) (ApplyLUT_b st) (ints st data_w)
      (UseAberrationCorr_b st) (deref (fptrs st d_AberrationCorr_f))
      (UseLUTPol_b st) (deref (fptrs st d_LUTPolCoeff_f))
      (ints st N_LUTPolCoeff) in
  let amps := evaluateAmplitudes (take n gx) (take n gy) (take n gz) pattern
                N (ints st N_pixels) (ints st data_w) in
  let r := LensesAndPrisms_method pat hw N st in
  snd (fst r) = amps ++ drop n hw /\
  ucptrs (snd r) d_pSLM_uc = Live pattern /\
  fptrs (snd r) d_amps = Live (amps ++ drop n ga).
Proof.
  intros HN n Hx Hy Hz HI Hp Ha Lx Ly Lz La Lh pattern amps r.
  destruct (launch_LensesAndPrisms_state N st gx gy gz gI gp Hx Hy Hz HI Hp)
    as (Hp2 & Hf2 & Hi2).
  fold pattern in Hp2.
  subst r. unfold LensesAndPrisms_method.
  rewrite bind_state. cbv beta.
  set (st2 := snd (launch_LensesAndPrisms N st)) in *.
  clearbody st2.
  rewrite bind_state. cbv beta.
  rewrite Hf2, Hi2, Hx, Hy, Hz, Ha, Hp2.
  rewrite (launch_checkAmplitudes_state gx gy gz pattern ga N _ _ st2 Lx Ly Lz La).
  fold n. fold amps. cbn [fst snd].
  unfold set_fptr. rewrite bind_modify, bind_get.
  set (st4 := set_fptrs _ _).
  assert (Ha4 : fptrs st4 d_amps = Live (amps ++ drop n ga))
    by (subst st4; cbn; upd_simpl; reflexivity).
  assert (Hp4 : ucptrs st4 d_pSLM_uc = Live pattern)
    by (subst st4; cbn; exact Hp2).
  clearbody st4.
  rewrite bind_state. cbv beta.
  set (r5 := download_uc pat d_pSLM_uc _ st4).
  assert (Hfr : (fptrs (snd r5), ucptrs (snd r5)) = (fptrs st4, ucptrs st4))
    by exact (download_uc_frame pat d_pSLM_uc _ st4).
  clearbody r5. injection Hfr as Hf5 Hu5.
  assert (Ha5 : fptrs (snd r5) d_amps = Live (amps ++ drop n ga))
    by (rewrite Hf5; exact Ha4).
  assert (Hel : elems sizeof_float (size_mul N sizeof_float) = n).
  { change (2 ^ 29) with 536870912 in HN.
    rewrite size_mul_small; unfold sizeof_float;
      try (change (2 ^ 64) with 18446744073709551616); try lia.
    unfold elems. f_equal. apply Z.div_mul. lia. }
  assert (Hlen : length amps = n)
    by (subst amps; apply length_evaluateAmplitudes).
  assert (Hdl := download_f_ok hw d_amps (amps ++ drop n ga)
                   (size_mul N sizeof_float) (snd r5) Ha5).
  rewrite Hel in Hdl.
  specialize (Hdl Lh ltac:(rewrite length_app; lia)).
  rewrite (bind_eval _ _ _ _ _ Hdl). cbn [fst snd ret].
  rewrite take_app_length' by (symmetry; exact Hlen).
  rewrite Hu5, Hf5. auto.
Qed.

(** C8.  A call with one or two spots (the capacity being at least 2) is
    the call with method 0 whatever method was asked for.  It launches
    [LensesAndPrisms] once and [checkAmplitudes] once and no other kernel.
    On a session whose buffers hold the spots, the first [N_spots] entries
    of the caller's weight array receive the amplitudes that the evaluator
    finds for the uploaded spots on the pattern just synthesised, one per
    spot, and the rest of the array is left as it was. *)
Theorem GenerateHologram_few_spots (pat : list Z) (xs ys zs Is : list float)
    (N_spots N_iterations : Z) (hw : list float) (alpha : float) (method : Z)
    (st : globals) (gx gy gz gI : list float) (gp : list Z)
    (ga : list float) :
  1 <= N_spots <= 2 -> 2 <= BLOCK_SIZE ->
  let n := Z.to_nat N_spots in
  fptrs st d_x = Live gx -> fptrs st d_y = Live gy ->
  fptrs st d_z = Live gz -> fptrs st d_I = Live gI ->
  ucptrs st d_pSLM_uc = Live gp -> fptrs st d_amps = Live ga ->
  (n <= length gx)%nat -> (n <= length gy)%nat -> (n <= length gz)%nat ->
  (n <= length gI)%nat -> (n <= length ga)%nat ->
  (n <= length xs)%nat -> (n <= length ys)%nat -> (n <= length zs)%nat ->
  (n <= length Is)%nat -> (n <= length hw)%nat ->
  let r := GenerateHologram pat xs ys zs Is N_spots N_iterations hw alpha
             method st in
  let pattern :=
    LensesAndPrisms (take n xs ++ drop n gx) (take n ys ++ drop n gy)
      (take n zs ++ drop n gz) (take n Is ++ drop n gI) gp N_spots
      (deref (ucptrs st d_LUT_uc)) (ApplyLUT_b st) (ints st data_w)
      (UseAberrationCorr_b st) (deref (fptrs st d_AberrationCorr_f))
      (UseLUTPol_b st) (deref (fptrs st d_LUTPolCoeff_f))
      (ints st N_LUTPolCoeff) in
  let amps := evaluateAmplitudes (take n xs) (take n ys) (take n zs) pattern
                N_spots (ints st N_pixels) (ints st data_w) in
  r = GenerateHologram pat xs ys zs Is N_spots N_iterations hw alpha 0 st /\
  (forall k, count k (new_events (trace st) (trace (snd r))) =
             (one_if k K_LensesAndPrisms + one_if k K_checkAmplitudes)%nat) /\
  holo_weights (fst r) = amps ++ drop n hw /\
  length amps = n.
Proof.
  intros HN HB n Hx Hy Hz HI Hp Ha Lgx Lgy Lgz LgI Lga Lxs Lys Lzs LIs Lhw
    r pattern amps.
  assert (Hclamp : forall m, clamp_spots N_spots m = (N_spots, 0))
    by (intros m; apply clamp_spots_few; lia).
  assert (HN29 : 0 <= N_spots < 2 ^ 29)
    by (change (2 ^ 29) with 536870912; lia).
  split; [|split; [|split]].
  - subst r. unfold GenerateHologram. rewrite !Hclamp. reflexivity.
  - intros k. subst r.
    rewrite (emits_new_events _ k _ st
               (emits_GenerateHologram pat xs ys zs Is N_spots N_iterations
                  hw alpha method k)).
    rewrite Hclamp. reflexivity.
  - subst r. unfold GenerateHologram. rewrite Hclamp. cbn [fst snd].
    change (0 =? 0) with true. cbv iota.
    rewrite bind_state. cbv beta. rewrite bind_state. cbv beta.
    rewrite finish_hologram_weights.
    pose (st1 := snd (upload_spots xs ys zs Is N_spots st)).
    change (snd (upload_spots xs ys zs Is N_spots st)) with st1.
    assert (Hup : fptrs st1 d_x = Live (take n xs ++ drop n gx) /\
                  fptrs st1 d_y = Live (take n ys ++ drop n gy) /\
                  fptrs st1 d_z = Live (take n zs ++ drop n gz) /\
                  fptrs st1 d_I = Live (take n Is ++ drop n gI))
      by exact (upload_spots_state xs ys zs Is N_spots st gx gy gz gI HN29
                  Hx Hy Hz HI Lgx Lgy Lgz LgI Lxs Lys Lzs LIs).
    destruct Hup as (Hx1 & Hy1 & Hz1 & HI1).
    assert (Hfr : (ucptrs st1, ApplyLUT_b st1, UseAberrationCorr_b st1,
                   UseLUTPol_b st1, fptrs st1 d_AberrationCorr_f,
                   fptrs st1 d_LUTPolCoeff_f, ints st1 N_LUTPolCoeff,
                   ints st1 data_w, ints st1 N_pixels, fptrs st1 d_amps) =
                  (ucptrs st, ApplyLUT_b st, UseAberrationCorr_b st,
                   UseLUTPol_b st, fptrs st d_AberrationCorr_f,
                   fptrs st d_LUTPolCoeff_f, ints st N_LUTPolCoeff,
                   ints st data_w, ints st N_pixels, fptrs st d_amps))
      by exact (upload_spots_corrections xs ys zs Is N_spots st).
    clearbody st1.
    injection Hfr as Hu1 Hlut1 Hab1 Hpol1 Hpa1 Hpp1 Hnc1 Hdw1 Hnp1 Ha1.
    assert (Lx1 : (n <= length (take n xs ++ drop n gx))%nat)
      by (rewrite length_app, length_take, length_drop; lia).
    assert (Ly1 : (n <= length (take n ys ++ drop n gy))%nat)
      by (rewrite length_app, length_take, length_drop; lia).
    assert (Lz1 : (n <= length (take n zs ++ drop n gz))%nat)
      by (rewrite length_app, length_take, length_drop; lia).
    pose proof (LensesAndPrisms_method_state pat hw N_spots st1 _ _ _ _ gp ga
                  HN29 Hx1 Hy1 Hz1 HI1
                  ltac:(rewrite Hu1; exact Hp) ltac:(rewrite Ha1; exact Ha)
                  Lx1 Ly1 Lz1 Lga Lhw) as Hm.
    cbv zeta in Hm. destruct Hm as (Hw & _ & _).
    rewrite Hw. fold n.
    rewrite Hu1, Hlut1, Hab1, Hpol1, Hpa1, Hpp1, Hnc1, Hdw1, Hnp1.
    rewrite !take_app_le by (rewrite length_take; lia).
    rewrite !take_take, Nat.min_id. reflexivity.
  - subst amps. apply length_evaluateAmplitudes.
Qed.

End FewSpots.

(** *** The amplitude query *)

Section Query.
Context `{FloatOps} `{Header} `{!Kernels}.

Lemma launch_checkAmplitudes_at (gx gy gz : list float) (gp : list Z)
    (ga : list float) (off : nat) (N np w : Z) (st : globals) :
  let n := Z.to_nat N in
  (off + n <= length gx)%nat -> (off + n <= length gy)%nat ->
  (off + n <= length gz)%nat -> (off + n <= length ga)%nat ->
  launch_checkAmplitudes (Live gx) (Live gy) (Live gz) (Live gp) (Live ga)
    off N np w st =
  (Live (take off ga ++
         evaluateAmplitudes (take n (drop off gx)) (take n (drop off gy))
           (take n (drop off gz)) gp N np w ++
         drop (off + n) ga),
   set_trace (trace st ++ [EvLaunch K_checkAmplitudes N 512]) st).
Proof.
  intros n Lx Ly Lz La.
  unfold launch_checkAmplitudes, log. rewrite bind_modify. fold n.
  apply Nat.leb_le in Lx, Ly, Lz, La. rewrite Lx, Ly, Lz, La. reflexivity.
Qed.

Lemma GetAmps_loop_done (fuel : nat) (rem off np w : Z)
    (X Y Z_ A : devptr float) (st : globals) :
  rem <= 0 ->
  GetAmps_loop fuel rem off np w X Y Z_ A st = (Some A, st).
Proof.
  intros Hrem.
  assert (E : (rem >? 0) = false)
    by (rewrite Z.gtb_ltb; apply Z.ltb_ge; exact Hrem).
  destruct fuel; cbn [GetAmps_loop]; rewrite E; reflexivity.
Qed.

Lemma GetAmps_loop_step (fuel : nat) (rem off np w : Z)
    (X Y Z_ A : devptr float) (st : globals) :
  0 < rem ->
  GetAmps_loop (S fuel) rem off np w X Y Z_ A st =
  (let N_spots := if rem >? 512 then 512 else rem in
   set_int memsize_spotsf (to_int (size_mul N_spots sizeof_float)) ;;
   pat <- get (fun st => ucptrs st d_pSLM_uc) ;;
   a <- launch_checkAmplitudes X Y Z_ pat A (Z.to_nat off) N_spots np w ;;
   GetAmps_loop fuel (to_int (rem - 512)) (to_int (off + 512)) np w
     X Y Z_ a) st.
Proof.
  intros Hrem.
  assert (E : (rem >? 0) = true)
    by (rewrite Z.gtb_ltb; apply Z.ltb_lt; exact Hrem).
  cbn [GetAmps_loop]. rewrite E. reflexivity.
Qed.

Lemma amplitudes_in_batches_nil (fuel : nat) (ys zs : list float)
    (P : list Z) (np w : Z) :
  amplitudes_in_batches fuel [] ys zs P np w = [].
Proof. destruct fuel; reflexivity. Qed.

Lemma amplitudes_in_batches_step (fuel : nat) (xs ys zs : list float)
    (P : list Z) (np w : Z) :
  xs <> [] ->
  amplitudes_in_batches (S fuel) xs ys zs P np w =
  evaluateAmplitudes (take 512 xs) (take 512 ys) (take 512 zs) P
    (Z.of_nat (length (take 512 xs))) np w ++
  amplitudes_in_batches fuel (drop 512 xs) (drop 512 ys) (drop 512 zs) P np w.
Proof. intros Hne. destruct xs; [congruence|reflexivity]. Qed.

Lemma batch_launches_zero (fuel : nat) : batch_launches fuel 0 = [].
Proof. destruct fuel; reflexivity. Qed.

Lemma batch_launches_step (fuel remaining : nat) :
  (0 < remaining)%nat ->
  batch_launches (S fuel) remaining =
  EvLaunch K_checkAmplitudes (Z.of_nat (Nat.min 512 remaining)) 512 ::
  batch_launches fuel (remaining - 512).
Proof. intros Hr. destruct remaining; [lia|reflexivity]. Qed.

Lemma GetAmps_loop_spec (xs ys zs : list float) (P : list Z) (np w : Z)
    (n : nat) :
  length xs = n -> length ys = n -> length zs = n ->
  Z.of_nat n + 512 < 2 ^ 31 ->
  forall (fuel off : nat) (a : list float) (st : globals),
    (off <= n)%nat -> length a = n -> (n - off <= fuel)%nat ->
    ucptrs st d_pSLM_uc = Live P ->
    exists st',
      GetAmps_loop fuel (Z.of_nat n - Z.of_nat off) (Z.of_nat off) np w
        (Live xs) (Live ys) (Live zs) (Live a) st =
      (Some (Live (take off a ++
                   amplitudes_in_batches fuel (drop off xs) (drop off ys)
                     (drop off zs) P np w)), st') /\
      ucptrs st' = ucptrs st /\
      fptrs st' = fptrs st /\
      last_error st' = last_error st /\
      mem_avail st' = mem_avail st /\
      trace st' = trace st ++ batch_launches fuel (n - off).
Proof.
  intros Lx Ly Lz Hbound.
  change (2 ^ 31) with 2147483648 in Hbound.
  induction fuel as [|fuel IH]; intros off a st Hoff La Hfuel HP.
  - assert (off = n) by lia. subst off.
    exists st. rewrite GetAmps_loop_done by lia.
    cbn [amplitudes_in_batches batch_launches].
    rewrite !app_nil_r, take_ge by lia. auto 10.
  - destruct (Nat.eq_dec off n) as [->|Hne].
    + exists st. rewrite GetAmps_loop_done by lia.
      rewrite (drop_ge xs) by lia. rewrite amplitudes_in_batches_nil.
      rewrite Nat.sub_diag, batch_launches_zero.
      rewrite !app_nil_r, take_ge by lia. auto 10.
    + assert (Hlt : (off < n)%nat) by lia.
      rewrite GetAmps_loop_step by lia. cbv zeta.
      unfold set_int. rewrite bind_modify, bind_get.
      cbn [ucptrs set_ints]. rewrite HP.
      rewrite Nat2Z.id.
      set (st1 := set_ints _ st).
      assert (Hdne : drop off xs <> []).
      { intros E. apply (f_equal length) in E.
        rewrite length_drop in E. cbn in E. lia. }
      rewrite (amplitudes_in_batches_step fuel _ _ _ P np w Hdne).
      rewrite batch_launches_step by lia.
      destruct (Z.of_nat n - Z.of_nat off >? 512) eqn:Ebig.
      * (* a full batch, more to come *)
        rewrite Z.gtb_ltb in Ebig. apply Z.ltb_lt in Ebig.
        assert (Hlaunch := launch_checkAmplitudes_at xs ys zs P a off 512
                             np w st1).
        cbv zeta in Hlaunch. change (Z.to_nat 512) with 512%nat in Hlaunch.
        specialize (Hlaunch ltac:(lia) ltac:(lia) ltac:(lia) ltac:(lia)).
        rewrite (bind_eval _ _ _ _ _ Hlaunch).
        rewrite (to_int_small (Z.of_nat n - Z.of_nat off - 512))
          by (change (2 ^ 31) with 2147483648; lia).
        rewrite (to_int_small (Z.of_nat off + 512))
          by (change (2 ^ 31) with 2147483648; lia).
        replace (Z.of_nat n - Z.of_nat off - 512)
          with (Z.of_nat n - Z.of_nat (off + 512)) by lia.
        replace (Z.of_nat off + 512) with (Z.of_nat (off + 512)) by lia.
        set (a' := take off a ++ _ ++ drop (off + 512) a).
        set (st2 := set_trace _ st1).
        assert (La' : length a' = n).
        { subst a'. rewrite !length_app, length_take, length_drop,
            length_evaluateAmplitudes. lia. }
        destruct (IH (off + 512)%nat a' st2 ltac:(lia) La' ltac:(lia) HP)
          as (st' & Hrun & Hu & Hf & He & Hm & Ht).
        exists st'. rewrite Hrun.
        split; [|split; [|split; [|split; [|split]]]]; try assumption.
        -- do 3 f_equal. subst a'.
           rewrite take_app_ge by (rewrite length_take; lia).
           rewrite length_take, Nat.min_l by lia.
           replace (off + 512 - off)%nat with 512%nat by lia.
           rewrite take_app_length'
             by (rewrite length_evaluateAmplitudes; reflexivity).
           rewrite <- app_assoc. f_equal. f_equal.
           ++ rewrite length_take, length_drop, Nat.min_l by lia.
              reflexivity.
           ++ rewrite !drop_drop. reflexivity.
        -- rewrite Ht. subst st2 st1. cbn [trace set_trace set_ints].
           rewrite <- app_assoc. cbn [app].
           rewrite Nat.min_l by lia.
           replace (n - (off + 512))%nat with (n - off - 512)%nat by lia.
           reflexivity.
      * (* the last batch *)
        rewrite Z.gtb_ltb in Ebig. apply Z.ltb_ge in Ebig.
        assert (Hlaunch := launch_checkAmplitudes_at xs ys zs P a off
                             (Z.of_nat n - Z.of_nat off) np w st1).
        cbv zeta in Hlaunch.
        replace (Z.to_nat (Z.of_nat n - Z.of_nat off)) with (n - off)%nat
          in Hlaunch by lia.
        specialize (Hlaunch ltac:(lia) ltac:(lia) ltac:(lia) ltac:(lia)).
        rewrite (bind_eval _ _ _ _ _ Hlaunch).
        rewrite GetAmps_loop_done
          by (rewrite to_int_small by (change (2 ^ 31) with 2147483648; lia);
              lia).
        exists (set_trace
                  (trace st1 ++
                   [EvLaunch K_checkAmplitudes (Z.of_nat n - Z.of_nat off) 512])
                  st1).
        split; [|split; [|split; [|split; [|split]]]]; try reflexivity.
        -- f_equal. do 2 f_equal.
           replace (off + (n - off))%nat with n by lia.
           rewrite (drop_ge a) by lia.
           rewrite (drop_ge (drop off xs)) by (rewrite length_drop; lia).
           rewrite amplitudes_in_batches_nil, !app_nil_r.
           rewrite !(take_ge (drop off _)) by (rewrite length_drop; lia).
           rewrite length_drop, Lx.
           replace (Z.of_nat (n - off)) with (Z.of_nat n - Z.of_nat off) by lia.
           reflexivity.
        -- subst st1. cbn [trace set_trace set_ints].
           rewrite Nat.min_r by lia.
           replace (n - off - 512)%nat with 0%nat by lia.
           rewrite batch_launches_zero.
           replace (Z.of_nat (n - off)) with (Z.of_nat n - Z.of_nat off) by lia.
           reflexivity.
Qed.

Lemma length_amplitudes_in_batches (P : list Z) (np w : Z) (fuel : nat) :
  forall xs ys zs : list float,
    (length xs <= fuel)%nat ->
    length (amplitudes_in_batches fuel xs ys zs P np w) = length xs.
Proof.
  induction fuel as [|fuel IH]; intros xs ys zs Hlen.
  - destruct xs; [reflexivity|cbn in Hlen; lia].
  - destruct xs as [|x xs']; [reflexivity|].
    rewrite amplitudes_in_batches_step by discriminate.
    rewrite length_app, length_evaluateAmplitudes, Nat2Z.id.
    rewrite IH by (rewrite length_drop; cbn [length] in *; lia).
    rewrite length_take, length_drop. lia.
Qed.

Lemma filter_batch_launches (fuel remaining : nat) :
  List.filter (launches_of K_checkAmplitudes) (batch_launches fuel remaining) =
  batch_launches fuel remaining.
Proof.
  revert remaining. induction fuel as [|fuel IH]; intros remaining.
  - reflexivity.
  - destruct remaining as [|r]; [reflexivity|].
    rewrite batch_launches_step by lia.
    cbn [List.filter launches_of].
    change (bool_decide (K_checkAmplitudes = K_checkAmplitudes)) with true.
    cbv iota. rewrite IH. reflexivity.
Qed.

Lemma cudaMalloc_ok {A : Type} (name : pname) (esz : Z) (fill : A)
    (old : devptr A) (bytes : Z) (st : globals) :
  bytes <= mem_avail st ->
  cudaMalloc name esz fill old bytes st =
  (Live (replicate (elems esz bytes) fill),
   set_mem_avail (mem_avail st - bytes)
     (set_trace (trace st ++ [EvMalloc name bytes]) st)).
Proof.
  intros Hmem. unfold cudaMalloc, log. rewrite bind_modify, bind_get.
  cbn [mem_avail set_trace]. apply Z.leb_le in Hmem. rewrite Hmem.
  reflexivity.
Qed.

Lemma cudaFree_live {A : Type} (name : pname) (esz : Z) (l : list A)
    (st : globals) :
  cudaFree name esz (Live l) st =
  (Stale,
   set_mem_avail (mem_avail st + esz * Z.of_nat (length l))
     (set_trace (trace st ++ [EvFree name]) st)).
Proof. reflexivity. Qed.

Lemma handle_errors_state (fn : string) (st : globals) :
  exists st',
    handle_errors fn st = (last_error st, st') /\
    trace st' = trace st ++
                (if negb (last_error st =? 0) then [EvMessageBox fn] else []).
Proof.
  unfold handle_errors, cudaGetLastError, bind, get, modify, ret, when, log.
  cbn. destruct (negb (last_error st =? 0)) eqn:E; cbn.
  - eexists. split; reflexivity.
  - eexists. split; [reflexivity|]. cbn. rewrite app_nil_r. reflexivity.
Qed.

Lemma three_batches (xs ys zs : list float) (P : list Z) (np w : Z) :
  length xs = 1025%nat ->
  amplitudes_in_batches 1025 xs ys zs P np w =
  evaluateAmplitudes (take 512 xs) (take 512 ys) (take 512 zs) P 512 np w ++
  evaluateAmplitudes (take 512 (drop 512 xs)) (take 512 (drop 512 ys))
    (take 512 (drop 512 zs)) P 512 np w ++
  evaluateAmplitudes (take 512 (drop 1024 xs)) (take 512 (drop 1024 ys))
    (take 512 (drop 1024 zs)) P 1 np w.
Proof.
  intros Lx.
  assert (N1 : xs <> [])
    by (intros E; rewrite E in Lx; discriminate).
  assert (N2 : drop 512 xs <> []).
  { intros E. apply (f_equal length) in E. rewrite length_drop, Lx in E.
    discriminate. }
  assert (N3 : drop 512 (drop 512 xs) <> []).
  { intros E. apply (f_equal length) in E. rewrite !length_drop, Lx in E.
    discriminate. }
  change 1025%nat with (S (S (S 1022))) at 1.
  rewrite (amplitudes_in_batches_step _ xs ys zs P np w N1).
  rewrite (amplitudes_in_batches_step _ _ _ _ P np w N2).
  rewrite (amplitudes_in_batches_step _ _ _ _ P np w N3).
  rewrite (drop_ge (drop 512 (drop 512 xs)))
    by (rewrite !length_drop, Lx; cbn; lia).
  rewrite amplitudes_in_batches_nil, app_nil_r.
  rewrite !length_take, !length_drop, Lx. rewrite !drop_drop.
  reflexivity.
Qed.

(** C9.  For a point list of any length [n] held in full by the three
    coordinate arrays, [GetAmps] returns, and writes to the first [n] entries
    of the caller's array, the results of the evaluator on the successive
    batches of at most 512 points, each batch behind the one before; it
    adds no error of its own, and its launches of [checkAmplitudes] are one
    grid per batch.  For [n = 2 * 512 + 1] that is the evaluator on the
    points 0-511, then on the points 512-1023, then on point 1024, launched
    with 512, 512 and 1 blocks. *)
Theorem GetAmps_batches (xs ys zs : list float) (pat : list Z)
    (N_spots_all dw : Z) (h_amps : list float) (st : globals) (gp : list Z) :
  let n := length xs in
  N_spots_all = Z.of_nat n -> length ys = n -> length zs = n ->
  N_spots_all < 2 ^ 29 ->
  16 * N_spots_all <= mem_avail st ->
  ucptrs st d_pSLM_uc = Live gp ->
  let m := elems sizeof_uchar (to_size_t (ints st memsize_SLMuc)) in
  (m <= length gp)%nat -> (m <= length pat)%nat ->
  (n <= length h_amps)%nat ->
  let pattern := take m pat ++ drop m gp in
  let np := to_int (dw * dw) in
  let amps := amplitudes_in_batches n xs ys zs pattern np dw in
  exists st',
    GetAmps xs ys zs pat N_spots_all dw h_amps st =
      (Some (last_error st, amps ++ drop n h_amps), st') /\
    length amps = n /\
    List.filter (launches_of K_checkAmplitudes)
      (new_events (trace st) (trace st')) = batch_launches n n /\
    (n = 1025%nat ->
     amps =
       evaluateAmplitudes (take 512 xs) (take 512 ys) (take 512 zs)
         pattern 512 np dw ++
       evaluateAmplitudes (take 512 (drop 512 xs)) (take 512 (drop 512 ys))
         (take 512 (drop 512 zs)) pattern 512 np dw ++
       evaluateAmplitudes (drop 1024 xs) (drop 1024 ys) (drop 1024 zs)
         pattern 1 np dw /\
     batch_launches n n =
       [EvLaunch K_checkAmplitudes 512 512;
        EvLaunch K_checkAmplitudes 512 512;
        EvLaunch K_checkAmplitudes 1 512]).
Proof.
  intros n HN Ly Lz Hbound Hmem Hgp m Lgp Lpat Lh pattern np amps.
  subst N_spots_all.
  change (2 ^ 29) with 536870912 in Hbound.
  assert (Hsz : size_mul (Z.of_nat n) sizeof_float = Z.of_nat n * 4).
  { apply size_mul_small; unfold sizeof_float;
      try (change (2 ^ 64) with 18446744073709551616); lia. }
  assert (Hel : elems sizeof_float (Z.of_nat n * 4) = n).
  { unfold elems, sizeof_float. rewrite Z.div_mul by lia. apply Nat2Z.id. }
  assert (Lamps : length amps = n)
    by (subst amps; apply length_amplitudes_in_batches; lia).
  unfold GetAmps. cbv zeta. rewrite Hsz, Nat2Z.id.
  (* the four allocations *)
  rewrite (bind_eval _ _ _ _ _
             (cudaMalloc_ok (PLocal "d_xall") sizeof_float indeterminate Stale
                (Z.of_nat n * 4) st ltac:(lia))).
  set (st1 := set_mem_avail _ _).
  assert (M1 : mem_avail st1 = mem_avail st - Z.of_nat n * 4) by reflexivity.
  rewrite (bind_eval _ _ _ _ _
             (cudaMalloc_ok (PLocal "d_yall") sizeof_float indeterminate Stale
                (Z.of_nat n * 4) st1 ltac:(lia))).
  set (st2 := set_mem_avail _ _).
  assert (M2 : mem_avail st2 = mem_avail st - Z.of_nat n * 4 * 2)
    by (subst st2; cbn [mem_avail set_mem_avail]; lia).
  rewrite (bind_eval _ _ _ _ _
             (cudaMalloc_ok (PLocal "d_zall") sizeof_float indeterminate Stale
                (Z.of_nat n * 4) st2 ltac:(lia))).
  set (st3 := set_mem_avail _ _).
  assert (M3 : mem_avail st3 = mem_avail st - Z.of_nat n * 4 * 3)
    by (subst st3; cbn [mem_avail set_mem_avail]; lia).
  rewrite (bind_eval _ _ _ _ _
             (cudaMalloc_ok (PLocal "d_amps_all") sizeof_float indeterminate
                Stale (Z.of_nat n * 4) st3 ltac:(lia))).
  set (st4 := set_mem_avail _ _).
  assert (T4 : trace st4 =
               trace st ++ [EvMalloc (PLocal "d_xall") (Z.of_nat n * 4);
                            EvMalloc (PLocal "d_yall") (Z.of_nat n * 4);
                            EvMalloc (PLocal "d_zall") (Z.of_nat n * 4);
                            EvMalloc (PLocal "d_amps_all") (Z.of_nat n * 4)]).
  { subst st4 st3 st2 st1. cbn [trace set_mem_avail set_trace].
    rewrite <- !app_assoc. reflexivity. }
  assert (U4 : ucptrs st4 = ucptrs st) by reflexivity.
  assert (I4 : ints st4 = ints st) by reflexivity.
  assert (E4 : last_error st4 = last_error st) by reflexivity.
  clearbody st4. clear M1 M2 M3. clear st1 st2 st3.
  rewrite Hel.
  (* the three uploads *)
  assert (Hfull : forall l : list float,
            length l = n ->
            take n l ++ drop n (replicate n indeterminate) = l).
  { intros l Hl. rewrite take_ge by lia.
    rewrite drop_ge by (rewrite length_replicate; lia).
    apply app_nil_r. }
  assert (Hcopy : forall l : list float,
            length l = n ->
            cudaMemcpy_H2D sizeof_float (Live (replicate n indeterminate))
              (Some l) (Z.of_nat n * 4) st4 = (cudaSuccess, Live l, st4)).
  { intros l Hl.
    rewrite cudaMemcpy_H2D_ok
      by (rewrite Hel, ?length_replicate; lia).
    rewrite Hel, (Hfull l Hl). reflexivity. }
  rewrite (bind_eval _ _ _ _ _ (Hcopy xs eq_refl)).
  rewrite (bind_eval _ _ _ _ _ (Hcopy ys Ly)).
  rewrite (bind_eval _ _ _ _ _ (Hcopy zs Lz)).
  cbn [snd].
  (* the pattern *)
  rewrite bind_get. rewrite I4.
  unfold upload_uc at 1. rewrite bind_state. cbv beta.
  rewrite bind_get. rewrite U4, Hgp.
  rewrite (bind_eval _ _ _ _ _
             (cudaMemcpy_H2D_ok sizeof_uchar gp pat
                (to_size_t (ints st memsize_SLMuc)) st4 Lgp Lpat)).
  fold m. fold pattern. cbn [fst snd].
  unfold set_ucptr. rewrite bind_modify.
  unfold ret at 1. cbn [fst snd].
  set (st5 := set_ucptrs _ st4).
  assert (P5 : ucptrs st5 d_pSLM_uc = Live pattern)
    by (subst st5; cbn; upd_simpl; reflexivity).
  assert (T5 : trace st5 = trace st4) by reflexivity.
  assert (E5 : last_error st5 = last_error st4) by reflexivity.
  clearbody st5.
  (* the batches *)
  destruct (GetAmps_loop_spec xs ys zs pattern np dw n eq_refl Ly Lz
              ltac:(change (2 ^ 31) with 2147483648; lia)
              n 0%nat (replicate n indeterminate) st5
              ltac:(lia) ltac:(apply length_replicate) ltac:(lia) P5)
    as (st6 & Hloop & U6 & F6 & E6 & M6 & T6).
  rewrite Z.sub_0_r in Hloop. cbn [take drop app] in Hloop.
  rewrite Nat.sub_0_r in T6.
  fold amps in Hloop.
  rewrite (bind_eval _ _ _ _ _ Hloop).
  clear Hloop.
  (* the read-back and the releases *)
  rewrite (bind_eval _ _ _ _ _
             (cudaMemcpy_D2H_ok sizeof_float h_amps amps (Z.of_nat n * 4) st6
                ltac:(rewrite Hel; exact Lh)
                ltac:(rewrite Hel, Lamps; lia))).
  rewrite Hel. cbn [snd].
  rewrite (take_ge amps) by lia.
  rewrite (bind_eval _ _ _ _ _
             (cudaFree_live (PLocal "d_xall") sizeof_float xs _)).
  rewrite (bind_eval _ _ _ _ _
             (cudaFree_live (PLocal "d_yall") sizeof_float ys _)).
  rewrite (bind_eval _ _ _ _ _
             (cudaFree_live (PLocal "d_zall") sizeof_float zs _)).
  rewrite (bind_eval _ _ _ _ _
             (cudaFree_live (PLocal "d_amps_all") sizeof_float amps _)).
  set (st10 := set_mem_avail _ _).
  assert (E10 : last_error st10 = last_error st)
    by (subst st10; cbn [last_error set_mem_avail set_trace];
        rewrite E6, E5, E4; reflexivity).
  assert (T10 : trace st10 =
                trace st6 ++ [EvFree (PLocal "d_xall");
                              EvFree (PLocal "d_yall");
                              EvFree (PLocal "d_zall");
                              EvFree (PLocal "d_amps_all")]).
  { subst st10. cbn [trace set_mem_avail set_trace].
    rewrite <- !app_assoc. reflexivity. }
  clearbody st10.
  destruct (handle_errors_state "GetAmps" st10) as (st' & Hfin & Tfin).
  rewrite (bind_eval _ _ _ _ _ Hfin). unfold ret. rewrite E10 in *.
  exists st'. split; [reflexivity|]. split; [exact Lamps|]. split.
  - rewrite Tfin, T10, T6, T5, T4, <- !app_assoc, new_events_app.
    rewrite !List.filter_app, filter_batch_launches.
    destruct (negb (last_error st =? 0));
      cbn [List.filter launches_of app]; rewrite ?app_nil_r; reflexivity.
  - intros Hn.
    assert (Lx : length xs = 1025%nat) by exact Hn.
    split.
    + subst amps. rewrite Hn. rewrite three_batches by exact Lx.
      rewrite !(take_ge (drop 1024 _)) by (rewrite length_drop; lia).
      reflexivity.
    + rewrite Hn. reflexivity.
Qed.

End Query.

(** * The session as a whole *)

Section Steps.
Context `{FloatOps} `{Header} `{!Kernels}.

#[global] Instance same_preorder {B : Type} (proj : globals -> B) :
  PreOrder (same proj).
Proof.
  split; [intros st; reflexivity|].
  intros a b c Hab Hbc. unfold same in *. congruence.
Qed.

#[global] Instance keeps_error_preorder : PreOrder keeps_error.
Proof.
  split; [intros st Hst; exact Hst|].
  intros a b c Hab Hbc Ha. apply Hbc, Hab, Ha.
Qed.

#[global] Instance logs_only_preorder (allowed : event -> bool) :
  PreOrder (logs_only allowed).
Proof.
  split.
  - intros st. exists []. rewrite app_nil_r. auto.
  - intros a b c (e1 & E1 & F1) (e2 & E2 & F2). exists (e1 ++ e2).
    rewrite E2, E1, <- app_assoc, forallb_app, F1, F2. auto.
Qed.

Context (R : relation globals) `{!PreOrder R}.

Lemma steps_ret {A : Type} (a : A) : steps (ret a) R.
Proof. intros st. reflexivity. Qed.

Lemma steps_get {A : Type} (f : globals -> A) : steps (get f) R.
Proof. intros st. reflexivity. Qed.

Lemma steps_modify (f : globals -> globals) :
  (forall st, R st (f st)) -> steps (modify f) R.
Proof. intros Hf st. apply Hf. Qed.

Lemma steps_bind {A B : Type} (m : M A) (k : A -> M B) :
  steps m R -> (forall a, steps (k a) R) -> steps (bind m k) R.
Proof.
  intros Hm Hk st. unfold bind. cbv zeta.
  transitivity (snd (m st)); [apply Hm|apply Hk].
Qed.

Lemma steps_when (b : bool) (m : M unit) : steps m R -> steps (when b m) R.
Proof. intros Hm. destruct b; [exact Hm|apply steps_ret]. Qed.

Lemma steps_for_loop (count : nat) (l : Z) (body : Z -> M unit) :
  (forall i, steps (body i) R) -> steps (for_loop count l body) R.
Proof.
  intros Hb. revert l. induction count as [|c IH]; intros l.
  - apply steps_ret.
  - cbn [for_loop]. apply steps_bind; [apply Hb|intros _; apply IH].
Qed.

Lemma steps_at {A : Type} (m : M A) (st : globals) :
  steps m R -> R st (snd (m st)).
Proof. intros Hm. apply Hm. Qed.

End Steps.

Ltac steps_head t :=
  lazymatch t with
  | ?f _ => steps_head f
  | _ => t
  end.

(** Follow the code down to the assignments, and hand each of them to
    [leaf]. *)
Ltac steps_order :=
  lazymatch goal with
  | |- PreOrder _ => typeclasses eauto
  | _ => idtac
  end.
Ltac steps_step leaf :=
  lazymatch goal with
  | |- PreOrder _ => typeclasses eauto
  | |- steps (ret _) _ => apply steps_ret; steps_order
  | |- steps (pair ?a) ?R => change (steps (ret a) R)
  | |- steps (get _) _ => apply steps_get; steps_order
  | |- steps (modify _) _ =>
      apply steps_modify; steps_order; intros ?st; leaf
  | |- steps (when _ _) _ => apply steps_when; steps_order
  | |- steps (bind _ _) _ =>
      apply steps_bind; steps_order; [|intros ?a; cbv beta]
  | |- steps (for_loop _ _ _) _ =>
      apply steps_for_loop; steps_order; intros ?i
  | |- steps (if ?b then _ else _) _ => destruct b
  | |- steps (match ?x with _ => _ end) _ => destruct x
  | |- steps (fun st => _) _ =>
      let st := fresh "st" in
      intros st; cbv beta;
      repeat match goal with
             | |- context [match ?x with _ => _ end] => destruct x
             end;
      lazymatch goal with
      | |- ?R st (snd (?m st)) => apply (steps_at R m st); steps_order
      end
  | |- steps ?m _ => let h := steps_head m in unfold h
  end.
Ltac steps_run leaf := repeat steps_step leaf.

Ltac keeps_error_leaf :=
  intros ?Hpending; cbn; first [exact Hpending | discriminate].
Ltac same_leaf := unfold same; cbn; upd_simpl; reflexivity.
Ltac logs_only_leaf :=
  first [ exists []; split; [cbn; rewrite app_nil_r; reflexivity|reflexivity]
        | eexists [_]; split; [cbn; reflexivity|reflexivity] ].

(** Projections of a state written as a stack of assignments. *)
Ltac norm_state :=
  cbn [set_fptrs set_ucptrs set_ccptrs set_d_spot_index set_plan set_ints
       set_ApplyLUT_b set_EnableSLM_b set_UseAberrationCorr_b set_UseLUTPol_b
       set_status set_last_error set_mem_avail set_mem_total set_trace
       fptrs ucptrs ccptrs d_spot_index plan ints ApplyLUT_b EnableSLM_b
       UseAberrationCorr_b UseLUTPol_b status last_error mem_avail mem_total
       trace fst snd].

(** One runtime call whose outcome the lemma [lem] gives. *)
Ltac step_with lem :=
  (erewrite bind_eval; [|apply lem; norm_state; upd_simpl; try reflexivity; try lia]);
  norm_state; upd_simpl.

Section Startup.
Context `{FloatOps} `{Header} `{!Kernels}.

Lemma malloc_f_ok (p : fptr) (bytes : Z) (st : globals) :
  bytes <= mem_avail st ->
  malloc_f p bytes st =
  (tt, set_fptrs (upd p (Live (replicate (elems sizeof_float bytes) indeterminate))
                      (fptrs st))
         (set_mem_avail (mem_avail st - bytes)
            (set_trace (trace st ++ [EvMalloc (PF p) bytes]) st))).
Proof.
  intros Hm. unfold malloc_f. rewrite bind_get.
  rewrite (bind_eval _ _ _ _ _ (cudaMalloc_ok _ _ _ _ _ st Hm)).
  reflexivity.
Qed.

Lemma malloc_uc_ok (p : ucptr) (bytes : Z) (st : globals) :
  bytes <= mem_avail st ->
  malloc_uc p bytes st =
  (tt, set_ucptrs (upd p (Live (replicate (elems sizeof_uchar bytes) indeterminate_int))
                      (ucptrs st))
         (set_mem_avail (mem_avail st - bytes)
            (set_trace (trace st ++ [EvMalloc (PUC p) bytes]) st))).
Proof.
  intros Hm. unfold malloc_uc. rewrite bind_get.
  rewrite (bind_eval _ _ _ _ _ (cudaMalloc_ok _ _ _ _ _ st Hm)).
  reflexivity.
Qed.

Lemma malloc_cc_ok (p : ccptr) (bytes : Z) (st : globals) :
  bytes <= mem_avail st ->
  malloc_cc p bytes st =
  (tt, set_ccptrs (upd p (Live (replicate (elems sizeof_cufftComplex bytes)
                                  (indeterminate, indeterminate)))
                      (ccptrs st))
         (set_mem_avail (mem_avail st - bytes)
            (set_trace (trace st ++ [EvMalloc (PCC p) bytes]) st))).
Proof.
  intros Hm. unfold malloc_cc. rewrite bind_get.
  rewrite (bind_eval _ _ _ _ _ (cudaMalloc_ok _ _ _ _ _ st Hm)).
  reflexivity.
Qed.

Lemma malloc_spot_index_ok (bytes : Z) (st : globals) :
  bytes <= mem_avail st ->
  malloc_spot_index bytes st =
  (tt, set_d_spot_index (Live (replicate (elems sizeof_int bytes) indeterminate_int))
         (set_mem_avail (mem_avail st - bytes)
            (set_trace (trace st ++ [EvMalloc PSpotIndex bytes]) st))).
Proof.
  intros Hm. unfold malloc_spot_index. rewrite bind_get.
  rewrite (bind_eval _ _ _ _ _ (cudaMalloc_ok _ _ _ _ _ st Hm)).
  reflexivity.
Qed.

Lemma cudaMemset0_ok {A : Type} (esz : Z) (zero : A) (d : list A) (bytes : Z)
    (st : globals) :
  (elems esz bytes <= length d)%nat ->
  cudaMemset0 esz zero (Live d) bytes st =
  (Live (replicate (elems esz bytes) zero ++ drop (elems esz bytes) d), st).
Proof.
  intros Hn. unfold cudaMemset0.
  destruct (bytes =? 0) eqn:E.
  - apply Z.eqb_eq in E. subst bytes. rewrite elems_zero. reflexivity.
  - apply Nat.leb_le in Hn. rewrite Hn. reflexivity.
Qed.

Lemma upload_uc_ok (p : ucptr) (d h : list Z) (bytes : Z) (st : globals) :
  ucptrs st p = Live d ->
  (elems sizeof_uchar bytes <= length d)%nat ->
  (elems sizeof_uchar bytes <= length h)%nat ->
  upload_uc p (Some h) bytes st =
  (cudaSuccess,
   set_ucptrs
     (upd p (Live (take (elems sizeof_uchar bytes) h ++
                   drop (elems sizeof_uchar bytes) d)) (ucptrs st)) st).
Proof.
  intros Hp Ld Lh. unfold upload_uc. rewrite bind_get, Hp.
  rewrite (bind_eval _ _ _ _ _ (cudaMemcpy_H2D_ok _ d h bytes st Ld Lh)).
  reflexivity.
Qed.

(** The sizes the start-up computes, when nothing wraps around. *)
Lemma spots_bytes (n : Z) :
  0 <= n < 2 ^ 29 ->
  to_size_t (to_int (size_mul n sizeof_float)) = 4 * n.
Proof.
  intros Hn. change (2 ^ 29) with 536870912 in Hn.
  rewrite size_mul_small; unfold sizeof_float;
    try (change (2 ^ 64) with 18446744073709551616); try lia.
  rewrite to_int_small by (change (2 ^ 31) with 2147483648; lia).
  rewrite to_size_t_small by (change (2 ^ 64) with 18446744073709551616; lia).
  lia.
Qed.

Lemma size_mul_int (n esz : Z) :
  0 <= n -> 0 < esz -> n * esz < 2 ^ 31 ->
  size_mul n esz = esz * n /\
  to_size_t (to_int (size_mul n esz)) = esz * n.
Proof.
  intros Hn He Hlt. change (2 ^ 31) with 2147483648 in Hlt.
  assert (E : size_mul n esz = esz * n).
  { rewrite size_mul_small;
      try (change (2 ^ 64) with 18446744073709551616); lia. }
  split; [exact E|]. rewrite E.
  rewrite to_int_small by (change (2 ^ 31) with 2147483648; lia).
  apply to_size_t_small. change (2 ^ 64) with 18446744073709551616. lia.
Qed.

Lemma elems_mul (esz n : Z) : 0 < esz -> elems esz (esz * n) = Z.to_nat n.
Proof.
  intros He. unfold elems. f_equal. rewrite Z.mul_comm. apply Z.div_mul. lia.
Qed.

Lemma handle_errors_eq (fn : string) (st : globals) :
  handle_errors fn st =
  (last_error st,
   set_trace (trace st ++
              (if negb (last_error st =? 0) then [EvMessageBox fn] else []))
     (set_status (last_error st) (set_last_error cudaSuccess st))).
Proof.
  destruct st. unfold handle_errors, cudaGetLastError, bind, get, modify, when,
    log, ret. cbn.
  destruct (negb (_ =? 0)); cbn; rewrite ?app_nil_r; reflexivity.
Qed.

Lemma startCUDAandSLM_state (EnableSLM mt ir : Z) (LUT : list Z) (st : globals) :
  0 <= BLOCK_SIZE <= 10000 ->
  0 <= SLM_SIZE -> 8 * (SLM_SIZE * SLM_SIZE) < 2 ^ 31 ->
  (256 <= length LUT)%nat ->
  let slm := bool_of_int EnableSLM in
  startup_bytes slm <= mem_avail st ->
  let r := startCUDAandSLM EnableSLM mt ir LUT st in
  let st' := snd r in
  let B := Z.to_nat BLOCK_SIZE in
  let NP := Z.to_nat (SLM_SIZE * SLM_SIZE) in
  fst r = last_error st /\
  (forall p, fptrs st' p =
     match p with
     | d_x | d_y | d_z | d_I | d_spotRe_f | d_spotIm_f =>
         Live (replicate B indeterminate)
     | d_weights => Live (replicate (Z.to_nat (BLOCK_SIZE * 1001)) indeterminate)
     | d_amps => Live (replicate (Z.to_nat (BLOCK_SIZE * 1000)) indeterminate)
     | d_pSLM_f => Live (replicate NP (float_of_int 0))
     | d_pSLMstart_f => Live (replicate NP indeterminate)
     | d_weights_start => Live (replicate B (float_of_int 1))
     | d_AberrationCorr_f | d_LUTPolCoeff_f | d_aLaserFFT | d_LUT_coeff =>
         fptrs st p
     end) /\
  (forall p, ucptrs st' p =
     match p with
     | d_pSLM_uc => Live (replicate NP indeterminate_int)
     | d_LUT_uc => if slm then Live (take 256 LUT) else ucptrs st d_LUT_uc
     end) /\
  (forall p, ccptrs st' p = Live (replicate NP (indeterminate, indeterminate))) /\
  d_spot_index st' = Live (replicate B indeterminate_int) /\
  plan st' = Some (SLM_SIZE, SLM_SIZE) /\
  mem_avail st' = mem_avail st - startup_bytes slm /\
  mem_total st' = mem_total st /\
  EnableSLM_b st' = slm /\
  ApplyLUT_b st' = (if slm then bool_of_int ir else false) /\
  UseAberrationCorr_b st' = UseAberrationCorr_b st /\
  UseLUTPol_b st' = UseLUTPol_b st /\
  last_error st' = cudaSuccess /\
  status st' = last_error st /\
  trace st' =
    trace st ++
    [EvMalloc (PF d_x) (4 * BLOCK_SIZE); EvMalloc (PF d_y) (4 * BLOCK_SIZE);
     EvMalloc (PF d_z) (4 * BLOCK_SIZE); EvMalloc (PF d_I) (4 * BLOCK_SIZE);
     EvMalloc (PF d_weights) (4 * (BLOCK_SIZE * 1001));
     EvMalloc (PF d_amps) (4 * (BLOCK_SIZE * 1000));
     EvMalloc (PF d_spotRe_f) (4 * BLOCK_SIZE);
     EvMalloc (PF d_spotIm_f) (4 * BLOCK_SIZE);
     EvMalloc (PF d_pSLM_f) (4 * (SLM_SIZE * SLM_SIZE));
     EvMalloc (PF d_pSLMstart_f) (4 * (SLM_SIZE * SLM_SIZE));
     EvMalloc (PUC d_pSLM_uc) (1 * (SLM_SIZE * SLM_SIZE));
     EvMalloc PSpotIndex (4 * BLOCK_SIZE);
     EvMalloc (PCC d_FFTd_cc) (8 * (SLM_SIZE * SLM_SIZE));
     EvMalloc (PCC d_FFTo_cc) (8 * (SLM_SIZE * SLM_SIZE));
     EvMalloc (PCC d_SLM_cc) (8 * (SLM_SIZE * SLM_SIZE));
     EvPlan2d SLM_SIZE SLM_SIZE;
     EvMalloc (PF d_weights_start) (4 * BLOCK_SIZE)] ++
    (if slm then [EvInitalizeSLM; EvMalloc (PUC d_LUT_uc) 256; EvSetPower true]
     else []) ++
    (if negb (last_error st =? 0) then [EvMessageBox "startCUDAandSLM"] else []).
Proof.
  intros HB HS0 HS HLUT slm Hmem r st' B NP.
  subst r st'. unfold startup_bytes in *.
  change (2 ^ 31) with 2147483648 in HS.
  assert (Hnp : to_int (SLM_SIZE * SLM_SIZE) = SLM_SIZE * SLM_SIZE)
    by (apply to_int_small; change (2 ^ 31) with 2147483648; nia).
  assert (HNP0 : 0 <= SLM_SIZE * SLM_SIZE) by nia.
  destruct (size_mul_int BLOCK_SIZE sizeof_float) as (Eb1 & Eb2);
    [lia|reflexivity|unfold sizeof_float; change (2 ^ 31) with 2147483648; lia|].
  destruct (size_mul_int (BLOCK_SIZE * (MaxIterations + 1)) sizeof_float) as (Ew1 & _);
    [unfold MaxIterations; lia|reflexivity|
     unfold sizeof_float, MaxIterations; change (2 ^ 31) with 2147483648; lia|].
  destruct (size_mul_int (BLOCK_SIZE * MaxIterations) sizeof_float) as (Ea1 & _);
    [unfold MaxIterations; lia|reflexivity|
     unfold sizeof_float, MaxIterations; change (2 ^ 31) with 2147483648; lia|].
  destruct (size_mul_int (SLM_SIZE * SLM_SIZE) sizeof_float) as (Ef1 & Ef2);
    [lia|reflexivity|unfold sizeof_float; change (2 ^ 31) with 2147483648; lia|].
  destruct (size_mul_int (SLM_SIZE * SLM_SIZE) sizeof_uchar) as (Eu1 & Eu2);
    [lia|reflexivity|unfold sizeof_uchar; change (2 ^ 31) with 2147483648; lia|].
  destruct (size_mul_int (SLM_SIZE * SLM_SIZE) sizeof_cufftComplex) as (Ec1 & Ec2);
    [lia|reflexivity|
     unfold sizeof_cufftComplex; change (2 ^ 31) with 2147483648; lia|].
  destruct (size_mul_int BLOCK_SIZE sizeof_int) as (Ei1 & _);
    [lia|reflexivity|unfold sizeof_int; change (2 ^ 31) with 2147483648; lia|].
  assert (Ew : to_int (BLOCK_SIZE * (MaxIterations + 1)) = BLOCK_SIZE * (MaxIterations + 1))
    by (apply to_int_small; unfold MaxIterations;
        change (2 ^ 31) with 2147483648; lia).
  assert (Ea : to_int (BLOCK_SIZE * MaxIterations) = BLOCK_SIZE * MaxIterations)
    by (apply to_int_small; unfold MaxIterations;
        change (2 ^ 31) with 2147483648; lia).
  destruct st as [F U C SI P I b1 b2 b3 b4 s e m t tr].
  cbn [mem_avail last_error fptrs ucptrs trace mem_total UseAberrationCorr_b
       UseLUTPol_b] in *.
  assert (Hslm : 0 <= (if slm then 256 else 0)) by (destruct slm; lia).
  (* the allocations, up to the choice on the modulator *)
  eassert (Hrun : startCUDAandSLM EnableSLM mt ir LUT
                   (Build_globals F U C SI P I b1 b2 b3 b4 s e m t tr) = _).
  { unfold startCUDAandSLM.
    unfold set_int. repeat (rewrite bind_modify; norm_state).
    rewrite bind_get. norm_state. upd_simpl.
    repeat (rewrite bind_modify; norm_state).
    repeat (rewrite bind_get; norm_state; upd_simpl).
    unfold MaxSpots.
    rewrite ?Hnp, ?Ew, ?Ea, ?Eb2, ?Ew1, ?Ea1, ?Ef2, ?Eu2, ?Ec2, ?Ef1, ?Ei1, ?Eb1.
    unfold sizeof_float, sizeof_uchar, sizeof_cufftComplex, sizeof_int.
    unfold MaxIterations. change (1000 + 1) with 1001.
    do 10 step_with malloc_f_ok.
    step_with malloc_uc_ok.
    rewrite bind_get; norm_state; upd_simpl.
    change (elems sizeof_float) with (elems 4).
    change (elems sizeof_uchar) with (elems 1).
    rewrite !elems_mul by lia.
    (erewrite bind_eval;
       [|apply cudaMemset0_ok; rewrite elems_mul, length_replicate by lia;
         reflexivity]); norm_state.
    rewrite elems_mul by lia.
    rewrite drop_replicate, Nat.sub_diag, app_nil_r.
    unfold set_fptr at 1. rewrite bind_modify. norm_state.
    step_with malloc_spot_index_ok.
    do 3 step_with malloc_cc_ok.
    rewrite bind_get; norm_state; upd_simpl.
    unfold log at 1. rewrite bind_modify. norm_state.
    rewrite bind_modify. norm_state.
    step_with malloc_f_ok.
    rewrite store_loop_prefix
      by (rewrite length_replicate; lia).
    change (elems sizeof_float) with (elems 4).
    change (elems sizeof_int) with (elems 4).
    change (elems sizeof_cufftComplex) with (elems 8).
    rewrite !elems_mul by lia.
    (erewrite bind_eval;
       [|apply upload_f_ok;
         [norm_state; upd_simpl; reflexivity
         |rewrite elems_mul, length_replicate by lia; reflexivity
         |rewrite elems_mul, length_app, length_replicate by lia; lia]]);
      norm_state; upd_simpl.
    change (elems sizeof_float) with (elems 4).
    rewrite !elems_mul by lia.
    rewrite take_app_length' by (rewrite length_replicate; reflexivity).
    rewrite (drop_replicate (Z.to_nat BLOCK_SIZE) (Z.to_nat BLOCK_SIZE)),
      Nat.sub_diag, app_nil_r.
    rewrite bind_modify. norm_state. rewrite bind_get. norm_state.
    rewrite bind_state. cbv beta.
    reflexivity. }
  rewrite Hrun. clear Hrun.
  fold slm. fold slm in Hmem.
  destruct slm; cbv iota.
  - match goal with
    | |- context [handle_errors _ (snd (?m ?X))] => eassert (Hrun : m X = _)
    end.
    { unfold log at 1. rewrite bind_modify. norm_state.
      rewrite bind_modify. norm_state.
      step_with malloc_uc_ok.
      change (elems sizeof_uchar 256) with 256%nat.
      (erewrite bind_eval;
         [|apply upload_uc_ok;
           [norm_state; upd_simpl; reflexivity
           |change (elems sizeof_uchar 256) with 256%nat;
            rewrite length_replicate; reflexivity
           |exact HLUT]]);
        norm_state; upd_simpl.
      change (elems sizeof_uchar 256) with 256%nat.
      rewrite (drop_replicate 256 256), Nat.sub_diag, app_nil_r.
      unfold log at 1. unfold modify at 1. norm_state.
      reflexivity. }
    rewrite Hrun. clear Hrun.
    rewrite handle_errors_eq. norm_state.
    repeat match goal with |- _ /\ _ => split end;
      try reflexivity; try lia;
      try (intros p; destruct p; upd_simpl; reflexivity).
    rewrite <- !app_assoc. reflexivity.
  - unfold modify. norm_state.
    rewrite handle_errors_eq. norm_state.
    repeat match goal with |- _ /\ _ => split end;
      try reflexivity; try lia;
      try (intros p; destruct p; upd_simpl; reflexivity).
    rewrite <- !app_assoc. reflexivity.
Qed.
Lemma startup_bytes_nonneg (slm : bool) :
  0 <= BLOCK_SIZE -> 0 <= startup_bytes slm.
Proof.
  intros HB. pose proof (Z.square_nonneg SLM_SIZE).
  unfold startup_bytes. destruct slm; lia.
Qed.


(** X2.  The modulator at start-up.  Asked not to use it, the function
    makes no call to its driver, clears [ApplyLUT_b] and leaves the pointer
    to the look-up table as it was.  Asked to use it, it calls
    [InitalizeSLM], takes its answer as [ApplyLUT_b] (true for hardware that
    does not apply the table itself), puts the 256 bytes the driver stored on
    the device, and switches the power on. *)
Theorem startCUDAandSLM_modulator (EnableSLM mt ir : Z) (LUT : list Z)
    (st : globals) :
  0 <= BLOCK_SIZE <= 10000 ->
  0 <= SLM_SIZE -> 8 * (SLM_SIZE * SLM_SIZE) < 2 ^ 31 ->
  (256 <= length LUT)%nat ->
  startup_bytes (bool_of_int EnableSLM) <= mem_avail st ->
  let st' := snd (startCUDAandSLM EnableSLM mt ir LUT st) in
  let calls := List.filter driver_call (new_events (trace st) (trace st')) in
  EnableSLM_b st' = bool_of_int EnableSLM /\
  if bool_of_int EnableSLM then
    ApplyLUT_b st' = bool_of_int ir /\
    ucptrs st' d_LUT_uc = Live (take 256 LUT) /\
    calls = [EvInitalizeSLM; EvSetPower true]
  else
    ApplyLUT_b st' = false /\
    ucptrs st' d_LUT_uc = ucptrs st d_LUT_uc /\
    calls = [].
Proof.
  intros HB HS0 HS HLUT Hmem.
  destruct (startCUDAandSLM_state EnableSLM mt ir LUT st HB HS0 HS HLUT Hmem)
    as (_ & _ & Hu & _ & _ & _ & _ & _ & Hen & Hlut & _ & _ & _ & _ & Htr).
  cbv zeta in *. split; [exact Hen|].
  rewrite Htr, new_events_app. specialize (Hu d_LUT_uc). cbv iota in Hu.
  destruct (bool_of_int EnableSLM); (split; [exact Hlut|split; [exact Hu|]]).
  - rewrite !List.filter_app. cbn [List.filter driver_call app].
    destruct (negb (last_error st =? 0)); reflexivity.
  - rewrite !List.filter_app. cbn [List.filter driver_call app].
    destruct (negb (last_error st =? 0)); reflexivity.
Qed.

(** X3.  [startCUDAandSLM] releases nothing: it takes its memory again
    every time it is called.  Called twice in a row, it has taken twice the
    bytes of a session, and the buffers of the first session, whose addresses
    the second call overwrites, are still allocated. *)
Theorem startCUDAandSLM_twice (EnableSLM mt ir : Z) (LUT : list Z)
    (EnableSLM' mt' ir' : Z) (LUT' : list Z) (st : globals) :
  0 <= BLOCK_SIZE <= 10000 ->
  0 <= SLM_SIZE -> 8 * (SLM_SIZE * SLM_SIZE) < 2 ^ 31 ->
  (256 <= length LUT)%nat -> (256 <= length LUT')%nat ->
  startup_bytes (bool_of_int EnableSLM) +
  startup_bytes (bool_of_int EnableSLM') <= mem_avail st ->
  let st1 := snd (startCUDAandSLM EnableSLM mt ir LUT st) in
  let st2 := snd (startCUDAandSLM EnableSLM' mt' ir' LUT' st1) in
  mem_avail st1 = mem_avail st - startup_bytes (bool_of_int EnableSLM) /\
  mem_avail st2 =
    mem_avail st - startup_bytes (bool_of_int EnableSLM) -
    startup_bytes (bool_of_int EnableSLM') /\
  List.filter (fun e => match e with EvFree _ => true | _ => false end)
    (new_events (trace st) (trace st2)) = [].
Proof.
  intros HB HS0 HS HLUT HLUT' Hmem.
  assert (H0' : 0 <= startup_bytes (bool_of_int EnableSLM') /\
                0 <= startup_bytes (bool_of_int EnableSLM)).
  { split; apply startup_bytes_nonneg; lia. }
  destruct (startCUDAandSLM_state EnableSLM mt ir LUT st HB HS0 HS HLUT
              ltac:(lia))
    as (_ & _ & _ & _ & _ & _ & Hm1 & _ & _ & _ & _ & _ & _ & _ & Htr1).
  cbv zeta in *.
  set (st1 := snd (startCUDAandSLM EnableSLM mt ir LUT st)) in *.
  clearbody st1.
  destruct (startCUDAandSLM_state EnableSLM' mt' ir' LUT' st1 HB HS0 HS HLUT'
              ltac:(lia))
    as (_ & _ & _ & _ & _ & _ & Hm2 & _ & _ & _ & _ & _ & El1 & Hs2 & Htr2).
  cbv zeta in *.
  split; [exact Hm1|]. split; [lia|].
  rewrite Htr2, Htr1, <- !app_assoc, new_events_app.
  rewrite !List.filter_app. cbn [List.filter app].
  destruct (bool_of_int EnableSLM), (bool_of_int EnableSLM'),
    (negb (last_error st =? 0)), (negb (last_error st1 =? 0)); reflexivity.
Qed.

End Startup.

Section StartupSizes.
Context `{FloatOps} `{Header} `{!Kernels}.

Lemma startCUDAandSLM_ints (EnableSLM mt ir : Z) (LUT : list Z) (st : globals) :
  ints (snd (startCUDAandSLM EnableSLM mt ir LUT st)) =
  let np := to_int (SLM_SIZE * SLM_SIZE) in
  upd n_blocks_Phi
    (to_int (Z.quot np BLOCK_SIZE + (if Z.rem np BLOCK_SIZE =? 0 then 0 else 1)))
    (upd memsize_SLMcc (to_int (size_mul np sizeof_cufftComplex))
       (upd memsize_SLMuc (to_int (size_mul np sizeof_uchar))
          (upd memsize_SLMf (to_int (size_mul np sizeof_float))
             (upd memsize_spotsf (to_int (size_mul BLOCK_SIZE sizeof_float))
                (upd N_iterations_last 10
                   (upd N_pixels np
                      (upd data_w SLM_SIZE
                         (upd maxThreads_device mt (ints st))))))))).
Proof.
  unfold startCUDAandSLM, set_int.
  repeat (rewrite bind_modify; norm_state).
  rewrite bind_get. norm_state. upd_simpl.
  repeat (rewrite bind_modify; norm_state).
  repeat (rewrite bind_get; norm_state; upd_simpl).
  match goal with
  | |- ints (snd (?m ?X)) = _ =>
      assert (Hfr : steps m (same ints)) by steps_run same_leaf;
      specialize (Hfr X); unfold same in Hfr; rewrite Hfr
  end.
  reflexivity.
Qed.

(** X4.  Whatever the state of the device, [startCUDAandSLM] sets the sizes
    of the session from the two constants of the header: the side and the
    pixel count of the field, the byte sizes of a float field, a byte field
    and a complex field, and of the spot arrays.  The grid [n_blocks_Phi] it
    fixes for the per-pixel kernels is the least number of blocks of
    [BLOCK_SIZE] threads that covers every pixel. *)
Theorem startCUDAandSLM_sizes (EnableSLM mt ir : Z) (LUT : list Z)
    (st : globals) :
  0 < BLOCK_SIZE < 2 ^ 29 ->
  0 <= SLM_SIZE -> 8 * (SLM_SIZE * SLM_SIZE) < 2 ^ 31 ->
  let st' := snd (startCUDAandSLM EnableSLM mt ir LUT st) in
  let np := SLM_SIZE * SLM_SIZE in
  ints st' data_w = SLM_SIZE /\
  ints st' N_pixels = np /\
  ints st' memsize_SLMf = 4 * np /\
  ints st' memsize_SLMuc = np /\
  ints st' memsize_SLMcc = 8 * np /\
  ints st' memsize_spotsf = 4 * BLOCK_SIZE /\
  ints st' maxThreads_device = mt /\
  ints st' N_LUTPolCoeff = ints st N_LUTPolCoeff /\
  (ints st' n_blocks_Phi - 1) * BLOCK_SIZE < np <=
    ints st' n_blocks_Phi * BLOCK_SIZE.
Proof.
  intros HB HS0 HS st' np. subst st'.
  rewrite startCUDAandSLM_ints. cbv zeta. upd_simpl.
  change (2 ^ 29) with 536870912 in HB.
  change (2 ^ 31) with 2147483648 in HS.
  assert (HNP0 : 0 <= np) by (subst np; nia). fold np. fold np in HS.
  clearbody np.
  assert (Hnp : to_int np = np)
    by (apply to_int_small; change (2 ^ 31) with 2147483648; lia).
  rewrite Hnp.
  destruct (size_mul_int np sizeof_float) as (Ef & _);
    [lia|reflexivity|unfold sizeof_float; change (2 ^ 31) with 2147483648; lia|].
  destruct (size_mul_int np sizeof_uchar) as (Eu & _);
    [lia|reflexivity|unfold sizeof_uchar; change (2 ^ 31) with 2147483648; lia|].
  destruct (size_mul_int np sizeof_cufftComplex) as (Ec & _);
    [lia|reflexivity|
     unfold sizeof_cufftComplex; change (2 ^ 31) with 2147483648; lia|].
  destruct (size_mul_int BLOCK_SIZE sizeof_float) as (Eb & _);
    [lia|reflexivity|unfold sizeof_float; change (2 ^ 31) with 2147483648; lia|].
  rewrite Ef, Eu, Ec, Eb.
  unfold sizeof_float, sizeof_uchar, sizeof_cufftComplex.
  rewrite (to_int_small (4 * np)), (to_int_small (1 * np)),
    (to_int_small (8 * np)), (to_int_small (4 * BLOCK_SIZE))
    by (change (2 ^ 31) with 2147483648; lia).
  repeat (split; [reflexivity || lia|]).
  rewrite Z.quot_div_nonneg, Z.rem_mod_nonneg by lia.
  assert (HBnz : BLOCK_SIZE <> 0) by lia.
  assert (HBpos : 0 < BLOCK_SIZE) by lia.
  pose proof (Z.div_mod np BLOCK_SIZE HBnz) as Hdm.
  pose proof (Z.mod_pos_bound np BLOCK_SIZE HBpos) as Hmod.
  assert (Hq : 0 <= np / BLOCK_SIZE) by (apply Z.div_pos; lia).
  assert (Hq2 : np / BLOCK_SIZE <= np) by (apply Z.div_le_upper_bound; nia).
  destruct (np mod BLOCK_SIZE =? 0) eqn:E.
  - apply Z.eqb_eq in E. cbv iota.
    rewrite to_int_small by (change (2 ^ 31) with 2147483648; lia). nia.
  - apply Z.eqb_neq in E. cbv iota.
    rewrite to_int_small by (change (2 ^ 31) with 2147483648; lia). nia.
Qed.

End StartupSizes.

Section StartupMemory.
Context `{FloatOps} `{Header} `{!Kernels}.

#[global] Instance spends_nothing_preorder : PreOrder (spends 0).
Proof.
  split.
  - intros st. right. repeat split; lia.
  - intros a b c [Hb|(Eb & Mb & Nb)] [Hc|(Ec & Mc & Nc)].
    + left. exact Hc.
    + left. congruence.
    + left. exact Hc.
    + right. repeat split; [congruence|lia|auto].
Qed.


Lemma spends_eq {A : Type} (m : M A) (b b' : Z) :
  steps m (spends b) -> b = b' -> steps m (spends b').
Proof. intros Hm <-. exact Hm. Qed.


End StartupMemory.



Section StartupFailure.
Context `{FloatOps} `{Header} `{!Kernels}.




Lemma fails_below_eq (m : M Z) (b b' : Z) :
  fails_below m b -> b = b' -> fails_below m b'.
Proof. intros Hm <-. exact Hm. Qed.

End StartupFailure.


Section StartupOutcome.
Context `{FloatOps} `{Header} `{!Kernels}.



End StartupOutcome.

Section ShutdownState.
Context `{FloatOps} `{Header} `{!Kernels}.

Lemma cudaFree_eq {A : Type} (name : pname) (esz : Z) (p : devptr A)
    (st : globals) :
  cudaFree name esz p st =
  (released p,
   set_last_error (release_error p (last_error st))
     (set_mem_avail (mem_avail st + released_bytes esz p)
        (set_trace (trace st ++ [EvFree name]) st))).
Proof.
  destruct st, p; unfold cudaFree, log, raise, bind, get, modify, ret; cbn;
    rewrite ?Z.add_0_r; reflexivity.
Qed.

Lemma free_f_eq (p : fptr) (st : globals) :
  free_f p st =
  (tt, set_fptrs (upd p (released (fptrs st p)) (fptrs st))
         (set_last_error (release_error (fptrs st p) (last_error st))
            (set_mem_avail (mem_avail st + released_bytes sizeof_float (fptrs st p))
               (set_trace (trace st ++ [EvFree (PF p)]) st)))).
Proof.
  unfold free_f. rewrite bind_get.
  rewrite (bind_eval _ _ _ _ _ (cudaFree_eq _ _ _ st)). reflexivity.
Qed.

Lemma free_uc_eq (p : ucptr) (st : globals) :
  free_uc p st =
  (tt, set_ucptrs (upd p (released (ucptrs st p)) (ucptrs st))
         (set_last_error (release_error (ucptrs st p) (last_error st))
            (set_mem_avail (mem_avail st + released_bytes sizeof_uchar (ucptrs st p))
               (set_trace (trace st ++ [EvFree (PUC p)]) st)))).
Proof.
  unfold free_uc. rewrite bind_get.
  rewrite (bind_eval _ _ _ _ _ (cudaFree_eq _ _ _ st)). reflexivity.
Qed.

Lemma free_cc_eq (p : ccptr) (st : globals) :
  free_cc p st =
  (tt, set_ccptrs (upd p (released (ccptrs st p)) (ccptrs st))
         (set_last_error (release_error (ccptrs st p) (last_error st))
            (set_mem_avail
               (mem_avail st + released_bytes sizeof_cufftComplex (ccptrs st p))
               (set_trace (trace st ++ [EvFree (PCC p)]) st)))).
Proof.
  unfold free_cc. rewrite bind_get.
  rewrite (bind_eval _ _ _ _ _ (cudaFree_eq _ _ _ st)). reflexivity.
Qed.

Lemma release_error_stuck {A : Type} (p : devptr A) :
  release_error p cudaErrorInvalidDevicePointer = cudaErrorInvalidDevicePointer.
Proof. destruct p; reflexivity. Qed.

Lemma release_error_sound {A : Type} (p : devptr A) (e : Z) :
  p <> Stale -> release_error p e = e.
Proof. intros Hp. destruct p; try reflexivity. congruence. Qed.

Ltac step_eq lem := rewrite (bind_eval _ _ _ _ _ (lem _ _)); norm_state; upd_simpl.

Lemma release_buffers_eq (st : globals) :
  release_buffers st =
  (tt,
   set_plan None
     (set_trace
        (trace st ++
         [EvFree (PF d_x); EvFree (PF d_y); EvFree (PF d_z); EvFree (PF d_I);
          EvFree (PF d_weights); EvFree (PF d_amps); EvFree (PF d_pSLM_f);
          EvFree (PF d_pSLMstart_f); EvFree (PUC d_pSLM_uc);
          EvFree (PCC d_FFTd_cc); EvFree (PCC d_FFTo_cc);
          EvFree (PCC d_SLM_cc); EvPlanDestroy])
        (set_last_error
           (release_error (ccptrs st d_SLM_cc)
              (release_error (ccptrs st d_FFTo_cc)
                 (release_error (ccptrs st d_FFTd_cc)
                    (release_error (ucptrs st d_pSLM_uc)
                       (release_error (fptrs st d_pSLMstart_f)
                          (release_error (fptrs st d_pSLM_f)
                             (release_error (fptrs st d_amps)
                                (release_error (fptrs st d_weights)
                                   (release_error (fptrs st d_I)
                                      (release_error (fptrs st d_z)
                                         (release_error (fptrs st d_y)
                                            (release_error (fptrs st d_x)
                                               (last_error st)))))))))))))
           (set_mem_avail
              (mem_avail st +
               released_bytes sizeof_float (fptrs st d_x) +
               released_bytes sizeof_float (fptrs st d_y) +
               released_bytes sizeof_float (fptrs st d_z) +
               released_bytes sizeof_float (fptrs st d_I) +
               released_bytes sizeof_float (fptrs st d_weights) +
               released_bytes sizeof_float (fptrs st d_amps) +
               released_bytes sizeof_float (fptrs st d_pSLM_f) +
               released_bytes sizeof_float (fptrs st d_pSLMstart_f) +
               released_bytes sizeof_uchar (ucptrs st d_pSLM_uc) +
               released_bytes sizeof_cufftComplex (ccptrs st d_FFTd_cc) +
               released_bytes sizeof_cufftComplex (ccptrs st d_FFTo_cc) +
               released_bytes sizeof_cufftComplex (ccptrs st d_SLM_cc))
              (set_ccptrs
                 (upd d_SLM_cc (released (ccptrs st d_SLM_cc))
                    (upd d_FFTo_cc (released (ccptrs st d_FFTo_cc))
                       (upd d_FFTd_cc (released (ccptrs st d_FFTd_cc))
                          (ccptrs st))))
                 (set_ucptrs
                    (upd d_pSLM_uc (released (ucptrs st d_pSLM_uc)) (ucptrs st))
                    (set_fptrs
                       (upd d_pSLMstart_f (released (fptrs st d_pSLMstart_f))
                          (upd d_pSLM_f (released (fptrs st d_pSLM_f))
                             (upd d_amps (released (fptrs st d_amps))
                                (upd d_weights (released (fptrs st d_weights))
                                   (upd d_I (released (fptrs st d_I))
                                      (upd d_z (released (fptrs st d_z))
                                         (upd d_y (released (fptrs st d_y))
                                            (upd d_x (released (fptrs st d_x))
                                               (fptrs st)))))))))
                       st))))))).
Proof.
  destruct st as [F U C SI P I b1 b2 b3 b4 s e m t tr].
  unfold release_buffers.
  do 8 step_eq free_f_eq.
  step_eq free_uc_eq.
  do 3 step_eq free_cc_eq.
  unfold log at 1. rewrite bind_modify. norm_state.
  unfold modify. norm_state.
  rewrite <- !app_assoc. reflexivity.
Qed.

Lemma release_LUT_eq (st : globals) :
  release_LUT st =
  (tt,
   if ApplyLUT_b st then
     set_ucptrs
       (upd d_LUT_uc NullPtr
          (upd d_LUT_uc (released (ucptrs st d_LUT_uc)) (ucptrs st)))
       (set_last_error (release_error (ucptrs st d_LUT_uc) (last_error st))
          (set_mem_avail
             (mem_avail st + released_bytes sizeof_uchar (ucptrs st d_LUT_uc))
             (set_trace (trace st ++ [EvFree (PUC d_LUT_uc)]) st)))
   else st).
Proof.
  destruct st as [F U C SI P I b1 b2 b3 b4 s e m t tr].
  unfold release_LUT. rewrite bind_get. norm_state.
  destruct b1; [|reflexivity]. unfold when.
  step_eq free_uc_eq. unfold set_ucptr, modify. norm_state. reflexivity.
Qed.

Lemma release_aberration_eq (st : globals) :
  release_aberration st =
  (tt,
   if UseAberrationCorr_b st then
     set_fptrs
       (upd d_AberrationCorr_f NullPtr
          (upd d_AberrationCorr_f (released (fptrs st d_AberrationCorr_f))
             (fptrs st)))
       (set_last_error
          (release_error (fptrs st d_AberrationCorr_f) (last_error st))
          (set_mem_avail
             (mem_avail st +
              released_bytes sizeof_float (fptrs st d_AberrationCorr_f))
             (set_trace (trace st ++ [EvFree (PF d_AberrationCorr_f)]) st)))
   else st).
Proof.
  destruct st as [F U C SI P I b1 b2 b3 b4 s e m t tr].
  unfold release_aberration. rewrite bind_get. norm_state.
  destruct b3; [|reflexivity]. unfold when.
  step_eq free_f_eq. unfold set_fptr, modify. norm_state. reflexivity.
Qed.

Lemma release_polynomial_eq (st : globals) :
  release_polynomial st =
  (tt,
   if UseLUTPol_b st then
     set_fptrs
       (upd d_LUTPolCoeff_f NullPtr
          (upd d_LUTPolCoeff_f (released (fptrs st d_LUTPolCoeff_f))
             (fptrs st)))
       (set_last_error
          (release_error (fptrs st d_LUTPolCoeff_f) (last_error st))
          (set_mem_avail
             (mem_avail st +
              released_bytes sizeof_float (fptrs st d_LUTPolCoeff_f))
             (set_trace (trace st ++ [EvFree (PF d_LUTPolCoeff_f)]) st)))
   else st).
Proof.
  destruct st as [F U C SI P I b1 b2 b3 b4 s e m t tr].
  unfold release_polynomial. rewrite bind_get. norm_state.
  destruct b4; [|reflexivity]. unfold when.
  step_eq free_f_eq. unfold set_fptr, modify. norm_state. reflexivity.
Qed.

Lemma stopCUDAandSLM_state (st : globals) :
  let r := stopCUDAandSLM st in
  let st' := snd r in
  let e12 :=
    release_error (ccptrs st d_SLM_cc)
      (release_error (ccptrs st d_FFTo_cc)
         (release_error (ccptrs st d_FFTd_cc)
            (release_error (ucptrs st d_pSLM_uc)
               (release_error (fptrs st d_pSLMstart_f)
                  (release_error (fptrs st d_pSLM_f)
                     (release_error (fptrs st d_amps)
                        (release_error (fptrs st d_weights)
                           (release_error (fptrs st d_I)
                              (release_error (fptrs st d_z)
                                 (release_error (fptrs st d_y)
                                    (release_error (fptrs st d_x)
                                       (last_error st)))))))))))) in
  let e13 := if ApplyLUT_b st
             then release_error (ucptrs st d_LUT_uc) e12 else e12 in
  let e14 := if UseAberrationCorr_b st
             then release_error (fptrs st d_AberrationCorr_f) e13 else e13 in
  let e15 := if UseLUTPol_b st
             then release_error (fptrs st d_LUTPolCoeff_f) e14 else e14 in
  fst r = e15 /\
  (forall p, fptrs st' p =
     invalidate
       match p with
       | d_x | d_y | d_z | d_I | d_weights | d_amps | d_pSLM_f
       | d_pSLMstart_f => released (fptrs st p)
       | d_AberrationCorr_f =>
           if UseAberrationCorr_b st then NullPtr else fptrs st p
       | d_LUTPolCoeff_f => if UseLUTPol_b st then NullPtr else fptrs st p
       | _ => fptrs st p
       end) /\
  (forall p, ucptrs st' p =
     invalidate
       match p with
       | d_pSLM_uc => released (ucptrs st p)
       | d_LUT_uc => if ApplyLUT_b st then NullPtr else ucptrs st p
       end) /\
  (forall p, ccptrs st' p = invalidate (released (ccptrs st p))) /\
  d_spot_index st' = invalidate (d_spot_index st) /\
  ints st' = ints st /\
  ApplyLUT_b st' = ApplyLUT_b st /\
  EnableSLM_b st' = EnableSLM_b st /\
  UseAberrationCorr_b st' = UseAberrationCorr_b st /\
  UseLUTPol_b st' = UseLUTPol_b st /\
  plan st' = None /\
  mem_avail st' = mem_total st /\
  mem_total st' = mem_total st /\
  last_error st' = cudaSuccess /\
  status st' = e15 /\
  trace st' =
    trace st ++
    [EvFree (PF d_x); EvFree (PF d_y); EvFree (PF d_z); EvFree (PF d_I);
     EvFree (PF d_weights); EvFree (PF d_amps); EvFree (PF d_pSLM_f);
     EvFree (PF d_pSLMstart_f); EvFree (PUC d_pSLM_uc);
     EvFree (PCC d_FFTd_cc); EvFree (PCC d_FFTo_cc); EvFree (PCC d_SLM_cc);
     EvPlanDestroy] ++
    (if ApplyLUT_b st then [EvFree (PUC d_LUT_uc)] else []) ++
    (if UseAberrationCorr_b st then [EvFree (PF d_AberrationCorr_f)] else []) ++
    (if UseLUTPol_b st then [EvFree (PF d_LUTPolCoeff_f)] else []) ++
    (if negb (e15 =? 0) then [EvMessageBox "stopCUDAandSLM"] else []) ++
    [EvDeviceReset] ++
    (if EnableSLM_b st then [EvShutDownSLM] else []).
Proof.
  destruct st as [F U C SI P I b1 b2 b3 b4 s e m t tr].
  cbv zeta. norm_state.
  destruct b1, b3, b4, b2.
  all: match goal with
       | |- context [stopCUDAandSLM ?X] =>
           eassert (Hstop : stopCUDAandSLM X = _)
       end;
    [ unfold stopCUDAandSLM, release_corrections;
      rewrite (bind_eval _ _ _ _ _ (release_buffers_eq _)); norm_state;
      rewrite bind_state; cbv beta;
      rewrite (bind_eval _ _ _ _ _ (release_LUT_eq _)); norm_state;
      upd_simpl; cbv iota;
      rewrite (bind_eval _ _ _ _ _ (release_aberration_eq _)); norm_state;
      upd_simpl; cbv iota;
      rewrite release_polynomial_eq; norm_state; upd_simpl; cbv iota;
      rewrite (bind_eval _ _ _ _ _ (handle_errors_eq _ _)); norm_state;
      rewrite bind_state; cbv beta;
      unfold cudaDeviceReset, log; rewrite !bind_modify; norm_state;
      unfold modify at 1; norm_state;
      rewrite bind_get; norm_state; unfold when, log; cbv iota;
      rewrite ?bind_modify; norm_state;
      unfold bind, modify, get, ret; norm_state;
      reflexivity
    | rewrite Hstop; clear Hstop; norm_state ].
  all: repeat match goal with |- _ /\ _ => split end.
  all: try reflexivity.
  all: try (intros p; destruct p; upd_simpl; reflexivity).
  all: try (rewrite <- !app_assoc; reflexivity).
Qed.


(** X6.  The calls [stopCUDAandSLM] makes, in order: [cudaFree] on the twelve
    buffers, the FFT plan destroyed, [cudaFree] on each optional table whose
    flag is set, the message box if an error is pending, the device reset,
    and the modulator shut down if it was enabled.  The reset and the
    shut-down happen whether or not a release failed.  The status returned is
    the error pending before the reset, and no error is pending afterwards. *)
Theorem stopCUDAandSLM_calls (st : globals) :
  let r := stopCUDAandSLM st in
  let st' := snd r in
  new_events (trace st) (trace st') =
    [EvFree (PF d_x); EvFree (PF d_y); EvFree (PF d_z); EvFree (PF d_I);
     EvFree (PF d_weights); EvFree (PF d_amps); EvFree (PF d_pSLM_f);
     EvFree (PF d_pSLMstart_f); EvFree (PUC d_pSLM_uc);
     EvFree (PCC d_FFTd_cc); EvFree (PCC d_FFTo_cc); EvFree (PCC d_SLM_cc);
     EvPlanDestroy] ++
    (if ApplyLUT_b st then [EvFree (PUC d_LUT_uc)] else []) ++
    (if UseAberrationCorr_b st then [EvFree (PF d_AberrationCorr_f)] else []) ++
    (if UseLUTPol_b st then [EvFree (PF d_LUTPolCoeff_f)] else []) ++
    (if negb (fst r =? 0) then [EvMessageBox "stopCUDAandSLM"] else []) ++
    [EvDeviceReset] ++
    (if EnableSLM_b st then [EvShutDownSLM] else []) /\
  status st' = fst r /\
  last_error st' = cudaSuccess /\
  (last_error st <> 0 -> fst r <> 0).
Proof.
  pose proof (stopCUDAandSLM_state st) as Hs. cbv zeta in Hs |- *.
  destruct Hs as (Hr & _ & _ & _ & _ & _ & _ & _ & _ & _ & _ & _ & _ & He & Hst & Htr).
  rewrite Htr, new_events_app, Hr, Hst, He.
  repeat split.
  intros Hne.
  assert (Hrel : forall (A : Type) (p : devptr A) e, e <> 0 -> release_error p e <> 0).
  { intros A p e He'. destruct p; cbn; [exact He'|exact He'|discriminate]. }
  destruct (ApplyLUT_b st), (UseAberrationCorr_b st), (UseLUTPol_b st);
    repeat apply Hrel; exact Hne.
Qed.


(** X8.  Neither [stopCUDAandSLM] nor [startCUDAandSLM] touches the flags of
    the aberration map and of the polynomial table.  A session that is
    stopped and started again still has the flags it had, while the tables
    themselves are gone: a correction that was on is on with a NULL table. *)
Theorem restart_keeps_correction_flags (EnableSLM mt ir : Z) (LUT : list Z)
    (st : globals) :
  0 <= BLOCK_SIZE <= 10000 ->
  0 <= SLM_SIZE -> 8 * (SLM_SIZE * SLM_SIZE) < 2 ^ 31 ->
  (256 <= length LUT)%nat ->
  startup_bytes (bool_of_int EnableSLM) <= mem_total st ->
  let st1 := snd (stopCUDAandSLM st) in
  let r := startCUDAandSLM EnableSLM mt ir LUT st1 in
  let st2 := snd r in
  fst r = cudaSuccess /\
  UseAberrationCorr_b st2 = UseAberrationCorr_b st /\
  UseLUTPol_b st2 = UseLUTPol_b st /\
  (UseAberrationCorr_b st = true -> fptrs st2 d_AberrationCorr_f = NullPtr) /\
  (UseLUTPol_b st = true -> fptrs st2 d_LUTPolCoeff_f = NullPtr).
Proof.
  intros HB HS0 HS HLUT Hmem.
  pose proof (stopCUDAandSLM_state st) as Hs. cbv zeta in Hs |- *.
  destruct Hs as (_ & Hf & _ & _ & _ & _ & _ & _ & Hb3 & Hb4 & _ & Hm & _ & He & _).
  set (st1 := snd (stopCUDAandSLM st)) in *. clearbody st1.
  destruct (startCUDAandSLM_state EnableSLM mt ir LUT st1 HB HS0 HS HLUT
              ltac:(cbv zeta; lia))
    as (Hr & Hf2 & _ & _ & _ & _ & _ & _ & _ & _ & Hc3 & Hc4 & _).
  cbv zeta in *.
  rewrite Hr, He, Hc3, Hc4, Hb3, Hb4, !Hf2, !Hf.
  repeat split.
  - intros ->. reflexivity.
  - intros ->. reflexivity.
Qed.

End ShutdownState.

Ltac same_other_leaf :=
  unfold same; norm_state;
  first [ rewrite !upd_other by congruence; reflexivity | reflexivity ].

Section Hologram.
Context `{FloatOps} `{Header} `{!Kernels}.

(** X9.  [GenerateHologram] works inside the session it finds.  It neither
    takes nor returns device memory, leaves the FFT plan and the four flags
    as they are, changes no integer variable but the byte size of the spot
    arrays, does not write the start weights, the correction tables or the
    look-up table, and logs nothing but kernel launches, transforms, the
    frame for the modulator and the message box. *)
Theorem GenerateHologram_keeps_session (h_pSLM_uc : list Z)
    (x_spots y_spots z_spots I_spots : list float) (N_spots N_iterations : Z)
    (h_weights : list float) (alpha : float) (method : Z) (st : globals) :
  let st' := snd (GenerateHologram h_pSLM_uc x_spots y_spots z_spots I_spots
                    N_spots N_iterations h_weights alpha method st) in
  mem_avail st' = mem_avail st /\
  plan st' = plan st /\
  (ApplyLUT_b st', EnableSLM_b st', UseAberrationCorr_b st', UseLUTPol_b st') =
    (ApplyLUT_b st, EnableSLM_b st, UseAberrationCorr_b st, UseLUTPol_b st) /\
  (forall x, x <> memsize_spotsf -> ints st' x = ints st x) /\
  (forall p, In p [d_weights_start; d_AberrationCorr_f; d_LUTPolCoeff_f;
                   d_aLaserFFT; d_LUT_coeff] -> fptrs st' p = fptrs st p) /\
  ucptrs st' d_LUT_uc = ucptrs st d_LUT_uc /\
  exists evs, trace st' = trace st ++ evs /\ forallb hologram_event evs = true.
Proof.
  cbv zeta.
  set (m := GenerateHologram h_pSLM_uc x_spots y_spots z_spots I_spots
              N_spots N_iterations h_weights alpha method).
  assert (K1 : steps m (same mem_avail)) by (subst m; steps_run same_leaf).
  assert (K2 : steps m (same plan)) by (subst m; steps_run same_leaf).
  assert (K3 : steps m (same (fun st => (ApplyLUT_b st, EnableSLM_b st,
                                        UseAberrationCorr_b st, UseLUTPol_b st))))
    by (subst m; steps_run same_leaf).
  assert (K4 : forall x, x <> memsize_spotsf ->
                 steps m (same (fun st => ints st x)))
    by (intros x Hx; subst m; steps_run same_other_leaf).
  assert (K5 : steps m (same (fun st =>
                 (fptrs st d_weights_start, fptrs st d_AberrationCorr_f,
                  fptrs st d_LUTPolCoeff_f, fptrs st d_aLaserFFT,
                  fptrs st d_LUT_coeff, ucptrs st d_LUT_uc))))
    by (subst m; steps_run same_leaf).
  assert (K6 : steps m (logs_only hologram_event))
    by (subst m; steps_run logs_only_leaf).
  clearbody m.
  pose proof (K1 st) as E1. pose proof (K2 st) as E2.
  pose proof (K3 st) as E3. pose proof (K5 st) as E5.
  pose proof (K6 st) as E6. unfold same in E1, E2, E3, E5.
  split; [exact E1|]. split; [exact E2|]. split; [exact E3|].
  injection E5 as F1 F2 F3 F4 F5 F6.
  split; [intros x Hx; exact (K4 x Hx st)|].
  split.
  { intros p Hp. cbn [In] in Hp.
    destruct Hp as [<-|[<-|[<-|[<-|[<-|[]]]]]]; assumption. }
  split; [exact F6|exact E6].
Qed.

Lemma finish_hologram_eq (out : list Z * list float) (st : globals) :
  finish_hologram out st =
  ({| holo_status := last_error st;
      holo_pSLM_uc := fst out;
      holo_weights := snd out |},
   set_trace
     (trace st ++
      (if EnableSLM_b st then [EvLoadImg (fst out)] else []) ++
      (if negb (last_error st =? 0) then [EvMessageBox "GenerateHologram"]
       else []))
     (set_status (last_error st) (set_last_error cudaSuccess st))).
Proof.
  destruct st as [F U C SI P I b1 b2 b3 b4 s e m t tr].
  unfold finish_hologram. rewrite bind_get. norm_state.
  destruct b2; unfold when, log; rewrite ?bind_modify;
    [|rewrite bind_state; cbv beta; unfold ret at 1; norm_state];
    rewrite (bind_eval _ _ _ _ _ (handle_errors_eq _ _)); norm_state;
    unfold ret; rewrite <- ?app_assoc; reflexivity.
Qed.

(** The part of [GenerateHologram] before the frame is sent. *)
Lemma GenerateHologram_split (h_pSLM_uc : list Z)
    (x_spots y_spots z_spots I_spots : list float) (N_spots N_iterations : Z)
    (h_weights : list float) (alpha : float) (method : Z) :
  exists body : M (list Z * list float),
    steps body (logs_only device_work) /\
    steps body (same EnableSLM_b) /\
    steps body keeps_error /\
    forall st,
      GenerateHologram h_pSLM_uc x_spots y_spots z_spots I_spots N_spots
        N_iterations h_weights alpha method st =
      finish_hologram (fst (body st)) (snd (body st)).
Proof.
  eexists (bind (upload_spots x_spots y_spots z_spots I_spots _) (fun _ => _)).
  split; [|split; [|split]]; cycle 3.
  - intros st. unfold GenerateHologram. cbv zeta.
    rewrite !bind_state. reflexivity.
  - steps_run logs_only_leaf.
  - steps_run same_leaf.
  - steps_run keeps_error_leaf.
Qed.

(** X10.  The modulator gets exactly one frame from a call of
    [GenerateHologram] when it is enabled, and that frame is the pattern the
    call returns; no other call into its driver is made, and none at all
    when it is disabled.  The frame is sent whether or not an error is
    pending.  The status returned is the one left in [status], no error is
    pending after the call, and an error pending before it is reported. *)
Theorem GenerateHologram_frame_sent (h_pSLM_uc : list Z)
    (x_spots y_spots z_spots I_spots : list float) (N_spots N_iterations : Z)
    (h_weights : list float) (alpha : float) (method : Z) (st : globals) :
  let r := GenerateHologram h_pSLM_uc x_spots y_spots z_spots I_spots
             N_spots N_iterations h_weights alpha method st in
  List.filter driver_call (new_events (trace st) (trace (snd r))) =
    (if EnableSLM_b st then [EvLoadImg (holo_pSLM_uc (fst r))] else []) /\
  status (snd r) = holo_status (fst r) /\
  last_error (snd r) = cudaSuccess /\
  (last_error st <> 0 -> holo_status (fst r) <> 0).
Proof.
  cbv zeta.
  destruct (GenerateHologram_split h_pSLM_uc x_spots y_spots z_spots I_spots
              N_spots N_iterations h_weights alpha method)
    as (body & Hlog & Hslm & Herr & Heq).
  rewrite Heq, finish_hologram_eq. norm_state.
  cbn [holo_status holo_pSLM_uc].
  destruct (Hlog st) as (evs & Etr & Hevs).
  rewrite (Hslm st), Etr, <- app_assoc, new_events_app.
  split; [|split; [reflexivity|split; [reflexivity|apply (Herr st)]]].
  rewrite !List.filter_app.
  assert (Hnone : List.filter driver_call evs = []).
  { clear Etr. induction evs as [|e evs IH]; [reflexivity|].
    cbn [forallb] in Hevs. apply andb_prop in Hevs. destruct Hevs as (He & Hevs).
    cbn [List.filter]. destruct e; try discriminate He; cbn; auto. }
  rewrite Hnone.
  destruct (EnableSLM_b st), (negb (last_error (snd (body st)) =? 0));
    reflexivity.
Qed.

Lemma clamp_spots_keeps_method (N_spots method : Z) :
  3 <= N_spots \/ BLOCK_SIZE < N_spots ->
  snd (clamp_spots N_spots method) = method.
Proof.
  intros Hn. unfold clamp_spots.
  destruct (Z.gtb_spec N_spots BLOCK_SIZE); [reflexivity|].
  destruct (Z.ltb_spec N_spots 3); [lia|reflexivity].
Qed.

Lemma bind_ret {A B : Type} (a : A) (k : A -> M B) (st : globals) :
  bind (ret a) k st = k a st.
Proof. reflexivity. Qed.

Lemma GenerateHologram_other_method (h_pSLM_uc : list Z)
    (x_spots y_spots z_spots I_spots : list float) (N_spots N_iterations : Z)
    (h_weights : list float) (alpha : float) (method : Z) (st : globals) :
  3 <= N_spots \/ BLOCK_SIZE < N_spots ->
  method <> 0 -> method <> 1 -> method <> 2 ->
  GenerateHologram h_pSLM_uc x_spots y_spots z_spots I_spots
    N_spots N_iterations h_weights alpha method st =
  finish_hologram (h_pSLM_uc, h_weights)
    (snd (upload_spots x_spots y_spots z_spots I_spots
            (fst (clamp_spots N_spots method)) st)).
Proof.
  intros Hn H0' H1' H2'.
  unfold GenerateHologram. cbv zeta.
  rewrite (clamp_spots_keeps_method _ _ Hn).
  rewrite (proj2 (Z.eqb_neq method 0) H0'), (proj2 (Z.eqb_neq method 1) H1'),
    (proj2 (Z.eqb_neq method 2) H2').
  rewrite bind_state. cbv beta. apply bind_ret.
Qed.

(** X11.  A method other than 0, 1 and 2, with a spot count the function
    does not override the method for: no kernel is launched and no transform
    run, both host arrays come back as they were passed, and with the
    modulator enabled the caller's own pattern is what is sent to it. *)
Theorem GenerateHologram_unknown_method (h_pSLM_uc : list Z)
    (x_spots y_spots z_spots I_spots : list float) (N_spots N_iterations : Z)
    (h_weights : list float) (alpha : float) (method : Z) (st : globals) :
  3 <= N_spots \/ BLOCK_SIZE < N_spots ->
  method <> 0 -> method <> 1 -> method <> 2 ->
  let r := GenerateHologram h_pSLM_uc x_spots y_spots z_spots I_spots
             N_spots N_iterations h_weights alpha method st in
  holo_pSLM_uc (fst r) = h_pSLM_uc /\
  holo_weights (fst r) = h_weights /\
  List.filter device_work (new_events (trace st) (trace (snd r))) = [] /\
  List.filter driver_call (new_events (trace st) (trace (snd r))) =
    (if EnableSLM_b st then [EvLoadImg h_pSLM_uc] else []).
Proof.
  intros Hn H0' H1' H2'. cbv zeta.
  rewrite (GenerateHologram_other_method _ _ _ _ _ _ _ _ _ _ _ Hn H0' H1' H2').
  set (up := upload_spots x_spots y_spots z_spots I_spots
               (fst (clamp_spots N_spots method))).
  assert (Ktr : steps up (same trace)) by (subst up; steps_run same_leaf).
  assert (Kslm : steps up (same EnableSLM_b)) by (subst up; steps_run same_leaf).
  clearbody up.
  rewrite finish_hologram_eq. norm_state. cbn [holo_pSLM_uc holo_weights].
  rewrite (Ktr st), (Kslm st), new_events_app.
  split; [reflexivity|]. split; [reflexivity|].
  rewrite !List.filter_app.
  destruct (EnableSLM_b st), (negb (last_error (snd (up st)) =? 0));
    split; reflexivity.
Qed.

End Hologram.

Section Tables.
Context `{FloatOps} `{Header} `{!Kernels}.

#[global] Instance conserves_at_preorder (p : fptr) : PreOrder (conserves_at p).
Proof.
  split.
  - intros st. repeat split.
  - intros a b c (M1 & F1 & I1) (M2 & F2 & I2). split; [lia|split].
    + intros q Hq. rewrite F2, F1 by exact Hq. reflexivity.
    + intros x Hx. rewrite I2, I1 by exact Hx. reflexivity.
Qed.

Lemma malloc_f_eq (p : fptr) (bytes : Z) (st : globals) :
  malloc_f p bytes st =
  (tt,
   if bytes <=? mem_avail st then
     set_fptrs
       (upd p (Live (replicate (elems sizeof_float bytes) indeterminate))
          (fptrs st))
       (set_mem_avail (mem_avail st - bytes)
          (set_trace (trace st ++ [EvMalloc (PF p) bytes]) st))
   else
     set_fptrs (upd p (fptrs st p) (fptrs st))
       (set_last_error cudaErrorMemoryAllocation
          (set_trace (trace st ++ [EvMalloc (PF p) bytes]) st))).
Proof.
  destruct st as [F U C SI P I b1 b2 b3 b4 s e m t tr].
  unfold malloc_f, cudaMalloc, log, raise, set_fptr.
  rewrite bind_get. norm_state.
  unfold bind, get, modify, ret. norm_state.
  destruct (bytes <=? m); reflexivity.
Qed.

Lemma malloc_f_conserves (p : fptr) (bytes : Z) (st : globals) :
  released_bytes sizeof_float (fptrs st p) = 0 ->
  0 <= bytes -> bytes mod 4 = 0 ->
  conserves_at p st (snd (malloc_f p bytes st)).
Proof.
  intros Hp Hb Hmod. rewrite malloc_f_eq. cbn [snd].
  destruct (bytes <=? mem_avail st); unfold conserves_at; norm_state;
    upd_simpl.
  - split; [|split; [intros q Hq; rewrite upd_other by exact Hq|]; reflexivity].
    rewrite Hp. cbn [released_bytes]. rewrite length_replicate.
    unfold elems, sizeof_float.
    rewrite Z2Nat.id by (apply Z.div_pos; lia).
    pose proof (Z.div_mod bytes 4 ltac:(lia)). lia.
  - split; [|split; [intros q Hq; rewrite upd_other by exact Hq|]; reflexivity].
    reflexivity.
Qed.

Lemma malloc_f_takes (p : fptr) (bytes : Z) (st : globals) :
  0 <= bytes ->
  mem_avail st - bytes <= mem_avail (snd (malloc_f p bytes st)) <= mem_avail st.
Proof.
  intros Hb. rewrite malloc_f_eq. cbn [snd].
  destruct (bytes <=? mem_avail st); norm_state; lia.
Qed.

Lemma cudaMemcpy_H2D_spec {A : Type} (esz : Z) (dst : devptr A)
    (src : option (list A)) (bytes : Z) (st : globals) :
  exists e p' st1,
    cudaMemcpy_H2D esz dst src bytes st = (e, p', st1) /\
    (st1 = st \/ st1 = set_last_error cudaErrorInvalidValue st) /\
    released_bytes esz p' = released_bytes esz dst /\
    is_null p' = is_null dst.
Proof.
  unfold cudaMemcpy_H2D.
  assert (Hfail : exists e p' st1,
            (e0 <- raise cudaErrorInvalidValue ;; ret (e0, dst)) st = (e, p', st1) /\
            (st1 = st \/ st1 = set_last_error cudaErrorInvalidValue st) /\
            released_bytes esz p' = released_bytes esz dst /\
            is_null p' = is_null dst).
  { eexists _, _, _. split; [reflexivity|]. split; [right; reflexivity|].
    split; reflexivity. }
  destruct (bytes =? 0).
  { eexists _, _, _. split; [reflexivity|]. split; [left; reflexivity|].
    split; reflexivity. }
  destruct dst as [|d|]; [exact Hfail| |exact Hfail].
  destruct src as [s|]; [|exact Hfail].
  destruct (Nat.leb_spec (elems esz bytes) (length d)) as [Hd|Hd];
    [|exact Hfail].
  destruct (Nat.leb_spec (elems esz bytes) (length s)) as [Hs|Hs];
    [|exact Hfail].
  cbn [andb]. eexists _, _, _. split; [reflexivity|].
  split; [left; reflexivity|]. split; [|reflexivity].
  cbn [released_bytes]. rewrite length_app, length_take, length_drop.
  f_equal. lia.
Qed.

Lemma upload_f_conserves (p : fptr) (h : option (list float)) (bytes : Z) :
  steps (upload_f p h bytes) (conserves_at p).
Proof.
  intros st. unfold upload_f. rewrite bind_get.
  destruct (cudaMemcpy_H2D_spec sizeof_float (fptrs st p) h bytes st)
    as (e & p' & st1 & E & Hst & Hb & _).
  rewrite (bind_eval _ _ _ _ _ E). cbn [fst snd].
  unfold set_fptr. rewrite bind_modify. unfold ret. cbn [snd].
  unfold conserves_at.
  destruct Hst as [->| ->]; norm_state; upd_simpl;
    (split; [lia|split; [intros q Hq; rewrite upd_other by exact Hq|];
                 reflexivity]).
Qed.

Lemma upload_f_mem (p : fptr) (h : option (list float)) (bytes : Z) :
  steps (upload_f p h bytes) (same mem_avail).
Proof. steps_run same_leaf. Qed.

Lemma free_and_reset_conserves (p : fptr) :
  steps (free_f p ;; set_fptr p NullPtr) (conserves_at p).
Proof.
  intros st. rewrite (bind_eval _ _ _ _ _ (free_f_eq p st)).
  unfold set_fptr, modify. cbn [snd]. unfold conserves_at.
  norm_state. upd_simpl. cbn [released_bytes].
  split; [lia|split; [intros q Hq; rewrite !upd_other by exact Hq|];
               reflexivity].
Qed.

Lemma free_and_reset_mem (p : fptr) (st : globals) :
  mem_avail st <= mem_avail (snd ((free_f p ;; set_fptr p NullPtr) st)).
Proof.
  rewrite (bind_eval _ _ _ _ _ (free_f_eq p st)).
  unfold set_fptr, modify. cbn [snd]. norm_state.
  destruct (fptrs st p); cbn [released_bytes]; unfold sizeof_float; lia.
Qed.

Lemma set_flag_conserves (p : fptr) (f : bool -> globals -> globals) (v : bool) :
  (forall st, mem_avail (f v st) = mem_avail st /\
              fptrs (f v st) = fptrs st /\ ints (f v st) = ints st) ->
  steps (modify (f v)) (conserves_at p).
Proof.
  intros Hf st. destruct (Hf st) as (E1 & E2 & E3).
  unfold modify, conserves_at. cbn [snd]. rewrite E1, E2, E3.
  repeat split.
Qed.

Lemma Corrections_aberration_conserves (h : option (list float))
    (st : globals) :
  (ints st memsize_SLMf mod 4 = 0 ->
   conserves_at d_AberrationCorr_f st (snd (Corrections_aberration h st))) /\
  mem_avail st - to_size_t (ints st memsize_SLMf) <=
    mem_avail (snd (Corrections_aberration h st)).
Proof.
  assert (Hsz0 : 0 <= to_size_t (ints st memsize_SLMf))
    by (unfold to_size_t; apply Z.mod_pos_bound; reflexivity).
  assert (Hsz4 : ints st memsize_SLMf mod 4 = 0 ->
                 to_size_t (ints st memsize_SLMf) mod 4 = 0).
  { intros Hmod. unfold to_size_t.
    change (2 ^ 64) with (4 * 4611686018427387904).
    rewrite Z.rem_mul_r by lia.
    rewrite (Z.mul_comm 4), Z_mod_plus_full, Z.mod_mod by lia. exact Hmod. }
  unfold Corrections_aberration. rewrite !bind_get.
  destruct (UseAberrationCorr_b st).
  - rewrite bind_get. rewrite bind_state. cbv beta.
    set (sz := to_size_t (ints st memsize_SLMf)) in *.
    set (st1 := snd (when (is_null (fptrs st d_AberrationCorr_f))
                       (malloc_f d_AberrationCorr_f sz) st)).
    assert (K1 : (ints st memsize_SLMf mod 4 = 0 ->
                  conserves_at d_AberrationCorr_f st st1) /\
                 mem_avail st - sz <= mem_avail st1).
    { subst st1. destruct (fptrs st d_AberrationCorr_f) eqn:Ep;
        cbn [is_null when].
      - split; [intros Hmod; apply malloc_f_conserves;
                [rewrite Ep; reflexivity|lia|exact (Hsz4 Hmod)]|].
        apply malloc_f_takes. exact Hsz0.
      - unfold ret. cbn [snd]. split; [reflexivity|lia].
      - unfold ret. cbn [snd]. split; [reflexivity|lia]. }
    destruct K1 as (K1 & K1m). clearbody st1.
    rewrite bind_state. cbv beta.
    pose proof (upload_f_conserves d_AberrationCorr_f h sz st1) as K2.
    pose proof (upload_f_mem d_AberrationCorr_f h sz st1) as K2m.
    unfold same in K2m.
    set (st2 := snd (upload_f d_AberrationCorr_f h sz st1)) in *.
    clearbody st2. unfold modify. cbn [snd].
    split.
    + intros Hmod.
      transitivity st1; [exact (K1 Hmod)|]. transitivity st2; [exact K2|].
      unfold conserves_at. norm_state. repeat split.
    + norm_state. lia.
  - destruct (fptrs st d_AberrationCorr_f) eqn:Ep; cbn [is_null negb when].
    + unfold ret. cbn [snd]. split; [reflexivity|lia].
    + split; [intros _; apply free_and_reset_conserves|].
      pose proof (free_and_reset_mem d_AberrationCorr_f st). lia.
    + split; [intros _; apply free_and_reset_conserves|].
      pose proof (free_and_reset_mem d_AberrationCorr_f st). lia.
Qed.

Lemma size_mul_120 : size_mul 120 sizeof_float = 480.
Proof. reflexivity. Qed.

Lemma Corrections_polynomial_conserves (h : option (list float))
    (st : globals) :
  conserves_at d_LUTPolCoeff_f st (snd (Corrections_polynomial h st)).
Proof.
  unfold Corrections_polynomial. rewrite !bind_get. rewrite size_mul_120.
  destruct (UseLUTPol_b st).
  - rewrite bind_state. cbv beta.
    set (st1 := snd (when (is_null (fptrs st d_LUTPolCoeff_f))
                       (malloc_f d_LUTPolCoeff_f 480) st)).
    assert (K1 : conserves_at d_LUTPolCoeff_f st st1).
    { subst st1. destruct (fptrs st d_LUTPolCoeff_f) eqn:Ep;
        cbn [is_null when].
      - apply malloc_f_conserves; [rewrite Ep; reflexivity|lia|reflexivity].
      - unfold ret. cbn [snd]. reflexivity.
      - unfold ret. cbn [snd]. reflexivity. }
    clearbody st1. rewrite bind_get. rewrite bind_state. cbv beta.
    pose proof (upload_f_conserves d_LUTPolCoeff_f h
                  (size_mul (ints st1 N_LUTPolCoeff) sizeof_float) st1) as K2.
    set (st2 := snd (upload_f d_LUTPolCoeff_f h
                       (size_mul (ints st1 N_LUTPolCoeff) sizeof_float) st1)) in *.
    clearbody st2. unfold modify. cbn [snd].
    transitivity st1; [exact K1|]. transitivity st2; [exact K2|].
    unfold conserves_at. norm_state. repeat split.
  - destruct (fptrs st d_LUTPolCoeff_f) eqn:Ep; cbn [is_null negb when].
    + unfold ret. cbn [snd]. reflexivity.
    + apply free_and_reset_conserves.
    + apply free_and_reset_conserves.
Qed.

(** X12.  [Corrections] does not lose device memory.  With the byte size of
    a float field a multiple of 4, the free memory and the bytes held by the
    aberration map and the polynomial table add up to the same after the
    call as before it: what it allocates it keeps behind the pointer, what
    it releases it gives back, whatever the arguments and whether or not
    the uploads succeed. *)
Theorem Corrections_conserves_memory (UseAberrationCorr : Z)
    (h_AberrationCorr : option (list float)) (ApplyLUT UseLUTPol PolOrder : Z)
    (h_LUTPolCoeff : option (list float)) (st : globals) :
  ints st memsize_SLMf mod 4 = 0 ->
  let st' := snd (Corrections UseAberrationCorr h_AberrationCorr ApplyLUT
                    UseLUTPol PolOrder h_LUTPolCoeff st) in
  mem_avail st' + table_bytes st' = mem_avail st + table_bytes st.
Proof.
  intros Hmod. cbv zeta. unfold Corrections.
  rewrite !bind_state. cbv beta.
  set (fl := Corrections_flags UseAberrationCorr ApplyLUT UseLUTPol PolOrder).
  assert (F1 : steps fl (same mem_avail)) by (subst fl; steps_run same_leaf).
  assert (F2 : steps fl (same fptrs)) by (subst fl; steps_run same_leaf).
  assert (F3 : steps fl (same (fun st => ints st memsize_SLMf)))
    by (subst fl; steps_run same_leaf).
  specialize (F1 st). specialize (F2 st). specialize (F3 st).
  unfold same in F1, F2, F3. clearbody fl.
  set (st1 := snd (fl st)) in *. clearbody st1.
  destruct (Corrections_aberration_conserves h_AberrationCorr st1)
    as (A1 & _).
  specialize (A1 ltac:(rewrite F3; exact Hmod)).
  set (st2 := snd (Corrections_aberration h_AberrationCorr st1)) in *.
  clearbody st2.
  pose proof (Corrections_polynomial_conserves h_LUTPolCoeff st2) as P1.
  set (st3 := snd (Corrections_polynomial h_LUTPolCoeff st2)) in *.
  clearbody st3.
  rewrite handle_errors_eq. cbn [snd]. unfold table_bytes. norm_state.
  destruct A1 as (A1 & A2 & _). destruct P1 as (P1 & P2 & _).
  rewrite (P2 d_AberrationCorr_f) by discriminate.
  rewrite (A2 d_LUTPolCoeff_f) in P1 by discriminate.
  rewrite F2 in A1, P1. lia.
Qed.

Lemma Corrections_polynomial_upload (hs d : list float) (n : Z)
    (st : globals) :
  UseLUTPol_b st = true -> ints st N_LUTPolCoeff = n -> 0 <= n <= 120 ->
  (Z.to_nat n <= length hs)%nat ->
  (fptrs st d_LUTPolCoeff_f = NullPtr /\ d = replicate 120 indeterminate /\
   480 <= mem_avail st) \/
  (fptrs st d_LUTPolCoeff_f = Live d /\ (120 <= length d)%nat) ->
  let st' := snd (Corrections_polynomial (Some hs) st) in
  fptrs st' d_LUTPolCoeff_f =
    Live (take (Z.to_nat n) hs ++ drop (Z.to_nat n) d) /\
  UseLUTPol_b st' = true /\
  ints st' N_LUTPolCoeff = n.
Proof.
  intros Hflag Hn Hrange Hhs Hp. cbv zeta.
  assert (Hel : elems sizeof_float (size_mul n sizeof_float) = Z.to_nat n).
  { destruct (size_mul_int n sizeof_float) as (-> & _);
      [lia|reflexivity|
       unfold sizeof_float; change (2 ^ 31) with 2147483648; lia|].
    apply elems_mul. reflexivity. }
  unfold Corrections_polynomial. rewrite !bind_get, Hflag, size_mul_120.
  destruct Hp as [(Ep & -> & Hmem)|(Ep & Hd)]; rewrite Ep; cbn [is_null when].
  - rewrite (bind_eval _ _ _ _ _ (malloc_f_eq _ _ _)).
    apply Z.leb_le in Hmem. rewrite Hmem. rewrite bind_get. norm_state.
    rewrite Hn.
    erewrite bind_eval;
      [|apply upload_f_ok;
        [norm_state; upd_simpl; reflexivity
        |rewrite Hel, length_replicate;
         change (elems sizeof_float 480) with 120%nat; lia
        |rewrite Hel; exact Hhs]].
    unfold modify. cbn [snd]. norm_state. upd_simpl. rewrite Hel.
    change (elems sizeof_float 480) with 120%nat.
    repeat split; assumption.
  - rewrite !bind_ret, !bind_get, Hn.
    erewrite bind_eval;
      [|apply upload_f_ok; [exact Ep|rewrite Hel; lia|rewrite Hel; exact Hhs]].
    unfold modify. cbn [snd]. norm_state. upd_simpl. rewrite Hel.
    repeat split; assumption.
Qed.

Lemma Ncoeff_range (PolOrder : Z) :
  3 <= PolOrder <= 7 ->
  20 <= nth (Z.to_nat (PolOrder - 3)) Ncoeff 0 <= 120.
Proof.
  intros Hp.
  assert (Hc : PolOrder = 3 \/ PolOrder = 4 \/ PolOrder = 5 \/ PolOrder = 6 \/
               PolOrder = 7) by lia.
  destruct Hc as [->|[->|[->|[->| ->]]]]; split; vm_compute; intro; discriminate.
Qed.

(** X13.  The polynomial table.  Asked for with an order from 3 to 7 and a
    host table of at least as many coefficients as the order has,
    [Corrections] leaves the flag on and the coefficient count set, and the
    device table holds these coefficients followed by what was behind them:
    the rest of the 120 floats of a table allocated by this call (the
    allocation is always 120 floats, whatever the order), or the rest of the
    table that was already there. *)
Theorem Corrections_polynomial_table (UseAberrationCorr : Z)
    (h_AberrationCorr : option (list float)) (ApplyLUT UseLUTPol PolOrder : Z)
    (hs d : list float) (st : globals) :
  3 <= PolOrder <= 7 -> UseLUTPol <> 0 ->
  let n := nth (Z.to_nat (PolOrder - 3)) Ncoeff 0 in
  (Z.to_nat n <= length hs)%nat ->
  (fptrs st d_LUTPolCoeff_f = NullPtr /\ d = replicate 120 indeterminate /\
   to_size_t (ints st memsize_SLMf) + 480 <= mem_avail st) \/
  (fptrs st d_LUTPolCoeff_f = Live d /\ (120 <= length d)%nat) ->
  let st' := snd (Corrections UseAberrationCorr h_AberrationCorr ApplyLUT
                    UseLUTPol PolOrder (Some hs) st) in
  fptrs st' d_LUTPolCoeff_f =
    Live (take (Z.to_nat n) hs ++ drop (Z.to_nat n) d) /\
  UseLUTPol_b st' = true /\
  ints st' N_LUTPolCoeff = n.
Proof.
  intros Hord Huse n Hhs Hp. cbv zeta.
  pose proof (Ncoeff_range PolOrder Hord) as Hn. fold n in Hn.
  unfold Corrections. rewrite !bind_state. cbv beta.
  assert (Hfl : let st1 := snd (Corrections_flags UseAberrationCorr ApplyLUT
                                  UseLUTPol PolOrder st) in
                UseLUTPol_b st1 = true /\ ints st1 N_LUTPolCoeff = n /\
                fptrs st1 = fptrs st /\ mem_avail st1 = mem_avail st /\
                ints st1 memsize_SLMf = ints st memsize_SLMf).
  { cbv zeta. unfold Corrections_flags. rewrite !bind_modify.
    assert (E : (3 <=? PolOrder) && (PolOrder <=? 7) = true)
      by (apply andb_true_intro; split; apply Z.leb_le; lia).
    rewrite E. unfold set_int, modify. cbn [snd]. norm_state. upd_simpl.
    unfold bool_of_int. apply Z.eqb_neq in Huse. rewrite Huse.
    repeat split. }
  cbv zeta in Hfl.
  set (st1 := snd (Corrections_flags UseAberrationCorr ApplyLUT UseLUTPol
                     PolOrder st)) in *.
  clearbody st1. destruct Hfl as (B1 & I1 & F1 & M1 & S1).
  set (ab := Corrections_aberration h_AberrationCorr).
  assert (A1 : steps ab (same (fun st => (fptrs st d_LUTPolCoeff_f,
                                          UseLUTPol_b st,
                                          ints st N_LUTPolCoeff))))
    by (subst ab; steps_run same_leaf).
  specialize (A1 st1). unfold same in A1.
  destruct (Corrections_aberration_conserves h_AberrationCorr st1)
    as (_ & A2).
  fold ab in A2. clearbody ab.
  set (st2 := snd (ab st1)) in *. clearbody st2.
  injection A1 as A1p A1b A1i.
  assert (Hp2 : (fptrs st2 d_LUTPolCoeff_f = NullPtr /\
                 d = replicate 120 indeterminate /\ 480 <= mem_avail st2) \/
                (fptrs st2 d_LUTPolCoeff_f = Live d /\ (120 <= length d)%nat)).
  { rewrite A1p, F1.
    destruct Hp as [(Ep & Ed & Hmem)|(Ep & Hd)]; [left|right; auto].
    repeat split; [exact Ep|exact Ed|]. rewrite S1, M1 in A2. lia. }
  destruct (Corrections_polynomial_upload hs d n st2
              ltac:(congruence) ltac:(congruence) ltac:(lia) Hhs Hp2)
    as (R1 & R2 & R3).
  set (st3 := snd (Corrections_polynomial (Some hs) st2)) in *.
  clearbody st3.
  rewrite handle_errors_eq. cbn [snd]. norm_state.
  repeat split; assumption.
Qed.

(** X14.  What [Corrections] leaves alone, and what it reports.
    [ApplyLUT_b] becomes the argument as it is, without a look at the
    look-up table on the device, which the function does not touch; the
    working buffers, the FFT plan, the modulator flag and every integer
    variable but the coefficient count stay as they were.  The status
    returned is the one left in [status], no error is pending after the
    call, and an error pending before it is reported. *)
Theorem Corrections_leaves_session (UseAberrationCorr : Z)
    (h_AberrationCorr : option (list float)) (ApplyLUT UseLUTPol PolOrder : Z)
    (h_LUTPolCoeff : option (list float)) (st : globals) :
  let r := Corrections UseAberrationCorr h_AberrationCorr ApplyLUT
             UseLUTPol PolOrder h_LUTPolCoeff st in
  let st' := snd r in
  ApplyLUT_b st' = bool_of_int ApplyLUT /\
  ucptrs st' = ucptrs st /\
  (forall p, p <> d_AberrationCorr_f -> p <> d_LUTPolCoeff_f ->
             fptrs st' p = fptrs st p) /\
  (ccptrs st', d_spot_index st', plan st', EnableSLM_b st') =
    (ccptrs st, d_spot_index st, plan st, EnableSLM_b st) /\
  (forall x, x <> N_LUTPolCoeff -> ints st' x = ints st x) /\
  status st' = fst r /\
  last_error st' = cudaSuccess /\
  (last_error st <> 0 -> fst r <> 0).
Proof.
  cbv zeta. unfold Corrections.
  rewrite bind_state. cbv beta.
  set (fl := Corrections_flags UseAberrationCorr ApplyLUT UseLUTPol PolOrder).
  assert (Hlut : ApplyLUT_b (snd (fl st)) = bool_of_int ApplyLUT).
  { subst fl. unfold Corrections_flags. rewrite !bind_modify.
    destruct ((3 <=? PolOrder) && (PolOrder <=? 7)); reflexivity. }
  assert (F1 : steps fl (same ucptrs)) by (subst fl; steps_run same_leaf).
  assert (F2 : steps fl (same fptrs)) by (subst fl; steps_run same_leaf).
  assert (F3 : steps fl (same (fun st => (ccptrs st, d_spot_index st, plan st,
                                          EnableSLM_b st))))
    by (subst fl; steps_run same_leaf).
  assert (F4 : forall x, x <> N_LUTPolCoeff ->
                 steps fl (same (fun st => ints st x)))
    by (intros x Hx; subst fl; steps_run same_other_leaf).
  assert (F5 : steps fl keeps_error) by (subst fl; steps_run keeps_error_leaf).
  pose proof (F1 st) as G1. pose proof (F2 st) as G2.
  pose proof (F3 st) as G3. pose proof (F5 st) as G5.
  pose proof (fun x Hx => F4 x Hx st) as G4.
  unfold same in G1, G2, G3, G4. unfold keeps_error in G5.
  clear F1 F2 F3 F4 F5. clearbody fl.
  set (st1 := snd (fl st)) in *. clearbody st1.
  set (rest := bind (Corrections_aberration h_AberrationCorr)
                 (fun _ => Corrections_polynomial h_LUTPolCoeff)).
  assert (E : forall s,
            (Corrections_aberration h_AberrationCorr ;;
             Corrections_polynomial h_LUTPolCoeff ;;
             handle_errors "Corrections") s =
            handle_errors "Corrections" (snd (rest s))) by reflexivity.
  rewrite !E, handle_errors_eq. clear E. cbn [fst snd]. norm_state.
  assert (R0 : steps rest (same ApplyLUT_b)) by (subst rest; steps_run same_leaf).
  assert (R1 : steps rest (same ucptrs)) by (subst rest; steps_run same_leaf).
  assert (R2 : forall p, p <> d_AberrationCorr_f -> p <> d_LUTPolCoeff_f ->
                 steps rest (same (fun st => fptrs st p)))
    by (intros p Hp1 Hp2; subst rest; steps_run same_other_leaf).
  assert (R3 : steps rest (same (fun st => (ccptrs st, d_spot_index st, plan st,
                                            EnableSLM_b st))))
    by (subst rest; steps_run same_leaf).
  assert (R4 : steps rest (same ints)) by (subst rest; steps_run same_leaf).
  assert (R5 : steps rest keeps_error)
    by (subst rest; steps_run keeps_error_leaf).
  pose proof (R0 st1) as S0. pose proof (R1 st1) as S1.
  pose proof (fun p H1 H2 => R2 p H1 H2 st1) as S2.
  pose proof (R3 st1) as S3. pose proof (R4 st1) as S4.
  pose proof (R5 st1) as S5.
  unfold same in S0, S1, S2, S3, S4. unfold keeps_error in S5.
  clear R0 R1 R2 R3 R4 R5. clearbody rest.
  set (st2 := snd (rest st1)) in *. clearbody st2.
  split; [congruence|]. split; [congruence|].
  split; [intros p Hp1 Hp2; rewrite (S2 p Hp1 Hp2), G2; reflexivity|].
  split; [congruence|].
  split; [intros x Hx; rewrite S4; apply G4; exact Hx|].
  split; [reflexivity|]. split; [reflexivity|].
  intros Hpend. apply S5, G5, Hpend.
Qed.

End Tables.

(** [steps_run] with the loop of [GetAmps] taken from the lemma [loop]. *)
Ltac query_step leaf loop :=
  lazymatch goal with
  | |- steps (GetAmps_loop _ _ _ _ _ _ _ _ _) _ => apply loop
  | _ => steps_step leaf
  end.
Ltac query_run leaf loop := repeat query_step leaf loop.

Ltac loop_steps leaf :=
  let fuel := fresh "fuel" in
  let IH := fresh "IH" in
  intros fuel; induction fuel as [|fuel IH]; intros;
  cbn [GetAmps_loop];
  (destruct (_ >? 0); [|apply steps_ret; typeclasses eauto]);
  [apply steps_ret; typeclasses eauto|];
  repeat first [ apply IH | steps_step leaf ].

(** Follow one runtime call: its result and the state after it become
    variables, with the facts [track] has recorded about them. *)
Ltac track m s :=
  let K := fresh "K" in
  let L := fresh "L" in
  assert (K : steps m keeps_error) by steps_run keeps_error_leaf;
  assert (L : steps m (logs_only quiet_event)) by steps_run logs_only_leaf;
  specialize (K s); specialize (L s).
Ltac track_mem m s :=
  let S := fresh "S" in
  assert (S : steps m (same mem_avail)) by steps_run same_leaf;
  specialize (S s); unfold same in S.
Ltac name_step m s :=
  let a := fresh "a" in
  let s' := fresh "st" in
  set (a := fst (m s)) in *; set (s' := snd (m s)) in *; clearbody a s'.

Section QueryRun.
Context `{FloatOps} `{Header} `{!Kernels}.

Lemma GetAmps_loop_mem :
  forall (fuel : nat) (rem off np w : Z) (X Y Z_ A : devptr float),
    steps (GetAmps_loop fuel rem off np w X Y Z_ A) (same mem_avail).
Proof. loop_steps same_leaf. Qed.

Lemma GetAmps_loop_session :
  forall (fuel : nat) (rem off np w : Z) (X Y Z_ A : devptr float),
    steps (GetAmps_loop fuel rem off np w X Y Z_ A) (same session_of_query).
Proof. loop_steps ltac:(unfold session_of_query; same_leaf). Qed.

Lemma GetAmps_loop_ints :
  forall x, x <> memsize_spotsf ->
  forall (fuel : nat) (rem off np w : Z) (X Y Z_ A : devptr float),
    steps (GetAmps_loop fuel rem off np w X Y Z_ A) (same (fun st => ints st x)).
Proof. intros x Hx. loop_steps same_other_leaf. Qed.

Lemma GetAmps_loop_error :
  forall (fuel : nat) (rem off np w : Z) (X Y Z_ A : devptr float),
    steps (GetAmps_loop fuel rem off np w X Y Z_ A) keeps_error.
Proof. loop_steps keeps_error_leaf. Qed.

Lemma GetAmps_loop_log :
  forall (fuel : nat) (rem off np w : Z) (X Y Z_ A : devptr float),
    steps (GetAmps_loop fuel rem off np w X Y Z_ A) (logs_only query_event).
Proof. loop_steps logs_only_leaf. Qed.

Lemma launch_checkAmplitudes_bytes (X Y Z_ : devptr float) (P : devptr Z)
    (A : devptr float) (off : nat) (n np w : Z) (st : globals) :
  released_bytes sizeof_float
    (fst (launch_checkAmplitudes X Y Z_ P A off n np w st)) =
  released_bytes sizeof_float A.
Proof.
  unfold launch_checkAmplitudes, log. rewrite bind_modify.
  destruct X as [|gx|]; try reflexivity.
  destruct Y as [|gy|]; try reflexivity.
  destruct Z_ as [|gz|]; try reflexivity.
  destruct P as [|gp|]; try reflexivity.
  destruct A as [|ga|]; try reflexivity.
  destruct (Nat.leb_spec (off + Z.to_nat n) (length ga)) as [Ha|Ha];
    [|rewrite !andb_false_r; reflexivity].
  destruct ((off + Z.to_nat n <=? length gx)%nat &&
            (off + Z.to_nat n <=? length gy)%nat &&
            (off + Z.to_nat n <=? length gz)%nat); [|reflexivity].
  cbn [andb]. unfold ret. cbn [fst released_bytes]. f_equal. f_equal.
  unfold evaluateAmplitudes.
  rewrite !length_app, length_take, length_map, length_seq, length_drop. lia.
Qed.

Lemma GetAmps_loop_some :
  forall (fuel : nat) (rem off np w : Z) (X Y Z_ A : devptr float)
         (st : globals),
    rem <= Z.of_nat fuel -> rem < 2 ^ 31 ->
    exists A',
      fst (GetAmps_loop fuel rem off np w X Y Z_ A st) = Some A' /\
      released_bytes sizeof_float A' = released_bytes sizeof_float A.
Proof.
  intros fuel. induction fuel as [|fuel IH]; intros rem off np w X Y Z_ A st
    Hfuel Hrem.
  - rewrite GetAmps_loop_done by lia. exists A. split; reflexivity.
  - destruct (Z.le_gt_cases rem 0) as [Hle|Hgt].
    + rewrite GetAmps_loop_done by lia. exists A. split; reflexivity.
    + rewrite GetAmps_loop_step by lia. cbv zeta.
      unfold set_int. rewrite bind_modify, bind_get, bind_state. cbv beta.
      match goal with
      | |- context [launch_checkAmplitudes ?a ?b ?c ?d ?e ?f ?g ?h ?i ?s] =>
          pose proof (launch_checkAmplitudes_bytes a b c d e f g h i s) as Hb;
          set (r := launch_checkAmplitudes a b c d e f g h i s) in *
      end.
      clearbody r.
      assert (Hr : to_int (rem - 512) = rem - 512)
        by (apply to_int_small; change (2 ^ 31) with 2147483648 in *; lia).
      rewrite Hr.
      destruct (IH (rem - 512) (to_int (off + 512)) np w X Y Z_ (fst r)
                  (snd r) ltac:(lia) ltac:(lia)) as (A' & E & B).
      exists A'. split; [exact E|]. rewrite B. exact Hb.
Qed.

Lemma cudaMalloc_bytes (name : pname) (fill : float) (old : devptr float)
    (bytes : Z) (st : globals) :
  0 <= bytes -> bytes mod 4 = 0 ->
  released_bytes sizeof_float old = 0 ->
  mem_avail (snd (cudaMalloc name sizeof_float fill old bytes st)) =
  mem_avail st -
  released_bytes sizeof_float
    (fst (cudaMalloc name sizeof_float fill old bytes st)).
Proof.
  intros Hb Hmod Hold. unfold cudaMalloc, log, raise.
  rewrite bind_modify, bind_get. norm_state.
  destruct (bytes <=? mem_avail st).
  - rewrite bind_modify. unfold ret. cbn [fst snd]. norm_state.
    cbn [released_bytes]. rewrite length_replicate.
    unfold elems, sizeof_float.
    rewrite Z2Nat.id by (apply Z.div_pos; lia).
    pose proof (Z.div_mod bytes 4 ltac:(lia)). lia.
  - unfold bind, modify, ret. cbn [fst snd]. norm_state. rewrite Hold. lia.
Qed.

Lemma cudaMemcpy_H2D_bytes {A : Type} (esz : Z) (dst : devptr A)
    (src : option (list A)) (bytes : Z) (st : globals) :
  released_bytes esz (snd (fst (cudaMemcpy_H2D esz dst src bytes st))) =
  released_bytes esz dst.
Proof.
  destruct (cudaMemcpy_H2D_spec esz dst src bytes st)
    as (e & p' & st1 & E & _ & Hb & _).
  rewrite E. exact Hb.
Qed.

Lemma cudaMemcpy_D2H_keeps {A : Type} (esz : Z) (dst : list A)
    (src : devptr A) (bytes : Z) (st : globals) :
  bytes = 0 \/ (length dst < elems esz bytes)%nat ->
  snd (fst (cudaMemcpy_D2H esz dst src bytes st)) = dst /\
  (bytes <> 0 -> last_error (snd (cudaMemcpy_D2H esz dst src bytes st)) <> 0).
Proof.
  intros Hb. unfold cudaMemcpy_D2H.
  destruct (Z.eqb_spec bytes 0) as [E|E].
  - split; [reflexivity|]. intros Hne. contradiction.
  - destruct Hb as [Hb|Hb]; [contradiction|].
    assert (Hlen : (elems esz bytes <=? length dst)%nat = false)
      by (apply Nat.leb_gt; exact Hb).
    destruct src as [|s|]; try (split; [reflexivity|intros _; discriminate]).
    rewrite Hlen, andb_false_r. split; [reflexivity|intros _; discriminate].
Qed.

Lemma release_error_pending {A : Type} (p : devptr A) (e : Z) :
  e <> 0 -> release_error p e <> 0.
Proof. intros He. destruct p; cbn; [exact He|exact He|discriminate]. Qed.

(** The size [GetAmps] computes for its arrays. *)
Lemma query_size (N : Z) :
  - 2 ^ 31 <= N < 2 ^ 31 ->
  let sz := size_mul N sizeof_float in
  0 <= sz /\ sz mod 4 = 0 /\
  (N = 0 -> sz = 0) /\
  (N < 0 -> sz <> 0 /\ (2 ^ 61 <= Z.of_nat (elems sizeof_float sz))).
Proof.
  intros HN. cbv zeta. unfold size_mul, to_size_t, sizeof_float, elems.
  change (2 ^ 31) with 2147483648 in HN.
  change (2 ^ 61) with 2305843009213693952.
  change (2 ^ 64) with 18446744073709551616.
  set (m := N mod 18446744073709551616 * 4 mod 18446744073709551616).
  assert (Hm : 0 <= m < 18446744073709551616)
    by (apply Z.mod_pos_bound; reflexivity).
  assert (Hm4 : m mod 4 = 0).
  { subst m. change 18446744073709551616 with (4 * 4611686018427387904).
    rewrite Z.rem_mul_r by lia.
    rewrite (Z.mul_comm 4 (_ mod 4611686018427387904)), Z_mod_plus_full.
    rewrite Z.mod_mod by lia. apply Z.mod_mul. lia. }
  split; [lia|]. split; [exact Hm4|]. split.
  - intros ->. reflexivity.
  - intros Hneg.
    assert (E : m = 18446744073709551616 + 4 * N).
    { subst m.
      assert (E1 : N mod 18446744073709551616 = 18446744073709551616 + N).
      { symmetry. apply (Z.mod_unique_pos _ _ (-1)); lia. }
      rewrite E1. symmetry. apply (Z.mod_unique_pos _ _ 3); lia. }
    split; [lia|].
    rewrite Z2Nat.id by (apply Z.div_pos; lia).
    rewrite E. apply Z.div_le_lower_bound; lia.
Qed.

Lemma quiet_filter (evs : list event) :
  forallb quiet_event evs = true -> List.filter device_work evs = [].
Proof.
  induction evs as [|e evs IH]; [reflexivity|].
  cbn [forallb List.filter]. intros Hq. apply andb_prop in Hq.
  destruct Hq as (He & Hq). unfold quiet_event in He.
  apply negb_true_iff in He. rewrite He. apply IH, Hq.
Qed.

Lemma GetAmps_run (x_spots y_spots z_spots : list float) (h_pSLM_uc : list Z)
    (N_spots_all data_w' : Z) (h_amps : list float) (st : globals) :
  - 2 ^ 31 <= N_spots_all < 2 ^ 31 ->
  exists e h st',
    GetAmps x_spots y_spots z_spots h_pSLM_uc N_spots_all data_w' h_amps st =
      (Some (e, h), st') /\
    mem_avail st' = mem_avail st /\
    status st' = e /\ last_error st' = cudaSuccess /\
    (last_error st <> 0 -> e <> 0) /\
    (N_spots_all <= 0 -> Z.of_nat (length h_amps) < 2 ^ 61 ->
     h = h_amps /\ (N_spots_all < 0 -> e <> 0) /\
     List.filter device_work (new_events (trace st) (trace st')) = []).
Proof.
  intros HN.
  destruct (query_size N_spots_all HN) as (Hsz0 & Hsz4 & HszZ & HszN).
  cbv zeta in Hsz0, Hsz4, HszZ, HszN.
  unfold GetAmps. cbv zeta.
  set (sz := size_mul N_spots_all sizeof_float) in *. clearbody sz.
  (* the four arrays *)
  rewrite bind_state. cbv beta.
  match goal with |- context [fst (?m ?s)] =>
    pose proof (cudaMalloc_bytes _ indeterminate Stale sz s Hsz0 Hsz4 eq_refl
                  : mem_avail (snd (m s)) = _) as M1;
    track m s; name_step m s end.
  rewrite bind_state. cbv beta.
  match goal with |- context [fst (?m ?s)] =>
    pose proof (cudaMalloc_bytes _ indeterminate Stale sz s Hsz0 Hsz4 eq_refl
                  : mem_avail (snd (m s)) = _) as M2;
    track m s; name_step m s end.
  rewrite bind_state. cbv beta.
  match goal with |- context [fst (?m ?s)] =>
    pose proof (cudaMalloc_bytes _ indeterminate Stale sz s Hsz0 Hsz4 eq_refl
                  : mem_avail (snd (m s)) = _) as M3;
    track m s; name_step m s end.
  rewrite bind_state. cbv beta.
  match goal with |- context [fst (?m ?s)] =>
    pose proof (cudaMalloc_bytes _ indeterminate Stale sz s Hsz0 Hsz4 eq_refl
                  : mem_avail (snd (m s)) = _) as M4;
    track m s; name_step m s end.
  (* the coordinates *)
  rewrite bind_state. cbv beta.
  match goal with |- context [fst (?m ?s)] =>
    pose proof (cudaMemcpy_H2D_bytes sizeof_float _ _ _ _
                  : released_bytes _ (snd (fst (m s))) = _) as B1;
    track m s; track_mem m s; name_step m s end.
  rewrite bind_state. cbv beta.
  match goal with |- context [fst (?m ?s)] =>
    pose proof (cudaMemcpy_H2D_bytes sizeof_float _ _ _ _
                  : released_bytes _ (snd (fst (m s))) = _) as B2;
    track m s; track_mem m s; name_step m s end.
  rewrite bind_state. cbv beta.
  match goal with |- context [fst (?m ?s)] =>
    pose proof (cudaMemcpy_H2D_bytes sizeof_float _ _ _ _
                  : released_bytes _ (snd (fst (m s))) = _) as B3;
    track m s; track_mem m s; name_step m s end.
  (* the pattern *)
  rewrite bind_get, bind_state. cbv beta.
  match goal with |- context [snd (?m ?s)] =>
    track m s; track_mem m s;
    let s' := fresh "st" in set (s' := snd (m s)) in *; clearbody s' end.
  (* the batches *)
  rewrite bind_state. cbv beta.
  match goal with |- context [fst (GetAmps_loop ?f ?r ?o ?np ?w ?X ?Y ?Z_ ?A ?s)] =>
    destruct (GetAmps_loop_some f r o np w X Y Z_ A s
                ltac:(lia) ltac:(lia)) as (A' & EA & BA);
    pose proof (GetAmps_loop_mem f r o np w X Y Z_ A s) as SL;
    pose proof (GetAmps_loop_error f r o np w X Y Z_ A s) as KL;
    assert (QL : N_spots_all <= 0 ->
                 snd (GetAmps_loop f r o np w X Y Z_ A s) = s)
      by (intros Hle; rewrite GetAmps_loop_done by exact Hle; reflexivity);
    unfold same in SL; rewrite EA;
    let s' := fresh "st" in
    set (s' := snd (GetAmps_loop f r o np w X Y Z_ A s)) in *; clearbody s'
  end.
  cbv iota beta.
  (* the read-back *)
  rewrite bind_state. cbv beta.
  match goal with |- context [fst (?m ?s)] =>
    pose proof (fun Hb => cudaMemcpy_D2H_keeps sizeof_float h_amps A' sz s Hb
                  : snd (fst (m s)) = _ /\ _) as D1;
    track m s; track_mem m s; name_step m s end.
  rewrite !(bind_eval _ _ _ _ _ (cudaFree_eq _ _ _ _)).
  rewrite (bind_eval _ _ _ _ _ (handle_errors_eq _ _)).
  unfold ret. norm_state.
  eexists _, _, _. split; [reflexivity|]. norm_state.
  split; [lia|]. split; [reflexivity|]. split; [reflexivity|].
  split.
  { intros Hpend. repeat apply release_error_pending.
    match goal with
    | |- last_error ?s <> 0 =>
        assert (Kall : keeps_error st s)
          by (repeat (etransitivity; [eassumption|]); first [assumption | reflexivity]);
        exact (Kall Hpend)
    end. }
  intros Hle Hlen.
  assert (Hb : sz = 0 \/ (length h_amps < elems sizeof_float sz)%nat).
  { destruct (Z.eq_dec N_spots_all 0) as [E|E]; [left; auto|right].
    destruct (HszN ltac:(lia)) as (_ & Hbig). lia. }
  destruct (D1 Hb) as (Dh & De).
  split; [exact Dh|]. split.
  { intros Hneg. repeat apply release_error_pending. apply De.
    destruct (HszN Hneg) as (Hnz & _). exact Hnz. }
  specialize (QL Hle). subst.
  match goal with
  | |- context [trace ?s ++ [EvFree _]] =>
      assert (Lall : logs_only quiet_event st s)
        by (repeat (etransitivity; [eassumption|]); first [assumption | reflexivity])
  end.
  destruct Lall as (evs & Etr & Hq).
  rewrite Etr, <- !app_assoc, new_events_app, !List.filter_app.
  rewrite (quiet_filter _ Hq). cbn [List.filter device_work app].
  match goal with |- context [if ?b then _ else _] => destruct b end;
    reflexivity.
Qed.

(** X15.  [GetAmps] returns for every count an [int] can hold, and returns
    the device memory it took: the free memory is the same after the call as
    before.  Of the session it changes nothing but the byte pattern on the
    device and the byte size of the spot arrays.  It logs only the
    allocation and release of its own four arrays, launches of
    [checkAmplitudes] and the message box.  The status returned is the one
    left in [status], no error is pending after the call, and an error
    pending before it is reported. *)
Theorem GetAmps_leaves_session (x_spots y_spots z_spots : list float)
    (h_pSLM_uc : list Z) (N_spots_all data_w' : Z) (h_amps : list float)
    (st : globals) :
  - 2 ^ 31 <= N_spots_all < 2 ^ 31 ->
  let r := GetAmps x_spots y_spots z_spots h_pSLM_uc N_spots_all data_w'
             h_amps st in
  exists e h,
    fst r = Some (e, h) /\
    mem_avail (snd r) = mem_avail st /\
    session_of_query (snd r) = session_of_query st /\
    (forall x, x <> memsize_spotsf -> ints (snd r) x = ints st x) /\
    status (snd r) = e /\
    last_error (snd r) = cudaSuccess /\
    (last_error st <> 0 -> e <> 0) /\
    exists evs,
      trace (snd r) = trace st ++ evs /\ forallb query_event evs = true.
Proof.
  intros HN. cbv zeta.
  destruct (GetAmps_run x_spots y_spots z_spots h_pSLM_uc N_spots_all data_w'
              h_amps st HN) as (e & h & st' & E & Hm & Hs & Hl & Hp & _).
  set (m := GetAmps x_spots y_spots z_spots h_pSLM_uc N_spots_all data_w'
              h_amps) in *.
  assert (K1 : steps m (same session_of_query))
    by (subst m;
        query_run ltac:(unfold session_of_query; same_leaf)
                  GetAmps_loop_session).
  assert (K2 : forall x, x <> memsize_spotsf ->
                 steps m (same (fun st => ints st x)))
    by (intros x Hx; subst m;
        query_run same_other_leaf (GetAmps_loop_ints x Hx)).
  assert (K3 : steps m (logs_only query_event))
    by (subst m; query_run logs_only_leaf GetAmps_loop_log).
  clearbody m.
  specialize (K1 st). specialize (K3 st). unfold same in K1.
  pose proof (fun x Hx => K2 x Hx st) as K2'. unfold same in K2'.
  rewrite E in *. cbn [fst snd] in *.
  exists e, h. repeat split; try assumption.
Qed.

(** X16.  [GetAmps] with no points.  For a count of zero or less no kernel
    is launched and the caller's amplitude array comes back as it was
    (the array being shorter than 2^61 floats); for a negative count, whose
    byte size wraps around to nearly 2^64, the call returns an error. *)
Theorem GetAmps_nonpositive (x_spots y_spots z_spots : list float)
    (h_pSLM_uc : list Z) (N_spots_all data_w' : Z) (h_amps : list float)
    (st : globals) :
  - 2 ^ 31 <= N_spots_all <= 0 ->
  Z.of_nat (length h_amps) < 2 ^ 61 ->
  let r := GetAmps x_spots y_spots z_spots h_pSLM_uc N_spots_all data_w'
             h_amps st in
  exists e,
    fst r = Some (e, h_amps) /\
    (N_spots_all < 0 -> e <> 0) /\
    List.filter device_work (new_events (trace st) (trace (snd r))) = [].
Proof.
  intros HN Hlen. cbv zeta.
  destruct (GetAmps_run x_spots y_spots z_spots h_pSLM_uc N_spots_all data_w'
              h_amps st ltac:(change (2 ^ 31) with 2147483648 in *; lia))
    as (e & h & st' & E & _ & _ & _ & _ & Hq).
  destruct (Hq ltac:(lia) Hlen) as (-> & He & Htr).
  rewrite E. cbn [fst snd]. exists e. repeat split; assumption.
Qed.

End QueryRun.

Section NoSession.
Context `{FloatOps} `{Header} `{!Kernels}.

Lemma upload_f_live (p q : fptr) (h : option (list float)) (bytes : Z) :
  steps (upload_f p h bytes) (same (fun st => is_live (fptrs st q))).
Proof.
  intros st. unfold same, upload_f. rewrite bind_get.
  unfold cudaMemcpy_H2D.
  assert (Hfail : is_live
            (fptrs (snd ((r <- (e <- raise cudaErrorInvalidValue ;;
                               ret (e, fptrs st p)) ;;
                          set_fptr p (snd r) ;; ret (fst r)) st)) q) =
          is_live (fptrs st q)).
  { unfold raise, set_fptr, bind, modify, ret. cbn [fst snd]. norm_state.
    unfold upd. destruct (decide (q = p)) as [->|]; reflexivity. }
  destruct (bytes =? 0).
  { unfold set_fptr, bind, modify, ret. cbn [fst snd]. norm_state.
    unfold upd. destruct (decide (q = p)) as [->|]; reflexivity. }
  destruct (fptrs st p) as [|d|] eqn:Ep; [exact Hfail| |exact Hfail].
  destruct h as [s|]; [|exact Hfail].
  destruct ((elems sizeof_float bytes <=? length d)%nat &&
            (elems sizeof_float bytes <=? length s)%nat); [|exact Hfail].
  unfold set_fptr, bind, modify, ret. cbn [fst snd]. norm_state.
  unfold upd. destruct (decide (q = p)) as [->|]; [rewrite Ep|]; reflexivity.
Qed.

Lemma upload_f_fails (p : fptr) (h : option (list float)) (bytes : Z)
    (st : globals) :
  is_live (fptrs st p) = false -> bytes <> 0 ->
  last_error (snd (upload_f p h bytes st)) <> 0.
Proof.
  intros Hp Hb. unfold upload_f. rewrite bind_get. unfold cudaMemcpy_H2D.
  apply Z.eqb_neq in Hb. rewrite Hb.
  destruct (fptrs st p); try discriminate Hp;
    unfold raise, set_fptr, bind, modify, ret; cbn [fst snd]; norm_state;
    discriminate.
Qed.

Lemma launch_LensesAndPrisms_fails (n : Z) (st : globals) :
  is_live (fptrs st d_x) = false ->
  last_error (snd (launch_LensesAndPrisms n st)) <> 0.
Proof.
  intros Hp. unfold launch_LensesAndPrisms, log.
  rewrite bind_get, bind_modify. norm_state.
  destruct (fptrs st d_x); try discriminate Hp;
    unfold launch_failure, raise, bind, modify, ret; cbn [fst snd]; norm_state;
    discriminate.
Qed.

Lemma upload_spots_without_buffers (x_spots y_spots z_spots I_spots : list float)
    (n : Z) (st : globals) :
  is_live (fptrs st d_x) = false ->
  let st' := snd (upload_spots x_spots y_spots z_spots I_spots n st) in
  is_live (fptrs st' d_x) = false /\
  (0 < n < 2 ^ 29 -> last_error st' <> 0).
Proof.
  intros Hx. cbv zeta. unfold upload_spots, set_int.
  rewrite bind_modify, bind_get. norm_state. upd_simpl.
  set (sz := to_size_t (to_int (size_mul n sizeof_float))).
  set (st0 := set_ints _ st).
  assert (Hx0 : is_live (fptrs st0 d_x) = false) by exact Hx.
  clearbody st0.
  rewrite bind_state. cbv beta.
  pose proof (upload_f_live d_x d_x (Some x_spots) sz st0) as L1.
  pose proof (upload_f_fails d_x (Some x_spots) sz st0 Hx0) as E1.
  unfold same in L1.
  set (st1 := snd (upload_f d_x (Some x_spots) sz st0)) in *. clearbody st1.
  set (rest := bind (upload_f d_y (Some y_spots) sz) _).
  assert (K : steps rest keeps_error) by (subst rest; steps_run keeps_error_leaf).
  assert (L : steps rest (same (fun st => is_live (fptrs st d_x)))).
  { subst rest.
    repeat (apply steps_bind; [typeclasses eauto|apply upload_f_live|intros _]).
    apply steps_ret. typeclasses eauto. }
  specialize (K st1). specialize (L st1). unfold same in L. clearbody rest.
  split; [congruence|].
  intros Hn. apply K, E1. subst sz. rewrite spots_bytes by lia. lia.
Qed.

(** X17.  [GenerateHologram] without a session: when the buffer of the
    x coordinates is not allocated (before [startCUDAandSLM], or after
    [stopCUDAandSLM]), the call returns an error, whatever its arguments.
    Either the upload of the coordinates fails, or, with a spot count for
    which there is nothing to upload, the launch of [LensesAndPrisms]
    does. *)
Theorem GenerateHologram_needs_session (h_pSLM_uc : list Z)
    (x_spots y_spots z_spots I_spots : list float) (N_spots N_iterations : Z)
    (h_weights : list float) (alpha : float) (method : Z) (st : globals) :
  0 < BLOCK_SIZE < 2 ^ 29 ->
  is_live (fptrs st d_x) = false ->
  holo_status (fst (GenerateHologram h_pSLM_uc x_spots y_spots z_spots I_spots
                      N_spots N_iterations h_weights alpha method st)) <> 0.
Proof.
  intros HB Hx.
  unfold GenerateHologram. cbv zeta.
  rewrite bind_state. cbv beta.
  destruct (upload_spots_without_buffers x_spots y_spots z_spots I_spots
              (fst (clamp_spots N_spots method)) st Hx) as (Hx1 & He1).
  set (st1 := snd (upload_spots x_spots y_spots z_spots I_spots
                     (fst (clamp_spots N_spots method)) st)) in *.
  clearbody st1.
  rewrite bind_state. cbv beta. rewrite finish_hologram_eq.
  cbn [fst holo_status].
  unfold clamp_spots in *.
  destruct (Z.gtb_spec N_spots BLOCK_SIZE) as [Hgt|Hle]; cbn [fst snd] in *.
  - match goal with
    | |- last_error (snd (?m st1)) <> 0 =>
        assert (K : steps m keeps_error) by steps_run keeps_error_leaf;
        apply (K st1), He1; lia
    end.
  - destruct (Z.ltb_spec N_spots 3) as [Hlt|Hge]; cbn [fst snd] in *.
    + change (0 =? 0) with true. cbv iota.
      unfold LensesAndPrisms_method. rewrite bind_state. cbv beta.
      pose proof (launch_LensesAndPrisms_fails N_spots st1 Hx1) as E2.
      set (st2 := snd (launch_LensesAndPrisms N_spots st1)) in *.
      clearbody st2.
      match goal with
      | |- last_error (snd (?m st2)) <> 0 =>
          assert (K : steps m keeps_error) by steps_run keeps_error_leaf;
          apply (K st2), E2
      end.
    + match goal with
      | |- last_error (snd (?m st1)) <> 0 =>
          assert (K : steps m keeps_error) by steps_run keeps_error_leaf;
          apply (K st1), He1; lia
      end.
Qed.

End NoSession.

Arguments to_uint : simpl never.

Section TestKernel.
Context `{FloatOps}.

Lemma in_grid_threads (g b : nat) (blk t : Z) :
  In (blk, t) (grid_threads g b) <->
  0 <= blk < Z.of_nat g /\ 0 <= t < Z.of_nat b.
Proof.
  unfold grid_threads. rewrite in_flat_map. split.
  - intros (x & Hx & Hin). apply in_map_iff in Hin.
    destruct Hin as (y & Heq & Hy). apply in_seq in Hx, Hy.
    injection Heq as <- <-. lia.
  - intros (Hb & Ht). exists (Z.to_nat blk). split.
    + apply in_seq. lia.
    + apply in_map_iff. exists (Z.to_nat t). split.
      * f_equal; lia.
      * apply in_seq. lia.
Qed.

Lemma testfunc_index (b blk t : Z) (l : list float) :
  0 <= b -> 0 <= blk -> 0 <= t -> blk * b + t < 2 ^ 31 ->
  testfunc b blk t l =
  if blk * b + t <? Z.of_nat (length l)
  then Some (<[Z.to_nat (blk * b + t) := float_of_int (blk * b + t)]> l)
  else None.
Proof.
  intros Hb Hblk Ht Hlt. unfold testfunc.
  assert (Hi : to_int (to_uint (to_uint (blk * b) + t)) = blk * b + t).
  { unfold to_uint.
    change (2 ^ 31) with 2147483648 in Hlt.
    assert (0 <= blk * b) by nia.
    rewrite (Z.mod_small (blk * b)) by (change (2 ^ 32) with 4294967296; lia).
    rewrite Z.mod_small by (change (2 ^ 32) with 4294967296; lia).
    apply to_int_small. change (2 ^ 31) with 2147483648. lia. }
  rewrite Hi.
  assert (H0 : (0 <=? blk * b + t) = true) by (apply Z.leb_le; nia).
  rewrite H0. reflexivity.
Qed.

Lemma run_testfunc_lookup (b : Z) (sched : list (Z * Z)) :
  0 <= b ->
  forall l : list float,
    Z.of_nat (length l) < 2 ^ 31 ->
    Forall (thread_ok b (length l)) sched ->
    exists l',
      run_testfunc b sched l = Some l' /\ length l' = length l /\
      forall i : nat,
        (i < length l)%nat ->
        l' !! i =
        if existsb (fun bt => Z.to_nat (fst bt * b + snd bt) =? i)%nat sched
        then Some (float_of_int (Z.of_nat i)) else l !! i.
Proof.
  intros Hb. induction sched as [|[blk t] rest IH]; intros l Hlen Hall.
  - exists l. cbn. auto.
  - inversion Hall as [|? ? Hh Ht]; subst.
    destruct Hh as (Hblk & Ht0 & Hlt). cbn [fst snd] in *.
    cbn [run_testfunc].
    rewrite testfunc_index by lia.
    assert (Hin : (blk * b + t <? Z.of_nat (length l)) = true)
      by (apply Z.ltb_lt; lia).
    rewrite Hin.
    set (k := Z.to_nat (blk * b + t)).
    set (l1 := <[k := float_of_int (blk * b + t)]> l).
    assert (Hl1 : length l1 = length l) by (subst l1; apply length_insert).
    destruct (IH l1) as (l' & Hrun & Hlen' & Hlook).
    { rewrite Hl1. exact Hlen. }
    { rewrite Hl1. exact Ht. }
    exists l'. split; [exact Hrun|]. split; [congruence|].
    intros i Hi. rewrite Hlook by lia.
    cbn [existsb fst snd]. fold k.
    destruct (existsb _ rest); [rewrite orb_true_r; reflexivity|].
    rewrite orb_false_r.
    destruct (Nat.eqb_spec k i) as [Heq|Hne].
    + subst l1. rewrite <- Heq. rewrite list_lookup_insert_eq by lia.
      f_equal. f_equal. subst k. lia.
    + subst l1. rewrite list_lookup_insert_ne by exact Hne. reflexivity.
Qed.

Lemma run_testfunc_fault (b : Z) (sched : list (Z * Z)) :
  0 <= b ->
  forall l : list float,
    Forall (fun bt => 0 <= fst bt /\ 0 <= snd bt /\
                      fst bt * b + snd bt < 2 ^ 31) sched ->
    Exists (fun bt => Z.of_nat (length l) <= fst bt * b + snd bt) sched ->
    run_testfunc b sched l = None.
Proof.
  intros Hb. induction sched as [|[blk t] rest IH]; intros l Hall Hex.
  - inversion Hex.
  - inversion Hall as [|? ? Hh Ht]; subst.
    destruct Hh as (Hblk & Ht0 & Hlt). cbn [fst snd] in *.
    cbn [run_testfunc]. rewrite testfunc_index by lia.
    destruct (Z.ltb_spec (blk * b + t) (Z.of_nat (length l))) as [Hin|Hout];
      [|reflexivity].
    apply IH; [exact Ht|].
    rewrite length_insert.
    inversion Hex as [? ? Hbad|? ? Hbad]; subst; [cbn [fst snd] in Hbad; lia|].
    exact Hbad.
Qed.

(** X18.  The kernel [testfunc] on a grid of [gridDim] blocks of
    [blockDim] threads, the threads running one after the other in any
    order: when the grid fits the array, every entry below
    [gridDim * blockDim] ends up holding its own index as a float, and the
    entries from there on are not touched.  The outcome does not depend on
    the order: no two threads write the same entry. *)
Theorem testfunc_fills_indices (gridDim blockDim : nat)
    (schedule : list (Z * Z)) (testdata : list float) :
  Permutation schedule (grid_threads gridDim blockDim) ->
  (gridDim * blockDim <= length testdata)%nat ->
  Z.of_nat (length testdata) < 2 ^ 31 ->
  run_testfunc (Z.of_nat blockDim) schedule testdata =
  Some (map (fun i => float_of_int (Z.of_nat i)) (seq 0 (gridDim * blockDim)) ++
        drop (gridDim * blockDim) testdata).
Proof.
  intros Hperm Hfit Hint.
  assert (Hin : forall blk t, In (blk, t) schedule <->
                  0 <= blk < Z.of_nat gridDim /\ 0 <= t < Z.of_nat blockDim).
  { intros blk t. rewrite <- in_grid_threads. split; apply Permutation_in;
      [exact Hperm|symmetry; exact Hperm]. }
  assert (Hall : Forall (thread_ok (Z.of_nat blockDim) (length testdata)) schedule).
  { apply List.Forall_forall. intros [blk t] Hbt. apply Hin in Hbt.
    unfold thread_ok. cbn [fst snd]. nia. }
  destruct (run_testfunc_lookup (Z.of_nat blockDim) schedule ltac:(lia)
              testdata Hint Hall) as (l' & Hrun & Hlen & Hlook).
  rewrite Hrun. f_equal. apply list_eq. intros i.
  destruct (Nat.lt_ge_cases i (length testdata)) as [Hi|Hi].
  - rewrite Hlook by exact Hi.
    destruct (Nat.lt_ge_cases i (gridDim * blockDim)) as [Hlo|Hhi].
    + assert (Hex : existsb (fun bt => Z.to_nat (fst bt * Z.of_nat blockDim + snd bt) =? i)%nat
                      schedule = true).
      { apply existsb_exists.
        assert (Hb0 : (0 < blockDim)%nat) by nia.
        exists (Z.of_nat (i / blockDim), Z.of_nat (i mod blockDim)). split.
        - apply Hin. pose proof (Nat.mod_upper_bound i blockDim ltac:(lia)).
          assert ((i / blockDim < gridDim)%nat)
            by (apply Nat.Div0.div_lt_upper_bound; lia).
          lia.
        - cbn [fst snd]. apply Nat.eqb_eq.
          pose proof (Nat.div_mod_eq i blockDim). nia. }
      rewrite Hex.
      rewrite lookup_app_l by (rewrite length_map, length_seq; exact Hlo).
      change (map ?f ?l) with (f <$> l).
      rewrite list_lookup_fmap, lookup_seq_lt by exact Hlo. reflexivity.
    + assert (Hex : existsb (fun bt => Z.to_nat (fst bt * Z.of_nat blockDim + snd bt) =? i)%nat
                      schedule = false).
      { apply not_true_is_false. intros Htrue.
        apply existsb_exists in Htrue. destruct Htrue as ([blk t] & Hbt & Heq).
        apply Hin in Hbt. cbn [fst snd] in Heq. apply Nat.eqb_eq in Heq. nia. }
      rewrite Hex.
      rewrite lookup_app_r by (rewrite length_map, length_seq; exact Hhi).
      rewrite length_map, length_seq, lookup_drop. f_equal. lia.
  - rewrite (lookup_ge_None_2 l') by lia.
    symmetry. apply lookup_ge_None_2.
    rewrite length_app, length_map, length_seq, length_drop. lia.
Qed.

(** X19.  [testfunc] has no bound check: on an array shorter than the grid
    some thread writes past its end, in whatever order the threads run. *)
Theorem testfunc_overrun_faults (gridDim blockDim : nat)
    (schedule : list (Z * Z)) (testdata : list float) :
  Permutation schedule (grid_threads gridDim blockDim) ->
  (length testdata < gridDim * blockDim)%nat ->
  Z.of_nat (gridDim * blockDim) < 2 ^ 31 ->
  run_testfunc (Z.of_nat blockDim) schedule testdata = None.
Proof.
  intros Hperm Hover Hint.
  assert (Hin : forall blk t, In (blk, t) schedule <->
                  0 <= blk < Z.of_nat gridDim /\ 0 <= t < Z.of_nat blockDim).
  { intros blk t. rewrite <- in_grid_threads. split; apply Permutation_in;
      [exact Hperm|symmetry; exact Hperm]. }
  apply run_testfunc_fault; [lia| |].
  - apply List.Forall_forall. intros [blk t] Hbt. apply Hin in Hbt.
    cbn [fst snd]. nia.
  - apply List.Exists_exists.
    assert (Hb0 : (0 < blockDim)%nat) by nia.
    set (i := length testdata).
    exists (Z.of_nat (i / blockDim), Z.of_nat (i mod blockDim)). split.
    + apply Hin. pose proof (Nat.mod_upper_bound i blockDim ltac:(lia)).
      assert ((i / blockDim < gridDim)%nat)
        by (apply Nat.Div0.div_lt_upper_bound; lia).
      lia.
    + cbn [fst snd]. pose proof (Nat.div_mod_eq i blockDim). nia.
Qed.

End TestKernel.


(** * The properties on the sample instance *)

#[local] Existing Instance Sample.milli.
#[local] Existing Instance Sample.header.
#[local] Existing Instance Sample.kernels.

(** Five spots on a capacity of four, Fresnel method requested: the method
    stays 1, and the call runs the Fresnel kernels, not lenses and prisms. *)
Lemma over_capacity_keeps_method :
  let r := GenerateHologram [0; 0; 0; 0] [1; 2; 3; 4; 5] [1; 2; 3; 4; 5]
             [1; 2; 3; 4; 5] [1; 1; 1; 1; 1] 5 3 (replicate 20 9) 500 1
             Sample.session in
  let evs := new_events (trace Sample.session) (trace (snd r)) in
  5 > BLOCK_SIZE /\
  snd (clamp_spots 5 1) = 1 /\
  snd (clamp_spots 5 1) <> 0 /\
  count K_LensesAndPrisms evs = 0%nat /\
  count K_PropagateToSLM_Fresnel evs = 3%nat.
Proof.
  vm_compute. repeat split; try reflexivity; discriminate.
Qed.

Lemma GenerateHologram_capacity_and_method_witness :
  (clamp_spots 5 1 = (4, 1) /\
   GenerateHologram [0; 0; 0; 0] [1; 2; 3; 4; 5] [1; 2; 3; 4; 5]
     [1; 2; 3; 4; 5] [1; 1; 1; 1; 1] 5 3 (replicate 20 9) 500 1
     Sample.session =
   GenerateHologram [0; 0; 0; 0] [1; 2; 3; 4] [1; 2; 3; 4]
     [1; 2; 3; 4] [1; 1; 1; 1] 5 3 (replicate 20 9) 500 1
     Sample.session) /\
  (clamp_spots 2 1 = (2, 0) /\
   GenerateHologram [0; 0; 0; 0] [1; 2] [1; 2] [1; 2] [1; 1] 2 3
     (replicate 20 9) 500 1 Sample.session =
   GenerateHologram [0; 0; 0; 0] [1; 2] [1; 2] [1; 2] [1; 1] 2 3
     (replicate 20 9) 500 0 Sample.session) /\
  clamp_spots 3 1 = (3, 1).
Proof.
  assert (Hcap : 0 <= BLOCK_SIZE < 2 ^ 29)
    by (vm_compute; split; [discriminate|reflexivity]).
  assert (H5 : 5 > BLOCK_SIZE) by (vm_compute; reflexivity).
  assert (H2a : 2 <= BLOCK_SIZE) by (vm_compute; discriminate).
  assert (H2b : 2 < 3) by (vm_compute; reflexivity).
  assert (H3 : 3 <= 3 <= BLOCK_SIZE) by (vm_compute; split; discriminate).
  split; [|split].
  - exact (proj1 (@GenerateHologram_capacity_and_method Sample.milli
                    Sample.header Sample.kernels [0; 0; 0; 0] [1; 2; 3; 4; 5]
                    [1; 2; 3; 4; 5] [1; 2; 3; 4; 5] [1; 1; 1; 1; 1] 5 3
                    (replicate 20 9) 500 1 Sample.session Hcap) H5).
  - exact (proj1 (proj2 (@GenerateHologram_capacity_and_method Sample.milli
                           Sample.header Sample.kernels [0; 0; 0; 0] [1; 2]
                           [1; 2] [1; 2] [1; 1] 2 3 (replicate 20 9) 500 1
                           Sample.session Hcap)) H2a H2b).
  - exact (proj2 (proj2 (@GenerateHologram_capacity_and_method Sample.milli
                           Sample.header Sample.kernels [0; 0; 0; 0] [1; 2; 3]
                           [1; 2; 3] [1; 2; 3] [1; 1; 1] 3 3 (replicate 20 9)
                           500 1 Sample.session Hcap)) H3).
Defined.


(** With three spots and no iteration the Fresnel call leaves the seeded
    weights in place: they are the ones of [d_weights_start], not the
    5000s the caller passed in [h_weights]. *)
Lemma Fresnel_seed_ignores_caller_weights :
  let r := GenerateHologram [0; 0; 0; 0] [1; 2; 3] [1; 2; 3] [1; 2; 3]
             [1; 1; 1] 3 0 [5000; 5000; 5000] 500 1 Sample.session in
  snd (clamp_spots 3 1) = 1 /\
  exists w,
    fptrs (snd r) d_weights = Live w /\
    take 3 w = [1000; 1000; 1000] /\
    take 3 w <> [5000; 5000; 5000].
Proof.
  cbv zeta. split; [vm_compute; reflexivity|].
  eexists. split; [vm_compute; reflexivity|].
  split; [vm_compute; reflexivity|vm_compute; discriminate].
Qed.

Lemma GenerateHologram_Fresnel_seed_witness :
  let seeded :=
    snd (Fresnel_seed
           (snd (upload_spots [1; 2; 3] [1; 2; 3] [1; 2; 3] [1; 1; 1] 3
                   Sample.session))) in
  fptrs seeded d_weights =
    Live (take 3 [1000; 1000; 1000; 1000] ++ drop 3 (replicate 4004 (-1))) /\
  fptrs seeded d_pSLMstart_f = Live [0; 0; 0; 0] /\
  fptrs seeded d_pSLM_f = Live [0; 0; 0; 0].
Proof.
  pose proof (@GenerateHologram_Fresnel_seed Sample.milli Sample.header
                Sample.kernels [0; 0; 0; 0] [1; 2; 3] [1; 2; 3] [1; 2; 3]
                [1; 1; 1] 3 5 [5000; 5000; 5000] 500 1 Sample.session
                (replicate 4004 (-1)) [1000; 1000; 1000; 1000] [0; 0; 0; 0]
                (replicate 4 (-1))) as Hthm.
  cbv zeta in Hthm.
  destruct Hthm as (S1 & S2 & S3 & _).
  - vm_compute. reflexivity.
  - vm_compute. split; [discriminate|reflexivity].
  - vm_compute. reflexivity.
  - vm_compute. reflexivity.
  - vm_compute. reflexivity.
  - vm_compute. reflexivity.
  - vm_compute. lia.
  - vm_compute. lia.
  - vm_compute. reflexivity.
  - vm_compute. reflexivity.
  - cbv zeta. split; [exact S1|split; [exact S2|exact S3]].
Defined.

(** On hardware that applies the look-up table itself the table is
    allocated but its flag is off: after shutdown the pointer is not NULL. *)
Lemma stop_leaves_LUT_pointer :
  let st := Sample.session_slm in
  let st' := snd (stopCUDAandSLM st) in
  is_live (ucptrs st d_LUT_uc) = true /\
  ApplyLUT_b st = false /\
  ucptrs st' d_LUT_uc = Stale /\
  ucptrs st' d_LUT_uc <> NullPtr.
Proof.
  vm_compute. repeat split; try reflexivity. discriminate.
Qed.

Lemma stopCUDAandSLM_releases_witness :
  let st := snd (Corrections 1 (Some [1; 2; 3; 4]) 1 1 3
                   (Some (replicate 20 5)) Sample.session_slm) in
  let st' := snd (stopCUDAandSLM st) in
  ucptrs st' d_LUT_uc = NullPtr /\
  fptrs st' d_AberrationCorr_f = NullPtr /\
  fptrs st' d_LUTPolCoeff_f = NullPtr /\
  mem_avail st' = mem_total st'.
Proof.
  intros st st'.
  destruct (@stopCUDAandSLM_releases Sample.milli st)
    as (_ & _ & _ & _ & _ & Hm & Hlut & Hab & Hpol).
  split; [|split; [|split]].
  - apply Hlut. vm_compute. reflexivity.
  - apply Hab. vm_compute. reflexivity.
  - apply Hpol. vm_compute. reflexivity.
  - exact Hm.
Defined.

(** 1001 iterations are asked for, one more than [MaxIterations]: all 1001
    run. *)
Lemma iterations_run_past_MaxIterations :
  let r := GenerateHologram [0; 0; 0; 0] [1; 2; 3] [1; 2; 3] [1; 2; 3]
             [1; 1; 1] 3 1001 (replicate 3003 9) 500 1 Sample.session in
  let evs := new_events (trace Sample.session) (trace (snd r)) in
  1001 > MaxIterations /\
  count K_PropagateToSLM_Fresnel evs = 1001%nat /\
  count K_PropagateToSLM_Fresnel evs <> Z.to_nat MaxIterations /\
  holo_status (fst r) = 0.
Proof.
  vm_compute. repeat split; try reflexivity. discriminate.
Qed.

Lemma GenerateHologram_iteration_count_witness :
  let r1 := GenerateHologram [0; 0; 0; 0] [1; 2; 3] [1; 2; 3] [1; 2; 3]
              [1; 1; 1] 3 7 (replicate 30 9) 500 1 Sample.session in
  let r2 := GenerateHologram [0; 0; 0; 0] [1; 2; 3] [1; 2; 3] [1; 2; 3]
              [1; 1; 1] 3 7 (replicate 30 9) 500 2 Sample.session in
  count K_PropagateToSLM_Fresnel
    (new_events (trace Sample.session) (trace (snd r1))) = 7%nat /\
  count K_ReplaceAmpsSpots_FFT
    (new_events (trace Sample.session) (trace (snd r2))) = 7%nat.
Proof.
  cbv zeta. split.
  - apply (@GenerateHologram_iteration_count Sample.milli Sample.header
             Sample.kernels [0; 0; 0; 0] [1; 2; 3] [1; 2; 3] [1; 2; 3]
             [1; 1; 1] 3 7 (replicate 30 9) 500 1 Sample.session).
    vm_compute. reflexivity.
  - apply (@GenerateHologram_iteration_count Sample.milli Sample.header
             Sample.kernels [0; 0; 0; 0] [1; 2; 3] [1; 2; 3] [1; 2; 3]
             [1; 1; 1] 3 7 (replicate 30 9) 500 2 Sample.session).
    vm_compute. reflexivity.
Defined.


Lemma GenerateHologram_Fourier_seed_witness :
  let uploaded := snd (upload_spots [1; 2; 3] [1; 2; 3] [1; 2; 3] [1; 1; 1] 3
                         Sample.session) in
  let r := Fourier_seed [5000; 5000; 5000; 7] 3 uploaded in
  fptrs (snd r) d_weights =
    Live (replicate 3 (fdiv (float_of_int 1) (float_of_int 3)) ++
          drop 3 (replicate 4004 (-1))) /\
  snd (fst r) = replicate 3 (fdiv (float_of_int 1) (float_of_int 3)) ++ [7] /\
  snd (Fourier_seed [1; 2; 3; 4] 3 uploaded) = snd r.
Proof.
  pose proof (@GenerateHologram_Fourier_seed Sample.milli Sample.header
                Sample.kernels [0; 0; 0; 0] [1; 2; 3] [1; 2; 3] [1; 2; 3]
                [1; 1; 1] 3 5 [5000; 5000; 5000; 7] 500 2 Sample.session
                (replicate 4004 (-1))) as Hthm.
  cbv zeta in Hthm.
  destruct Hthm as (S1 & S2 & _ & S4 & _).
  - vm_compute. reflexivity.
  - vm_compute. split; [discriminate|reflexivity].
  - vm_compute. reflexivity.
  - vm_compute. lia.
  - vm_compute. lia.
  - cbv zeta. split; [exact S1|split; [exact S2|]].
    apply (S4 [1; 2; 3; 4]). vm_compute. lia.
Defined.

Lemma Corrections_aberration_map_witness :
  let st := Sample.session in
  let on := snd (Corrections 1 (Some [1; 2; 3; 4]) 0 0 0 None st) in
  let off := snd (Corrections 0 None 0 0 0 None on) in
  (List.filter (about (PF d_AberrationCorr_f))
     (new_events (trace st) (trace on)) =
   [EvMalloc (PF d_AberrationCorr_f) 16] /\
   UseAberrationCorr_b on = true /\
   exists rest, fptrs on d_AberrationCorr_f = Live ([1; 2; 3; 4] ++ rest)) /\
  (List.filter (about (PF d_AberrationCorr_f))
     (new_events (trace on) (trace off)) =
   [EvFree (PF d_AberrationCorr_f)] /\
   fptrs off d_AberrationCorr_f = NullPtr).
Proof.
  intros st on off. split.
  - pose proof (@Corrections_aberration_map Sample.milli 1
                  (Some [1; 2; 3; 4]) 0 0 0 None st) as Hthm.
    cbv zeta in Hthm. change (bool_of_int 1) with true in Hthm.
    cbv iota in Hthm. destruct Hthm as [Hev Hup].
    split; [exact Hev|].
    apply (Hup [1; 2; 3; 4] eq_refl).
    + vm_compute. discriminate.
    + vm_compute. lia.
    + vm_compute. discriminate.
  - pose proof (@Corrections_aberration_map Sample.milli 0 None 0 0 0 None on)
      as Hthm.
    cbv zeta in Hthm. change (bool_of_int 0) with false in Hthm.
    cbv iota in Hthm. exact Hthm.
Defined.

Lemma GenerateHologram_few_spots_witness :
  let r := GenerateHologram [0; 0; 0; 0] [1000; 2000] [3000; 4000] [0; 0]
             [1000; 1000] 2 5 [9; 9; 9] 500 1 Sample.session in
  r = GenerateHologram [0; 0; 0; 0] [1000; 2000] [3000; 4000] [0; 0]
        [1000; 1000] 2 5 [9; 9; 9] 500 0 Sample.session /\
  count K_LensesAndPrisms
    (new_events (trace Sample.session) (trace (snd r))) = 1%nat /\
  count K_PropagateToSLM_Fresnel
    (new_events (trace Sample.session) (trace (snd r))) = 0%nat /\
  exists a1 a2, holo_weights (fst r) = [a1; a2; 9].
Proof.
  pose proof (@GenerateHologram_few_spots Sample.milli Sample.header
                Sample.kernels [0; 0; 0; 0] [1000; 2000] [3000; 4000] [0; 0]
                [1000; 1000] 2 5 [9; 9; 9] 500 1 Sample.session
                (replicate 4 (-1)) (replicate 4 (-1)) (replicate 4 (-1))
                (replicate 4 (-1)) (replicate 4 (-1)) (replicate 4000 (-1)))
    as Hthm.
  cbv zeta in Hthm.
  destruct Hthm as (S1 & S2 & S3 & S4).
  - vm_compute. split; discriminate.
  - vm_compute. discriminate.
  - vm_compute. reflexivity.
  - vm_compute. reflexivity.
  - vm_compute. reflexivity.
  - vm_compute. reflexivity.
  - vm_compute. reflexivity.
  - vm_compute. reflexivity.
  - vm_compute. lia.
  - vm_compute. lia.
  - vm_compute. lia.
  - vm_compute. lia.
  - vm_compute. lia.
  - vm_compute. lia.
  - vm_compute. lia.
  - vm_compute. lia.
  - vm_compute. lia.
  - vm_compute. lia.
  - cbv zeta. split; [exact S1|]. split; [exact (S2 K_LensesAndPrisms)|].
    split; [exact (S2 K_PropagateToSLM_Fresnel)|].
    rewrite S3. vm_compute. eexists. eexists. reflexivity.
Defined.

Lemma GetAmps_batches_witness :
  let xs := replicate 1025 1000 in
  let ys := replicate 1025 2000 in
  let zs := replicate 1025 3000 in
  let pattern := [1; 2; 3; 4] in
  amplitudes_in_batches 1025 xs ys zs pattern (to_int (2 * 2)) 2 =
    evaluateAmplitudes (take 512 xs) (take 512 ys) (take 512 zs) pattern 512
      (to_int (2 * 2)) 2 ++
    evaluateAmplitudes (take 512 (drop 512 xs)) (take 512 (drop 512 ys))
      (take 512 (drop 512 zs)) pattern 512 (to_int (2 * 2)) 2 ++
    evaluateAmplitudes (drop 1024 xs) (drop 1024 ys) (drop 1024 zs) pattern 1
      (to_int (2 * 2)) 2 /\
  batch_launches 1025 1025 =
    [EvLaunch K_checkAmplitudes 512 512; EvLaunch K_checkAmplitudes 512 512;
     EvLaunch K_checkAmplitudes 1 512] /\
  exists st',
    GetAmps xs ys zs [1; 2; 3; 4] 1025 2 (replicate 1030 0) Sample.session =
    (Some (0, amplitudes_in_batches 1025 xs ys zs pattern (to_int (2 * 2)) 2 ++
              replicate 5 0), st').
Proof.
  intros xs ys zs pattern.
  pose proof (@GetAmps_batches Sample.milli Sample.kernels xs ys zs
                [1; 2; 3; 4] 1025 2 (replicate 1030 0) Sample.session
                (replicate 4 (-1))) as Hthm.
  cbv zeta in Hthm.
  destruct Hthm as (st' & Hrun & _ & _ & H1025).
  - vm_compute. reflexivity.
  - vm_compute. reflexivity.
  - vm_compute. reflexivity.
  - vm_compute. reflexivity.
  - vm_compute. discriminate.
  - vm_compute. reflexivity.
  - vm_compute. lia.
  - vm_compute. lia.
  - vm_compute. lia.
  - destruct (H1025 ltac:(vm_compute; reflexivity)) as [Hamps Hlaunch].
    split; [exact Hamps|]. split; [exact Hlaunch|].
    exists st'. exact Hrun.
Defined.

Lemma Corrections_enabled_implies_resident_witness :
  let st := Sample.session in
  let on := snd (Corrections 1 (Some [1; 2; 3; 4]) 0 1 3
                   (Some (replicate 20 5)) st) in
  let failed := snd (Corrections 1 None 0 0 0 None st) in
  0 < ints st memsize_SLMf < 2 ^ 31 /\
  fptrs on d_AberrationCorr_f <> NullPtr /\
  fptrs on d_LUTPolCoeff_f <> NullPtr /\
  UseAberrationCorr_b failed = false /\
  is_live (fptrs failed d_AberrationCorr_f) = true.
Proof.
  intros st on failed.
  assert (Hsz : 0 < ints st memsize_SLMf < 2 ^ 31)
    by (vm_compute; split; reflexivity).
  split; [exact Hsz|].
  destruct (@Corrections_enabled_implies_resident Sample.milli 1
              (Some [1; 2; 3; 4]) 0 1 3 (Some (replicate 20 5)) st Hsz)
    as (Hab & Hpol & _).
  destruct (@Corrections_enabled_implies_resident Sample.milli 1 None 0 0 0
              None st Hsz) as (_ & _ & Hfail).
  split; [apply Hab; vm_compute; reflexivity|].
  split; [apply Hpol; vm_compute; reflexivity|].
  apply Hfail.
  - vm_compute. reflexivity.
  - reflexivity.
  - right. vm_compute. split; [reflexivity|discriminate].
Defined.


(** * The properties of the whole session on the sample instance *)


Lemma startCUDAandSLM_modulator_witness :
  let st' := snd (startCUDAandSLM 1 1024 1 (replicate 256 7)
                    (initial_globals 1000000)) in
  EnableSLM_b st' = true /\ ApplyLUT_b st' = true /\
  ucptrs st' d_LUT_uc = Live (replicate 256 7).
Proof.
  assert (HB : 0 <= BLOCK_SIZE <= 10000) by (vm_compute; split; discriminate).
  assert (HS0 : 0 <= SLM_SIZE) by (vm_compute; discriminate).
  assert (HS : 8 * (SLM_SIZE * SLM_SIZE) < 2 ^ 31) by (vm_compute; reflexivity).
  assert (HL : (256 <= length (replicate 256 7))%nat)
    by (rewrite length_replicate; lia).
  assert (HM : startup_bytes (bool_of_int 1) <=
               mem_avail (initial_globals 1000000))
    by (vm_compute; discriminate).
  pose proof (startCUDAandSLM_modulator 1 1024 1 (replicate 256 7)
                (initial_globals 1000000) HB HS0 HS HL HM) as W.
  cbv zeta in W. destruct W as (W1 & W2 & W3 & _).
  cbv zeta. split; [exact W1|]. split; [exact W2|exact W3].
Defined.

Lemma startCUDAandSLM_twice_witness :
  mem_avail
    (snd (startCUDAandSLM 0 1024 0 (replicate 256 7)
            (snd (startCUDAandSLM 0 1024 0 (replicate 256 7)
                    (initial_globals 1000000))))) = 1000000 - 2 * 32276.
Proof.
  assert (HB : 0 <= BLOCK_SIZE <= 10000) by (vm_compute; split; discriminate).
  assert (HS0 : 0 <= SLM_SIZE) by (vm_compute; discriminate).
  assert (HS : 8 * (SLM_SIZE * SLM_SIZE) < 2 ^ 31) by (vm_compute; reflexivity).
  assert (HL : (256 <= length (replicate 256 7))%nat)
    by (rewrite length_replicate; lia).
  assert (HM : startup_bytes (bool_of_int 0) + startup_bytes (bool_of_int 0) <=
               mem_avail (initial_globals 1000000))
    by (vm_compute; discriminate).
  pose proof (startCUDAandSLM_twice 0 1024 0 (replicate 256 7) 0 1024 0
                (replicate 256 7) (initial_globals 1000000)
                HB HS0 HS HL HL HM) as W.
  cbv zeta in W. destruct W as (_ & W2 & _). exact W2.
Defined.

Lemma startCUDAandSLM_sizes_witness :
  let st' := snd (startCUDAandSLM 0 1024 0 [] (initial_globals 0)) in
  ints st' N_pixels = 4 /\ ints st' memsize_SLMcc = 32 /\
  ints st' n_blocks_Phi = 1.
Proof.
  assert (HB : 0 < BLOCK_SIZE < 2 ^ 29) by (vm_compute; split; reflexivity).
  assert (HS0 : 0 <= SLM_SIZE) by (vm_compute; discriminate).
  assert (HS : 8 * (SLM_SIZE * SLM_SIZE) < 2 ^ 31) by (vm_compute; reflexivity).
  pose proof (startCUDAandSLM_sizes 0 1024 0 [] (initial_globals 0) HB HS0 HS) as W.
  cbv zeta in W. destruct W as (_ & W2 & _ & _ & W5 & _ & _ & _ & W9).
  cbv zeta. split; [exact W2|]. split; [exact W5|].
  change (SLM_SIZE * SLM_SIZE) with 4 in W9. change BLOCK_SIZE with 4 in W9.
  lia.
Defined.


(** A session with the aberration map switched on is stopped and started
    again: the flag is still on, the map is gone. *)
Lemma restart_keeps_correction_flags_witness :
  let st := snd (@Corrections Sample.milli 1 (Some [1; 2; 3; 4]) 0 0 0 None
                   Sample.session) in
  let st2 := snd (startCUDAandSLM 0 1024 0 (replicate 256 7)
                    (snd (stopCUDAandSLM st))) in
  UseAberrationCorr_b st = true /\
  fptrs st d_AberrationCorr_f = Live [1; 2; 3; 4] /\
  UseAberrationCorr_b st2 = true /\
  fptrs st2 d_AberrationCorr_f = NullPtr.
Proof.
  assert (HB : 0 <= BLOCK_SIZE <= 10000) by (vm_compute; split; discriminate).
  assert (HS0 : 0 <= SLM_SIZE) by (vm_compute; discriminate).
  assert (HS : 8 * (SLM_SIZE * SLM_SIZE) < 2 ^ 31) by (vm_compute; reflexivity).
  assert (HL : (256 <= length (replicate 256 7))%nat)
    by (rewrite length_replicate; lia).
  cbv zeta.
  set (st := snd (@Corrections Sample.milli 1 (Some [1; 2; 3; 4]) 0 0 0 None
                   Sample.session)).
  assert (HM : startup_bytes (bool_of_int 0) <= mem_total st)
    by (vm_compute; discriminate).
  assert (Hflag : UseAberrationCorr_b st = true) by (vm_compute; reflexivity).
  pose proof (restart_keeps_correction_flags 0 1024 0 (replicate 256 7) st
                HB HS0 HS HL HM) as W.
  cbv zeta in W. destruct W as (_ & W2 & _ & W4 & _).
  split; [exact Hflag|]. split; [vm_compute; reflexivity|].
  split; [rewrite W2; exact Hflag|exact (W4 Hflag)].
Defined.

Lemma GenerateHologram_unknown_method_witness :
  let r := GenerateHologram [0; 0; 0; 0] [1; 2; 3] [1; 2; 3] [1; 2; 3]
             [1; 1; 1] 3 2 [9; 9; 9] 500 5 Sample.session_slm in
  holo_pSLM_uc (fst r) = [0; 0; 0; 0] /\
  holo_weights (fst r) = [9; 9; 9] /\
  List.filter driver_call
    (new_events (trace Sample.session_slm) (trace (snd r))) =
    [EvLoadImg [0; 0; 0; 0]].
Proof.
  assert (HN : 3 <= 3 \/ BLOCK_SIZE < 3) by (left; lia).
  pose proof (GenerateHologram_unknown_method [0; 0; 0; 0] [1; 2; 3] [1; 2; 3] [1; 2; 3]
                [1; 1; 1] 3 2 [9; 9; 9] 500 5 Sample.session_slm HN
                ltac:(discriminate) ltac:(discriminate) ltac:(discriminate))
    as W.
  cbv zeta in W. destruct W as (W1 & W2 & _ & W4).
  cbv zeta. split; [exact W1|]. split; [exact W2|exact W4].
Defined.

Lemma Corrections_conserves_memory_witness :
  let st' := snd (@Corrections Sample.milli 1 (Some [1; 2; 3; 4]) 0 1 3
                    (Some (replicate 20 5)) Sample.session) in
  mem_avail Sample.session = mem_avail st' + 16 + 480 /\
  mem_avail st' + table_bytes st' =
    mem_avail Sample.session + table_bytes Sample.session.
Proof.
  assert (HM : ints Sample.session memsize_SLMf mod 4 = 0)
    by (vm_compute; reflexivity).
  cbv zeta. split; [vm_compute; reflexivity|].
  exact (@Corrections_conserves_memory Sample.milli 1 (Some [1; 2; 3; 4]) 0 1
           3 (Some (replicate 20 5))
           Sample.session HM).
Defined.

Lemma Corrections_polynomial_table_witness :
  let st' := snd (@Corrections Sample.milli 0 None 0 1 3
                    (Some (replicate 25 5)) Sample.session) in
  fptrs st' d_LUTPolCoeff_f = Live (replicate 20 5 ++ replicate 100 (-1)) /\
  UseLUTPol_b st' = true /\
  ints st' N_LUTPolCoeff = 20.
Proof.
  assert (HO : 3 <= 3 <= 7) by lia.
  assert (HU : 1 <> 0) by discriminate.
  assert (HH : (Z.to_nat (nth (Z.to_nat (3 - 3)%Z) Ncoeff 0%Z) <=
                length (replicate 25 5))%nat)
    by (vm_compute; lia).
  assert (HP : (fptrs Sample.session d_LUTPolCoeff_f = NullPtr /\
                replicate 120 indeterminate = replicate 120 indeterminate /\
                to_size_t (ints Sample.session memsize_SLMf) + 480 <=
                  mem_avail Sample.session) \/
               (fptrs Sample.session d_LUTPolCoeff_f =
                  Live (replicate 120 indeterminate) /\
                (120 <= length (replicate 120 indeterminate))%nat)).
  { left. split; [vm_compute; reflexivity|]. split; [reflexivity|].
    vm_compute. discriminate. }
  pose proof (Corrections_polynomial_table 0 None 0 1 3 (replicate 25 5)
                (replicate 120 indeterminate) Sample.session HO HU HH HP) as W.
  cbv zeta in W. destruct W as (W1 & W2 & W3).
  cbv zeta. split; [exact W1|].
  split; [exact W2|exact W3].
Defined.

Lemma GetAmps_leaves_session_witness :
  let r := GetAmps [1; 2; 3] [1; 2; 3] [1; 2; 3] [1; 2; 3; 4] 3 2 [0; 0; 0]
             Sample.session in
  exists e h,
    fst r = Some (e, h) /\
    mem_avail (snd r) = mem_avail Sample.session /\
    fptrs (snd r) = fptrs Sample.session.
Proof.
  assert (HN : - 2 ^ 31 <= 3 < 2 ^ 31) by (vm_compute; split; [discriminate|reflexivity]).
  pose proof (GetAmps_leaves_session [1; 2; 3] [1; 2; 3] [1; 2; 3] [1; 2; 3; 4] 3 2
                [0; 0; 0] Sample.session HN) as W.
  cbv zeta in W. destruct W as (e & h & W1 & W2 & W3 & _).
  cbv zeta. exists e, h. split; [exact W1|]. split; [exact W2|].
  unfold session_of_query in W3. congruence.
Defined.

Lemma GetAmps_nonpositive_witness :
  let r := GetAmps [1; 2; 3] [1; 2; 3] [1; 2; 3] [1; 2; 3; 4] (-1) 2 [7; 8]
             Sample.session in
  exists e, fst r = Some (e, [7; 8]) /\ e <> 0.
Proof.
  assert (HN : - 2 ^ 31 <= -1 <= 0) by (vm_compute; split; discriminate).
  assert (HL : Z.of_nat (length [7; 8]) < 2 ^ 61) by (vm_compute; reflexivity).
  pose proof (GetAmps_nonpositive [1; 2; 3] [1; 2; 3] [1; 2; 3] [1; 2; 3; 4] (-1)
                2 [7; 8] Sample.session HN HL) as W.
  cbv zeta in W. destruct W as (e & W1 & W2 & _).
  cbv zeta. exists e. split; [exact W1|]. apply W2. reflexivity.
Defined.

Lemma GenerateHologram_needs_session_witness :
  holo_status
    (fst (GenerateHologram [0; 0; 0; 0] [1; 2; 3] [1; 2; 3] [1; 2; 3]
            [1; 1; 1] 3 2 [9; 9; 9] 500 1 (initial_globals 1000000))) <> 0.
Proof.
  assert (HB : 0 < BLOCK_SIZE < 2 ^ 29) by (vm_compute; split; reflexivity).
  exact (GenerateHologram_needs_session [0; 0; 0; 0] [1; 2; 3] [1; 2; 3] [1; 2; 3]
           [1; 1; 1] 3 2 [9; 9; 9] 500 1 (initial_globals 1000000) HB
           eq_refl).
Defined.

(** Two blocks of three threads on eight entries, the threads in reverse
    order. *)
Lemma testfunc_fills_indices_witness :
  run_testfunc 3 (rev (grid_threads 2 3)) (replicate 8 (-1)) =
  Some [0; 1000; 2000; 3000; 4000; 5000; -1; -1].
Proof.
  assert (HP : Permutation (rev (grid_threads 2 3)) (grid_threads 2 3))
    by (apply Permutation_sym, Permutation_rev).
  assert (HF : (2 * 3 <= length (replicate 8 (-1)%Z))%nat)
    by (rewrite length_replicate; lia).
  assert (HI : Z.of_nat (length (replicate 8 (-1))) < 2 ^ 31)
    by (vm_compute; reflexivity).
  exact (testfunc_fills_indices 2 3 (rev (grid_threads 2 3))
           (replicate 8 (-1)) HP HF HI).
Defined.

Lemma testfunc_overrun_faults_witness :
  run_testfunc 3 (rev (grid_threads 2 3)) (replicate 4 (-1)) = None.
Proof.
  assert (HP : Permutation (rev (grid_threads 2 3)) (grid_threads 2 3))
    by (apply Permutation_sym, Permutation_rev).
  assert (HF : (length (replicate 4 (-1)%Z) < 2 * 3)%nat)
    by (rewrite length_replicate; lia).
  assert (HI : Z.of_nat (2 * 3) < 2 ^ 31) by (vm_compute; reflexivity).
  exact (testfunc_overrun_faults 2 3 (rev (grid_threads 2 3))
           (replicate 4 (-1)) HP HF HI).
Defined.
